(** * Training-plan rule engine: a shallow embedding and its properties

    The development follows [packages/core/src/types.ts] and
    [packages/core/src/rules-engine.ts], then the pure parts of their
    callers: the command parser of the bot, the command switch of the
    worker and the computation of the rule context from the stored rows.

    Conventions of the embedding.
    - A JavaScript [number] holding a minute count or a readiness score is
      an integer [Z]; the three places where the engine leaves the integers
      ([x * 1.1], [a / b], [d * scaleFactor]) are computed in exact
      rationals [Q], and [Math.round] is [floor (x + 1/2)].  Binary64
      rounding of these intermediate products is not modelled.
    - Strings are [string]; characters outside ASCII are carried as their
      UTF-8 bytes.  [trim] strips the ASCII white space characters.
    - An optional field ([notes?], [tags?], [todayFatigue?]) is an [option].
    - Arrays are lists, read with [!!] and written with [<[ i := x ]>].
      [forEach] is the index loop of the language over the live array.
    - Calendar dates are the strings [YYYY-MM-DD] of [types.ts]; any other
      string is an invalid date (the [NaN] time value, here [None]).
      [parseISO] of date-fns refuses a day its month does not have; the
      [Date] constructor of the engine that runs the worker accepts days
      up to 31 in every month and rolls the surplus into the next month.
    - [new Date(s + 'T00:00:00')] is a local midnight.  The time zone of
      the process is a parameter, [JS.TimeZone]: the offset from UTC in
      force at each local midnight.  Across a change of offset two
      successive midnights are not 24 hours apart. *)

From Stdlib Require Import ZArith QArith Qround String Ascii List Lia Bool.
From Stdlib Require Import DecimalString Permutation Sorted.
From stdpp Require Import base list strings gmap.
Import ListNotations.

Open Scope string_scope.
Open Scope Z_scope.

(** ** The parts of the JavaScript runtime the engine relies on *)

Module JS.

(** [a || ''] on an optional string: [undefined] and [''] both give ['']. *)
Definition orEmpty (o : option string) : string :=
  match o with
  | Some s => s
  | None => EmptyString
  end.

(** The line feed written [\n] in the source. *)
Definition LF : string := String (ascii_of_nat 10) EmptyString.

(** White space of [String.prototype.trim], ASCII part:
    TAB, LF, VT, FF, CR and SPACE. *)
Definition isWhite (c : ascii) : bool :=
  let n := nat_of_ascii c in
  ((9 <=? n)%nat && (n <=? 13)%nat) || (n =? 32)%nat.

Fixpoint trimStart (s : string) : string :=
  match s with
  | EmptyString => EmptyString
  | String c s' => if isWhite c then trimStart s' else s
  end.

(** [trimEnd] keeps a character when it is not white space or when
    something remains after it. *)
Fixpoint trimEnd (s : string) : string :=
  match s with
  | EmptyString => EmptyString
  | String c s' =>
      match trimEnd s' with
      | EmptyString => if isWhite c then EmptyString else String c EmptyString
      | t => String c t
      end
  end.

Definition trim (s : string) : string := trimEnd (trimStart s).

(** A number inside a template literal: decimal digits, with a sign. *)
Definition numToString (z : Z) : string :=
  NilZero.string_of_int (Z.to_int z).

(** [a.localeCompare(b)] as a number: negative, zero or positive.  On the
    digits and hyphens of a date the collation order is the order of the
    character codes. *)
Definition localeCompare (a b : string) : Z :=
  match String.compare a b with
  | Lt => -1
  | Eq => 0
  | Gt => 1
  end.

(** [Math.round]: to the nearest integer, halves towards plus infinity. *)
Definition Math_round (x : Q) : Z := Qfloor (x + (1 # 2)).

(** [arr.push(x)] *)
Definition push {A : Type} (l : list A) (x : A) : list A := (l ++ [x])%list.

(** [arr.sort(cmp)]: the sort of the language is stable.  Insertion from
    the right puts an element before the first one it does not exceed,
    so equal keys keep their order. *)
Section Sort.
Context {A : Type} (cmp : A -> A -> Z).

Fixpoint insertSorted (x : A) (l : list A) : list A :=
  match l with
  | [] => [x]
  | y :: l' => if cmp x y <=? 0 then x :: l else y :: insertSorted x l'
  end.

Fixpoint sort (l : list A) : list A :=
  match l with
  | [] => []
  | x :: l' => insertSorted x (sort l')
  end.
End Sort.

(** [arr.forEach((x, idx) => ...)] where the callback may write the array
    it walks: the length is read once, then every index below it is
    visited in turn and the element is read from the live array.  The
    loop state [St] holds the array and the locals the callback
    assigns. *)
Section ForEach.
Context {A St : Type} (arr : St -> list A) (body : A -> nat -> St -> St).

Fixpoint forEachLoop (n k : nat) (st : St) : St :=
  match n with
  | O => st
  | S n' =>
      match arr st !! k with
      | Some x => forEachLoop n' (S k) (body x k st)
      | None => forEachLoop n' (S k) st
      end
  end.

Definition forEach (st : St) : St := forEachLoop (length (arr st)) 0 st.
End ForEach.

(** *** Calendar dates *)

Definition digit (c : ascii) : option Z :=
  let n := Z.of_nat (nat_of_ascii c) in
  if (48 <=? n) && (n <=? 57) then Some (n - 48) else None.

Definition isHyphen (c : ascii) : bool := (nat_of_ascii c =? 45)%nat.

Definition isLeap (y : Z) : bool :=
  ((y mod 4 =? 0) && negb (y mod 100 =? 0)) || (y mod 400 =? 0).

Definition daysInMonth (y m : Z) : Z :=
  if m =? 2 then (if isLeap y then 29 else 28)
  else if (m =? 4) || (m =? 6) || (m =? 9) || (m =? 11) then 30
  else 31.

(** Days of the year before the first of month [m]. *)
Definition daysBeforeMonth (y m : Z) : Z :=
  let leap := if isLeap y then 1 else 0 in
  if m =? 1 then 0
  else if m =? 2 then 31
  else if m =? 3 then 59 + leap
  else if m =? 4 then 90 + leap
  else if m =? 5 then 120 + leap
  else if m =? 6 then 151 + leap
  else if m =? 7 then 181 + leap
  else if m =? 8 then 212 + leap
  else if m =? 9 then 243 + leap
  else if m =? 10 then 273 + leap
  else if m =? 11 then 304 + leap
  else 334 + leap.

(** Days from 0000-01-01 to the first of January of year [y >= 0]. *)
Definition daysBeforeYear (y : Z) : Z :=
  365 * y + (y + 3) / 4 - (y + 99) / 100 + (y + 399) / 400.

(** 1970-01-01 counted from 0000-01-01. *)
Definition epochDay : Z := 719528.

(** Day number of a calendar date, 1970-01-01 being day 0. *)
Definition dayNumber (y m d : Z) : Z :=
  daysBeforeYear y + daysBeforeMonth y m + (d - 1) - epochDay.

Definition validYMD (y m d : Z) : bool :=
  (1 <=? m) && (m <=? 12) && (1 <=? d) && (d <=? daysInMonth y m).

(** The year, month and day written in a [YYYY-MM-DD] string. *)
Definition readYMD (s : string) : option (Z * Z * Z) :=
  match s with
  | String y1 (String y2 (String y3 (String y4 (String h1
      (String m1 (String m2 (String h2
      (String d1 (String d2 EmptyString))))))))) =>
      match digit y1, digit y2, digit y3, digit y4,
            digit m1, digit m2, digit d1, digit d2 with
      | Some a, Some b, Some c, Some e, Some f, Some g, Some i, Some j =>
          if isHyphen h1 && isHyphen h2
          then Some (1000 * a + 100 * b + 10 * c + e, 10 * f + g, 10 * i + j)
          else None
      | _, _, _, _, _, _, _, _ => None
      end
  | _ => None
  end.

(** The calendar day a date string denotes, [None] for an invalid date. *)
Definition parseDay (s : string) : option Z :=
  match readYMD s with
  | Some (y, m, d) => if validYMD y m d then Some (dayNumber y m d) else None
  | None => None
  end.

Definition dayInMs : Z := 24 * 60 * 60 * 1000.

(** The time zone of the process: for each day, counted from 1970-01-01,
    the offset from UTC, in milliseconds, in force at the local midnight
    that starts it. *)
Class TimeZone : Type := utcOffset : Z -> Z.

(** What the [Date] constructor takes for a day: a month from 1 to 12 and
    a day from 1 to 31, whatever the month. *)
Definition looseYMD (m d : Z) : bool :=
  (1 <=? m) && (m <=? 12) && (1 <=? d) && (d <=? 31).

(** The local day [new Date(s + 'T00:00:00')] stands for: a day its month
    does not have is counted on into the next month, 2026-02-30 being the
    second of March. *)
Definition localDay (s : string) : option Z :=
  match readYMD s with
  | Some (y, m, d) => if looseYMD m d then Some (dayNumber y m d) else None
  | None => None
  end.

(** [new Date(s + 'T00:00:00').getTime()]: the local midnight that starts
    the day, in milliseconds since the epoch. *)
Definition midnightTime `{zone : TimeZone} (s : string) : option Z :=
  match localDay s with
  | Some n => Some (n * dayInMs - utcOffset n)
  | None => None
  end.

(** [getDay(parseISO(s))]: 0 for Sunday up to 6 for Saturday; 1970-01-01
    was a Thursday. *)
Definition getDay (s : string) : option Z :=
  match parseDay s with
  | Some n => Some ((n + 4) mod 7)
  | None => None
  end.

End JS.

(** ** [types.ts] *)

Inductive Sport : Type := swim | bike | run | strength | rest.

Inductive Intensity : Type := z1 | z2 | z3 | z4 | z5.

#[global] Instance Sport_eq_dec : EqDecision Sport.
Proof. solve_decision. Defined.

#[global] Instance Intensity_eq_dec : EqDecision Intensity.
Proof. solve_decision. Defined.

Definition Intensity_code (i : Intensity) : nat :=
  match i with z1 => 1 | z2 => 2 | z3 => 3 | z4 => 4 | z5 => 5 end.

Definition Intensity_of_code (n : nat) : option Intensity :=
  match n with
  | 1%nat => Some z1 | 2%nat => Some z2 | 3%nat => Some z3
  | 4%nat => Some z4 | 5%nat => Some z5 | _ => None
  end.

#[global] Instance Intensity_countable : Countable Intensity.
Proof.
  apply (inj_countable Intensity_code Intensity_of_code).
  intros []; reflexivity.
Defined.

Record Session : Type := mkSession {
  date : string;                 (* YYYY-MM-DD *)
  sport : Sport;
  title : string;
  durationMin : Z;
  intensity : Intensity;
  notes : option string;
  tags : option (list string)
}.

Record WeekPlan : Type := mkWeekPlan {
  startDate : string;            (* YYYY-MM-DD *)
  sessions : list Session;
  warnings : list string;
  appliedRules : list string
}.

Record Last7dStats : Type := mkLast7dStats {
  totalMinutes : Z;
  byDate : list (string * Z)
}.

Record Fatigue : Type := mkFatigue {
  readiness : Z;                 (* 1-5 *)
  sleepScore : option Z
}.

Record RulesContext : Type := mkRulesContext {
  last7dStats : Last7dStats;
  todayFatigue : option Fatigue
}.

#[global] Instance Session_eq_dec : EqDecision Session.
Proof. solve_decision. Defined.

Definition HARD_INTENSITIES : gset Intensity := {[ z4; z5 ]}.

Definition HARD_TAGS : gset string := {[ "vo2"; "threshold" ]}.

(** [set.has(x)] *)
Definition has `{Countable K} (set : gset K) (x : K) : bool :=
  bool_decide (x ∈ set).

Definition isHardSession (session : Session) : bool :=
  if has HARD_INTENSITIES (intensity session) then true
  else if match tags session with
          | Some ts => existsb (fun tag => has HARD_TAGS tag) ts
          | None => false
          end then true
  else false.

Definition downgradeToEasy (session : Session) (reason : string) : Session :=
  {| date := date session;
     sport := sport session;
     durationMin := durationMin session;
     intensity := z2;
     title := title session ++ " (downgraded to Z2)";
     notes := Some (JS.trim (JS.orEmpty (notes session) ++ JS.LF
                            ++ "Downgraded: " ++ reason));
     tags := match tags session with
             | Some ts => Some (List.filter (fun tag => negb (has HARD_TAGS tag)) ts)
             | None => None
             end |}.

(** ** [rules-engine.ts] *)

(** [tags?.includes(t)]; an absent [tags] gives [undefined], which the
    callers negate to [true]. *)
Definition includes (ts : option (list string)) (t : string) : bool :=
  match ts with
  | Some l => existsb (String.eqb t) l
  | None => false
  end.

(** [['Sun', ..., 'Sat'][getDay(parseISO(date))]]; [undefined] for an
    invalid date. *)
Definition dayNames : list string :=
  ["Sun"; "Mon"; "Tue"; "Wed"; "Thu"; "Fri"; "Sat"].

Definition dayNameOf (d : string) : option string :=
  match JS.getDay d with
  | Some n => dayNames !! Z.to_nat n
  | None => None
  end.

Definition isDay (dayName : option string) (name : string) : bool :=
  match dayName with
  | Some n => String.eqb n name
  | None => false
  end.

(** State of the loops that write [sessions[idx]] and raise [modified]. *)
Record Loop : Type := mkLoop {
  arr : list Session;
  modified : bool
}.

(** *** Soft rule 4: SwimRotation *)

Definition swimRotationBody (session : Session) (idx : nat) (st : Loop) : Loop :=
  let dayName := dayNameOf (date session) in
  if decide (sport session = swim) then
    let st :=
      if isDay dayName "Wed" && negb (includes (tags session) "technique") then
        {| arr := <[ idx :=
                      {| date := date session;
                         sport := sport session;
                         durationMin := durationMin session;
                         intensity := intensity session;
                         title := "Swim Technique";
                         tags := Some ["technique"];
                         notes := Some (JS.trim (JS.orEmpty (notes session) ++ JS.LF
                                                ++ "Adjusted to technique session")) |} ]>
                  (arr st);
           modified := true |}
      else st in
    if isDay dayName "Fri" && negb (includes (tags session) "intervals") then
      {| arr := <[ idx :=
                    {| date := date session;
                       sport := sport session;
                       durationMin := durationMin session;
                       title := "Swim Intervals";
                       tags := Some ["intervals"];
                       intensity := z4;
                       notes := Some (JS.trim (JS.orEmpty (notes session) ++ JS.LF
                                              ++ "Adjusted to intervals session")) |} ]>
                (arr st);
         modified := true |}
    else st
  else st.

Definition swimRotationEntry : string :=
  "SwimRotation: Adjusted swim sessions to match Wed=technique, Fri=intervals".

Definition applySwimRotationRule (plan : WeekPlan) : WeekPlan :=
  let st := JS.forEach arr swimRotationBody
              {| arr := sessions plan; modified := false |} in
  let appliedRules :=
    if modified st then JS.push (appliedRules plan) swimRotationEntry
    else appliedRules plan in
  {| startDate := startDate plan;
     sessions := arr st;
     warnings := warnings plan;
     appliedRules := appliedRules |}.

(** *** Hard rule 2: ReadinessDownshift *)

Definition readinessBody (todayStr : string) (readinessNow : Z)
    (session : Session) (idx : nat) (st : Loop) : Loop :=
  if String.eqb (date session) todayStr && isHardSession session then
    {| arr := <[ idx := downgradeToEasy session
                          ("Low readiness (" ++ JS.numToString readinessNow ++ "/5)") ]>
              (arr st);
       modified := true |}
  else st.

Definition readinessWarning (readinessNow : Z) : string :=
  "⚠️ Low readiness detected (" ++ JS.numToString readinessNow
    ++ "/5). Hard sessions downgraded to Z2.".

Definition readinessEntry : string :=
  "ReadinessDownshift: Downgraded hard sessions due to low readiness".

Definition applyReadinessDownshiftRule (plan : WeekPlan) (context : RulesContext)
    : WeekPlan :=
  match todayFatigue context with
  | None => plan
  | Some fatigue =>
      if readiness fatigue >? 2 then plan
      else
        let todayStr := startDate plan in
        let st := JS.forEach arr (readinessBody todayStr (readiness fatigue))
                    {| arr := sessions plan; modified := false |} in
        {| startDate := startDate plan;
           sessions := arr st;
           warnings := if modified st
                       then JS.push (warnings plan) (readinessWarning (readiness fatigue))
                       else warnings plan;
           appliedRules := if modified st
                           then JS.push (appliedRules plan) readinessEntry
                           else appliedRules plan |}
  end.

(** *** Hard rule 1: NoHardHard *)

(** Whether [date2] is the day after [date1]: the two local midnights are
    one day of milliseconds apart.  An invalid date has no time value and
    compares unequal. *)
Definition isNextDay `{zone : JS.TimeZone} (date1 date2 : string) : bool :=
  match JS.midnightTime date1, JS.midnightTime date2 with
  | Some t1, Some t2 => (t2 - t1) =? JS.dayInMs
  | _, _ => false
  end.

Record Walk : Type := mkWalk {
  wSessions : list Session;
  wModified : bool;
  previousWasHard : bool;
  previousDate : option string    (* [null] before the first session *)
}.

(** [previousDate && isNextDay(previousDate, date)]: [null] and the empty
    string are falsy. *)
Definition isConsecutive `{zone : JS.TimeZone} (prev : option string)
    (d : string) : bool :=
  match prev with
  | Some p => if String.eqb p EmptyString then false else isNextDay p d
  | None => false
  end.

Definition noHardHardBody `{zone : JS.TimeZone} (session : Session) (idx : nat)
    (st : Walk) : Walk :=
  let currentHard := isHardSession session in
  if isConsecutive (previousDate st) (date session)
     && previousWasHard st && currentHard then
    {| wSessions := <[ idx := downgradeToEasy session
                                "No back-to-back hard sessions allowed" ]>
                    (wSessions st);
       wModified := true;
       previousWasHard := false;
       previousDate := Some (date session) |}
  else
    {| wSessions := wSessions st;
       wModified := wModified st;
       previousWasHard := currentHard;
       previousDate := Some (date session) |}.

Definition noHardHardWarning : string :=
  "⚠️ Adjusted plan to avoid back-to-back hard sessions".

Definition noHardHardEntry : string :=
  "NoHardHard: Prevented consecutive hard training days".

Definition byDateAsc (a b : Session) : Z := JS.localeCompare (date a) (date b).

Definition applyNoHardHardRule `{zone : JS.TimeZone} (plan : WeekPlan)
    : WeekPlan :=
  let sorted := JS.sort byDateAsc (sessions plan) in
  let st := JS.forEach wSessions noHardHardBody
              {| wSessions := sorted; wModified := false;
                 previousWasHard := false; previousDate := None |} in
  {| startDate := startDate plan;
     sessions := wSessions st;
     warnings := if wModified st then JS.push (warnings plan) noHardHardWarning
                 else warnings plan;
     appliedRules := if wModified st then JS.push (appliedRules plan) noHardHardEntry
                     else appliedRules plan |}.

(** *** Hard rule 3: WeeklyLoadCap *)

Definition plannedMinutesOf (l : list Session) : Z :=
  fold_left (fun sum s => sum + durationMin s) l 0.

(** [Math.round(lastWeekMinutes * 1.1)] *)
Definition maxAllowedOf (lastWeekMinutes : Z) : Z :=
  JS.Math_round (inject_Z lastWeekMinutes * (11 # 10)).

Definition scaledDuration (scaleFactor : Q) (d : Z) : Z :=
  Z.max 30 (JS.Math_round (inject_Z d * scaleFactor)).

Definition loadCapBody (scaleFactor : Q) (session : Session) (idx : nat)
    (st : list Session) : list Session :=
  if negb (bool_decide (sport session = rest)) && (durationMin session >? 0) then
    let newDuration := scaledDuration scaleFactor (durationMin session) in
    if negb (newDuration =? durationMin session) then
      <[ idx := {| date := date session;
                   sport := sport session;
                   title := title session;
                   intensity := intensity session;
                   tags := tags session;
                   durationMin := newDuration;
                   notes := Some (JS.trim (JS.orEmpty (notes session) ++ JS.LF
                             ++ "Duration adjusted for progressive load management")) |} ]>
      st
    else st
  else st.

Definition loadCapWarning (lastWeekMinutes maxAllowedMinutes : Z) : string :=
  "⚠️ Weekly load capped at 110% of last week (" ++ JS.numToString lastWeekMinutes
    ++ "min → " ++ JS.numToString maxAllowedMinutes ++ "min max)".

Definition loadCapEntry (plannedMinutes maxAllowedMinutes : Z) : string :=
  "WeeklyLoadCap: Scaled durations from " ++ JS.numToString plannedMinutes
    ++ "min to " ++ JS.numToString maxAllowedMinutes ++ "min".

Definition applyWeeklyLoadCapRule (plan : WeekPlan) (context : RulesContext)
    : WeekPlan :=
  let lastWeekMinutes := totalMinutes (last7dStats context) in
  if lastWeekMinutes =? 0 then plan
  else
    let plannedMinutes := plannedMinutesOf (sessions plan) in
    let maxAllowedMinutes := maxAllowedOf lastWeekMinutes in
    if plannedMinutes <=? maxAllowedMinutes then plan
    else
      let scaleFactor := (inject_Z maxAllowedMinutes / inject_Z plannedMinutes)%Q in
      {| startDate := startDate plan;
         sessions := JS.forEach id (loadCapBody scaleFactor) (sessions plan);
         warnings := JS.push (warnings plan)
                       (loadCapWarning lastWeekMinutes maxAllowedMinutes);
         appliedRules := JS.push (appliedRules plan)
                           (loadCapEntry plannedMinutes maxAllowedMinutes) |}.

(** *** The entry point *)

Definition applyRules `{zone : JS.TimeZone} (weekPlan : WeekPlan)
    (context : RulesContext) : WeekPlan :=
  let plan := {| startDate := startDate weekPlan;
                 sessions := sessions weekPlan;
                 warnings := [];
                 appliedRules := [] |} in
  let plan := applySwimRotationRule plan in
  let plan := applyReadinessDownshiftRule plan context in
  let plan := applyNoHardHardRule plan in
  let plan := applyWeeklyLoadCapRule plan context in
  plan.

(** ** Specification-side definitions *)

(** The pipeline as the ordered list of its rules, run by a fold. *)
Definition resetAnnotations (plan : WeekPlan) : WeekPlan :=
  {| startDate := startDate plan;
     sessions := sessions plan;
     warnings := [];
     appliedRules := [] |}.

Definition ruleSequence `{zone : JS.TimeZone} (context : RulesContext)
    : list (WeekPlan -> WeekPlan) :=
  [ applySwimRotationRule;
    (fun plan => applyReadinessDownshiftRule plan context);
    applyNoHardHardRule;
    (fun plan => applyWeeklyLoadCapRule plan context) ].

Definition applyRulesSequential `{zone : JS.TimeZone} (plan : WeekPlan)
    (context : RulesContext) : WeekPlan :=
  fold_left (fun acc rule => rule acc) (ruleSequence context) (resetAnnotations plan).

(** [d2] is the calendar day that follows [d1]. *)
Definition dayAfter (d1 d2 : string) : Prop :=
  exists n, JS.parseDay d1 = Some n /\ JS.parseDay d2 = Some (n + 1).

(** The two dates are one calendar day apart, in either direction. *)
Definition oneDayApart (d1 d2 : string) : Prop :=
  dayAfter d1 d2 \/ dayAfter d2 d1.

(** Calendar facts used to relate the order of date strings to the order
    of days. *)
Definition yearLength (y : Z) : Z := if JS.isLeap y then 366 else 365.

(** Year, month and day compared in this order. *)
Definition lexLe (a b : Z * Z * Z) : Prop :=
  let '(y, m, d) := a in
  let '(y', m', d') := b in
  y < y' \/ (y = y' /\ (m < m' \/ (m = m' /\ d <= d'))).

(** A list is in date order when no element is followed by an earlier
    date. *)
Definition dateOrdered (l : list Session) : Prop :=
  forall i a b, l !! i = Some a -> l !! S i = Some b ->
    byDateAsc a b <= 0.

(** The same, as the standard library states it. *)
Definition dateOrderedFrom (l : list Session) : Prop :=
  Sorted.Sorted (fun a b => byDateAsc a b <= 0) l.

Definition nonRest (l : list Session) : list Session :=
  List.filter (fun s => negb (bool_decide (sport s = rest))) l.

Definition totalDuration (l : list Session) : Z :=
  foldr (fun s acc => durationMin s + acc) 0 l.

(** A loop that walks a list left to right, rewriting each element and
    threading an accumulator: the functional reading of a [forEach] whose
    callback writes only the slot it visits. *)
Section MapAccum.
Context {A T : Type} (step : A -> T -> A * T).

Fixpoint mapAccum (t : T) (l : list A) : list A * T :=
  match l with
  | [] => ([], t)
  | x :: l' =>
      let '(y, t1) := step x t in
      let '(ys, t2) := mapAccum t1 l' in
      (y :: ys, t2)
  end.
End MapAccum.

(** What each callback does to the session it visits and to its locals. *)

Definition swimWed (session : Session) : bool :=
  isDay (dayNameOf (date session)) "Wed" && negb (includes (tags session) "technique").

Definition swimFri (session : Session) : bool :=
  isDay (dayNameOf (date session)) "Fri" && negb (includes (tags session) "intervals").

Definition swimTouched (session : Session) : bool :=
  bool_decide (sport session = swim) && (swimWed session || swimFri session).

Definition swimRewrite (session : Session) : Session :=
  if bool_decide (sport session = swim) then
    if swimFri session then
      {| date := date session; sport := sport session;
         durationMin := durationMin session;
         title := "Swim Intervals"; tags := Some ["intervals"]; intensity := z4;
         notes := Some (JS.trim (JS.orEmpty (notes session) ++ JS.LF
                                ++ "Adjusted to intervals session")) |}
    else if swimWed session then
      {| date := date session; sport := sport session;
         durationMin := durationMin session; intensity := intensity session;
         title := "Swim Technique"; tags := Some ["technique"];
         notes := Some (JS.trim (JS.orEmpty (notes session) ++ JS.LF
                                ++ "Adjusted to technique session")) |}
    else session
  else session.

Definition swimStep (session : Session) (m : bool) : Session * bool :=
  (swimRewrite session, m || swimTouched session).

Definition readinessTouched (todayStr : string) (session : Session) : bool :=
  String.eqb (date session) todayStr && isHardSession session.

Definition readinessRewrite (todayStr : string) (r : Z) (session : Session) : Session :=
  if readinessTouched todayStr session
  then downgradeToEasy session ("Low readiness (" ++ JS.numToString r ++ "/5)")
  else session.

Definition readinessStep (todayStr : string) (r : Z) (session : Session) (m : bool)
    : Session * bool :=
  (readinessRewrite todayStr r session, m || readinessTouched todayStr session).

(** Locals of the NoHardHard walk: [modified], [previousWasHard],
    [previousDate]. *)
Definition noHardHardStep `{zone : JS.TimeZone} (session : Session)
    (t : bool * bool * option string)
    : Session * (bool * bool * option string) :=
  let '(m, ph, pd) := t in
  if isConsecutive pd (date session) && ph && isHardSession session
  then (downgradeToEasy session "No back-to-back hard sessions allowed",
        (true, false, Some (date session)))
  else (session, (m, isHardSession session, Some (date session))).

Definition loadCapRewrite (scaleFactor : Q) (session : Session) : Session :=
  if negb (bool_decide (sport session = rest)) && (durationMin session >? 0) then
    let newDuration := scaledDuration scaleFactor (durationMin session) in
    if negb (newDuration =? durationMin session) then
      {| date := date session; sport := sport session; title := title session;
         intensity := intensity session; tags := tags session;
         durationMin := newDuration;
         notes := Some (JS.trim (JS.orEmpty (notes session) ++ JS.LF
                   ++ "Duration adjusted for progressive load management")) |}
    else session
  else session.

Definition loadCapStep (scaleFactor : Q) (session : Session) (u : unit)
    : Session * unit :=
  (loadCapRewrite scaleFactor session, u).

(** The guard of WeeklyLoadCap: there is history and the plan exceeds the
    cap. *)
Definition loadCapFires (plan : WeekPlan) (context : RulesContext) : bool :=
  negb (totalMinutes (last7dStats context) =? 0)
  && negb (plannedMinutesOf (sessions plan)
             <=? maxAllowedOf (totalMinutes (last7dStats context))).

Definition scaleFactorOf (plan : WeekPlan) (context : RulesContext) : Q :=
  (inject_Z (maxAllowedOf (totalMinutes (last7dStats context)))
     / inject_Z (plannedMinutesOf (sessions plan)))%Q.

(** No adjacent pair of the list lies on successive days with both
    sessions hard. *)
Fixpoint adjacentSafe `{zone : JS.TimeZone} (l : list Session) : bool :=
  match l with
  | a :: ((b :: _) as l') =>
      negb (isNextDay (date a) (date b) && isHardSession a && isHardSession b)
      && adjacentSafe l'
  | _ => true
  end.

(** The bound the specification states for WeeklyLoadCap: when the rule
    fires, the non-rest minutes are at most the larger of the cap and of
    thirty minutes per non-rest session. *)
Definition loadCapMaxBound (plan : WeekPlan) (context : RulesContext) : Prop :=
  let lastWeekMinutes := totalMinutes (last7dStats context) in
  let out := nonRest (sessions (applyWeeklyLoadCapRule plan context)) in
  lastWeekMinutes > 0 ->
  plannedMinutesOf (sessions plan) > maxAllowedOf lastWeekMinutes ->
  totalDuration out
    <= Z.max (maxAllowedOf lastWeekMinutes) (30 * Z.of_nat (length out)).

(** A rule run from [before] to [after] appended one entry to
    [appliedRules]. *)
Definition logsEntry (before after : WeekPlan) : Prop :=
  exists entry, appliedRules after = JS.push (appliedRules before) entry.

(** The audit-trail reading of [appliedRules]: an entry is appended exactly
    when the sessions [after] differ from [reference]. *)
Definition entryIffChanged (before after : WeekPlan) (reference : list Session)
    : Prop :=
  logsEntry before after <-> sessions after <> reference.

(** Sample plans and contexts. *)

Definition shortAndLong : WeekPlan :=
  {| startDate := "2026-02-10";
     sessions :=
       [ mkSession "2026-02-10" bike "Bike" 40 z2 None None;
         mkSession "2026-02-11" run "Run" 960 z2 None None ];
     warnings := [];
     appliedRules := [] |}.

Definition lowHistory : RulesContext :=
  {| last7dStats := {| totalMinutes := 50; byDate := [] |};
     todayFatigue := None |}.

Definition singleHalfHour : WeekPlan :=
  {| startDate := "2026-02-10";
     sessions := [ mkSession "2026-02-10" bike "Bike" 30 z2 None None ];
     warnings := [];
     appliedRules := [] |}.

Definition tinyHistory : RulesContext :=
  {| last7dStats := {| totalMinutes := 10; byDate := [] |};
     todayFatigue := None |}.

Definition briefAndLong : WeekPlan :=
  {| startDate := "2026-02-10";
     sessions :=
       [ mkSession "2026-02-10" bike "Bike" 20 z2 None None;
         mkSession "2026-02-11" run "Run" 960 z2 None None ];
     warnings := [];
     appliedRules := [] |}.

Definition vo2Tuesday : Session :=
  mkSession "2026-02-10" bike "Bike VO2" 70 z5 None (Some ["vo2"]).

Definition intervalsWednesday : Session :=
  mkSession "2026-02-11" run "Run Intervals" 55 z4 None None.

Definition hardThursday : Session :=
  mkSession "2026-02-12" run "Run Hard" 55 z4 None None.

Definition backToBack : WeekPlan :=
  {| startDate := "2026-02-10";
     sessions := [ vo2Tuesday; intervalsWednesday ];
     warnings := ["stale warning"];
     appliedRules := ["stale entry"] |}.

Definition threeHard : WeekPlan :=
  {| startDate := "2026-02-10";
     sessions := [ intervalsWednesday; vo2Tuesday; hardThursday ];
     warnings := [];
     appliedRules := [] |}.

Definition noHistory : RulesContext :=
  {| last7dStats := {| totalMinutes := 0; byDate := [] |};
     todayFatigue := None |}.

Definition exhausted : RulesContext :=
  {| last7dStats := {| totalMinutes := 0; byDate := [] |};
     todayFatigue := Some {| readiness := 1; sleepScore := None |} |}.

Definition secondOnWednesday : Session :=
  mkSession "2026-02-11" bike "Bike Threshold" 45 z3 None (Some ["threshold"]).

Definition doubleWednesday : WeekPlan :=
  {| startDate := "2026-02-10";
     sessions := [ vo2Tuesday; intervalsWednesday; secondOnWednesday ];
     warnings := [];
     appliedRules := [] |}.

Definition swappedSwims : WeekPlan :=
  {| startDate := "2026-02-09";
     sessions :=
       [ mkSession "2026-02-11" swim "Swim Workout" 50 z4 None (Some ["intervals"]);
         mkSession "2026-02-13" swim "Swim Technique" 50 z2 None (Some ["technique"]) ];
     warnings := [];
     appliedRules := [] |}.

Definition threeHundred : WeekPlan :=
  {| startDate := "2026-02-10";
     sessions :=
       [ mkSession "2026-02-10" bike "Bike" 100 z2 None None;
         mkSession "2026-02-11" run "Run" 100 z4 None None;
         mkSession "2026-02-12" swim "Swim" 100 z2 None None ];
     warnings := [];
     appliedRules := [] |}.

Definition twoHundredLastWeek : RulesContext :=
  {| last7dStats := {| totalMinutes := 200; byDate := [] |};
     todayFatigue := None |}.

(** The tags of a session as a list, none when [tags] is absent. *)
Definition tagList (s : Session) : list string :=
  match tags s with
  | Some ts => ts
  | None => []
  end.

(** What no rule changes of a session: its day and its sport. *)
Definition sessionKey (s : Session) : string * Sport := (date s, sport s).

(** What NoHardHard may do to the session in a slot: keep it, or downgrade
    it when it is hard. *)
Definition keptOrDowngraded (s s' : Session) : Prop :=
  s' = s
  \/ (isHardSession s = true
      /\ s' = downgradeToEasy s "No back-to-back hard sessions allowed").

(** From [before] to [after] at most one warning and at most one applied
    rule were added, and a warning only together with an applied rule. *)
Definition annotationGrowth (before after : WeekPlan) : Prop :=
  exists a b : nat,
    (a <= b <= 1)%nat
    /\ length (warnings after) = (length (warnings before) + a)%nat
    /\ length (appliedRules after) = (length (appliedRules before) + b)%nat.

(** ** More of the JavaScript runtime: the string functions of the
    command parser *)

Module JSText.

(** [s.startsWith('/')] *)
Definition startsWithSlash (s : string) : bool :=
  match s with
  | String c _ => Ascii.eqb c "/"
  | EmptyString => false
  end.

(** [s.slice(1)] *)
Definition slice1 (s : string) : string :=
  match s with
  | String _ s' => s'
  | EmptyString => EmptyString
  end.

(** [s.toLowerCase()], on the letters A to Z. *)
Definition lowerChar (c : ascii) : ascii :=
  let n := nat_of_ascii c in
  if ((65 <=? n)%nat && (n <=? 90)%nat) then ascii_of_nat (n + 32) else c.

Fixpoint toLowerCase (s : string) : string :=
  match s with
  | EmptyString => EmptyString
  | String c s' => String (lowerChar c) (toLowerCase s')
  end.

(** [s.split(/\s+/)]: the pieces between the maximal runs of white space.
    A run at the start leaves an empty first piece, a run at the end an
    empty last piece, and the empty string has the one piece [''].  A
    white character that is followed by another one belongs to the same
    run; a character that is not white is put in front of the piece that
    follows it. *)
Definition startsWhite (s : string) : bool :=
  match s with
  | String c _ => JS.isWhite c
  | EmptyString => false
  end.

Fixpoint splitWs (s : string) : list string :=
  match s with
  | EmptyString => [EmptyString]
  | String c s' =>
      if JS.isWhite c then
        if startsWhite s' then splitWs s' else EmptyString :: splitWs s'
      else
        match splitWs s' with
        | piece :: pieces => String c piece :: pieces
        | [] => [String c EmptyString]
        end
  end.

(** [parseInt(s, 10)]: leading white space is skipped, one sign is read,
    then the longest run of decimal digits; [None] is [NaN], the result
    when no digit is found.  Whatever follows the digits is ignored. *)
Fixpoint parseDigits (acc : Z) (seen : bool) (s : string) : option Z :=
  match s with
  | EmptyString => if seen then Some acc else None
  | String c s' =>
      match JS.digit c with
      | Some d => parseDigits (10 * acc + d) true s'
      | None => if seen then Some acc else None
      end
  end.

Definition parseInt10 (s : string) : option Z :=
  match JS.trimStart s with
  | String c r =>
      if Ascii.eqb c "-" then
        match parseDigits 0 false r with
        | Some n => Some (- n)
        | None => None
        end
      else if Ascii.eqb c "+" then parseDigits 0 false r
      else parseDigits 0 false (String c r)
  | EmptyString => None
  end.

(** [arr.includes(s)] on strings. *)
Definition includesStr (l : list string) (s : string) : bool :=
  existsb (String.eqb s) l.

End JSText.

(** ** [apps/bot/src/parser.ts] *)

Module Parser.

Record ParsedCommand : Type := mkParsed {
  commandName : string;
  args : list string
}.

Definition parseCommand (text : string) : ParsedCommand :=
  let trimmed := JS.trim text in
  if JSText.startsWithSlash trimmed then
    let parts := JSText.splitWs (JSText.slice1 trimmed) in
    (* [split] never returns the empty array, [parts[0]] is there *)
    {| commandName := JSText.toLowerCase (hd EmptyString parts);
       args := tl parts |}
  else
    {| commandName := "unknown";
       args := [trimmed] |}.

(** [{ valid; ftp?; error? }] *)
Record FtpVerdict : Type := mkFtpVerdict {
  ftpValid : bool;
  ftp : option Z;
  ftpError : option string
}.

Definition validateSetFtpArgs (args : list string) : FtpVerdict :=
  match args with
  | arg0 :: arg1 :: _ =>
      if negb (String.eqb (JSText.toLowerCase arg0) "ftp") then
        {| ftpValid := false; ftp := None;
           ftpError := Some "Currently only /set ftp is supported" |}
      else
        match JSText.parseInt10 arg1 with
        | Some n =>
            if (n <? 50) || (n >? 600) then
              {| ftpValid := false; ftp := None;
                 ftpError := Some "FTP must be a number between 50 and 600" |}
            else {| ftpValid := true; ftp := Some n; ftpError := None |}
        | None =>
            {| ftpValid := false; ftp := None;
               ftpError := Some "FTP must be a number between 50 and 600" |}
        end
  | _ =>
      (* [args.length < 2] *)
      {| ftpValid := false; ftp := None;
         ftpError := Some "Usage: /set ftp <number>" |}
  end.

Definition validSports : list string := ["swim"; "bike"; "run"].

Definition validIntensities : list string := ["z1"; "z2"; "z3"; "z4"; "z5"].

(** [{ valid; sport?; durationMin?; intensity?; error? }] *)
Record LogVerdict : Type := mkLogVerdict {
  logValid : bool;
  logSport : option string;
  logDurationMin : option Z;
  logIntensity : option string;
  logError : option string
}.

Definition logFailure (message : string) : LogVerdict :=
  {| logValid := false; logSport := None; logDurationMin := None;
     logIntensity := None; logError := Some message |}.

Definition validateLogArgs (args : list string) : LogVerdict :=
  match args with
  | arg0 :: arg1 :: more =>
      let sport := JSText.toLowerCase arg0 in
      if negb (JSText.includesStr validSports sport) then
        logFailure ("Sport must be one of: " ++ String.concat ", " validSports)
      else
        match JSText.parseInt10 arg1 with
        | Some durationMin =>
            if (durationMin <? 1) || (durationMin >? 1440) then
              logFailure "Duration must be a number between 1 and 1440 minutes"
            else
              match more with
              | arg2 :: _ =>
                  (* [args.length >= 3] *)
                  let intensity := JSText.toLowerCase arg2 in
                  if negb (JSText.includesStr validIntensities intensity) then
                    logFailure ("Intensity must be one of: "
                                ++ String.concat ", " validIntensities)
                  else
                    {| logValid := true; logSport := Some sport;
                       logDurationMin := Some durationMin;
                       logIntensity := Some intensity; logError := None |}
              | [] =>
                  {| logValid := true; logSport := Some sport;
                     logDurationMin := Some durationMin;
                     logIntensity := None; logError := None |}
              end
        | None =>
            logFailure "Duration must be a number between 1 and 1440 minutes"
        end
  | _ =>
      logFailure ("Usage: /log <sport> <durationMin> [intensity]" ++ JS.LF
                  ++ "Sport: swim|bike|run")
  end.

End Parser.

(** ** [apps/worker/src/index.ts]: the command switch of the job handler

    The handlers reach the database and the clock; the switch that picks
    one is pure.  [Action] is what the switch decides: a reply it wrote
    itself, or the handler it calls with the arguments it read. *)

Module Worker.

Inductive Action : Type :=
| Reply (response : string)
| HandleStart
| HandleProfile
| HandleSetFtp (ftp : Z)
| HandlePlan
| HandleLog (sport : string) (durationMin : Z) (intensity : option string)
| HandleUnknown.

Definition dispatchSet (args : list string) : Action :=
  match args with
  | arg0 :: arg1 :: _ =>
      if String.eqb (JSText.toLowerCase arg0) "ftp" then
        match JSText.parseInt10 arg1 with
        | Some n =>
            if (n <? 50) || (n >? 600)
            then Reply "❌ Invalid FTP value. Must be between 50 and 600."
            else HandleSetFtp n
        | None => Reply "❌ Invalid FTP value. Must be between 50 and 600."
        end
      else Reply "❌ Usage: /set ftp <number>"
  | _ => Reply "❌ Usage: /set ftp <number>"
  end.

Definition dispatchLog (args : list string) : Action :=
  match args with
  | arg0 :: arg1 :: more =>
      let sport := JSText.toLowerCase arg0 in
      if negb (JSText.includesStr Parser.validSports sport) then
        Reply ("❌ Sport must be one of: " ++ String.concat ", " Parser.validSports)
      else
        match JSText.parseInt10 arg1 with
        | Some durationMin =>
            if (durationMin <? 1) || (durationMin >? 1440) then
              Reply "❌ Duration must be between 1 and 1440 minutes"
            else
              (* [args[2]?.toLowerCase()], then [if (intensity)]: an
                 absent third argument and an empty one are both falsy *)
              match more with
              | arg2 :: _ =>
                  let intensity := JSText.toLowerCase arg2 in
                  if String.eqb intensity EmptyString then
                    HandleLog sport durationMin None
                  else if negb (JSText.includesStr Parser.validIntensities intensity)
                  then Reply ("❌ Intensity must be one of: "
                              ++ String.concat ", " Parser.validIntensities)
                  else HandleLog sport durationMin (Some intensity)
              | [] => HandleLog sport durationMin None
              end
        | None => Reply "❌ Duration must be between 1 and 1440 minutes"
        end
  | _ =>
      Reply ("❌ Usage: /log <sport> <minutes> [intensity]" ++ JS.LF
             ++ "Sport: swim|bike|run")
  end.

Definition dispatch (commandName : string) (args : list string) : Action :=
  if String.eqb commandName "start" then HandleStart
  else if String.eqb commandName "profile" then HandleProfile
  else if String.eqb commandName "set" then dispatchSet args
  else if String.eqb commandName "plan" then HandlePlan
  else if String.eqb commandName "log" then dispatchLog args
  else HandleUnknown.

(** The bot parses the text of a message and queues it; the worker takes
    the job and runs the switch on its [commandName] and [args]. *)
Definition handleMessage (text : string) : Action :=
  let parsed := Parser.parseCommand text in
  dispatch (Parser.commandName parsed) (Parser.args parsed).

End Worker.

(** Words of a command line. *)

Fixpoint allChars (P : ascii -> bool) (s : string) : bool :=
  match s with
  | EmptyString => true
  | String c s' => P c && allChars P s'
  end.

(** No white space in the string. *)
Definition noWhite (s : string) : bool :=
  allChars (fun c => negb (JS.isWhite c)) s.

(** No capital letter A to Z in the string. *)
Definition noCapital (s : string) : bool :=
  allChars (fun c => negb ((65 <=? nat_of_ascii c)%nat
                           && (nat_of_ascii c <=? 90)%nat)) s.

(** An argument as a command line carries it: not empty, no white space. *)
Definition isWord (s : string) : Prop := s <> EmptyString /\ noWhite s = true.

(** The string is empty or its last character is not white. *)
Fixpoint endsClean (s : string) : bool :=
  match s with
  | EmptyString => true
  | String c s' =>
      match s' with
      | EmptyString => negb (JS.isWhite c)
      | String _ _ => endsClean s'
      end
  end.

(** The arguments of a command line, each after one space. *)
Fixpoint spaced (words : list string) : string :=
  match words with
  | [] => EmptyString
  | w :: ws => " " ++ w ++ spaced ws
  end.

(** A command line: a slash, the name, the arguments. *)
Definition commandLine (name : string) (words : list string) : string :=
  "/" ++ name ++ spaced words.

(** ** [apps/worker/src/handlers.ts]: [getRulesContext]

    The function awaits two queries and then computes; the rows the
    queries return are arguments here.  Of a workout row the date and the
    minutes are read, of a fatigue row the readiness and the sleep score,
    either of which may be [null]. *)

Module Handlers.

Record WorkoutRow : Type := mkWorkoutRow {
  rowDate : string;
  rowDurationMin : Z
}.

Record FatigueRow : Type := mkFatigueRow {
  rowReadiness : option Z;
  rowSleepScore : option Z
}.

(** [existing.minutes += m] on the entry [acc.find(x => x.date === d)]
    returned: the first entry of that date, updated where it stands. *)
Fixpoint bumpFirst (d : string) (m : Z) (acc : list (string * Z))
    : list (string * Z) :=
  match acc with
  | [] => []
  | (d', m') :: acc' =>
      if String.eqb d' d then (d', m' + m) :: acc'
      else (d', m') :: bumpFirst d m acc'
  end.

Definition addWorkout (acc : list (string * Z)) (w : WorkoutRow)
    : list (string * Z) :=
  match List.find (fun x => String.eqb (fst x) (rowDate w)) acc with
  | Some _ => bumpFirst (rowDate w) (rowDurationMin w) acc
  | None => JS.push acc (rowDate w, rowDurationMin w)
  end.

(** [x || 3] on a number that may be [null]: [null] and 0 are falsy. *)
Definition orThree (x : option Z) : Z :=
  match x with
  | Some n => if n =? 0 then 3 else n
  | None => 3
  end.

(** [x || undefined] *)
Definition orUndefined (x : option Z) : option Z :=
  match x with
  | Some n => if n =? 0 then None else Some n
  | None => None
  end.

Definition getRulesContext (workouts : list WorkoutRow)
    (fatigue : option FatigueRow) : RulesContext :=
  let totalMinutes :=
    fold_left (fun sum w => sum + rowDurationMin w) workouts 0 in
  let byDate := fold_left addWorkout workouts [] in
  {| last7dStats := {| totalMinutes := totalMinutes; byDate := byDate |};
     todayFatigue :=
       match fatigue with
       | Some row =>
           Some {| readiness := orThree (rowReadiness row);
                   sleepScore := orUndefined (rowSleepScore row) |}
       | None => None
       end |}.

End Handlers.

(** The minutes of the workouts of one date. *)
Definition minutesOn (d : string) (workouts : list Handlers.WorkoutRow) : Z :=
  foldr (fun w acc =>
           if String.eqb (Handlers.rowDate w) d
           then Handlers.rowDurationMin w + acc else acc)
        0 workouts.

(** The minutes of a per-date table, summed. *)
Definition tableTotal (table : list (string * Z)) : Z :=
  foldr (fun x acc => snd x + acc) 0 table.

(** The per-date table holds, for each date once, the minutes of the
    workouts of that date. *)
Definition tableOf (workouts : list Handlers.WorkoutRow)
    (table : list (string * Z)) : Prop :=
  NoDup (map fst table)
  /\ (forall d, d ∈ map fst table <-> d ∈ map Handlers.rowDate workouts)
  /\ (forall d m, (d, m) ∈ table -> m = minutesOn d workouts).

Definition twoLong : WeekPlan :=
  {| startDate := "2026-02-10";
     sessions :=
       [ mkSession "2026-02-10" bike "Bike" 150 z2 None None;
         mkSession "2026-02-11" run "Run" 150 z2 None None ];
     warnings := [];
     appliedRules := [] |}.

Definition twoTenLastWeek : RulesContext :=
  {| last7dStats := {| totalMinutes := 210; byDate := [] |};
     todayFatigue := None |}.

(** Time zones.  [utc] has no offset.  [centralEurope2026] has the offsets
    of Europe/Berlin and Europe/Prague in 2026: one hour, and two hours at
    the midnights from 30 March to 25 October, the clocks going forward at
    2 a.m. on 29 March and back at 3 a.m. on 25 October. *)
Definition utc : JS.TimeZone := fun _ => 0.

Definition centralEurope2026 : JS.TimeZone :=
  fun n => if (20542 <=? n) && (n <=? 20751) then 7200000 else 3600000.

(** The zone keeps one offset. *)
Definition fixedOffset (zone : JS.TimeZone) : Prop :=
  forall n m : Z, @JS.utcOffset zone n = @JS.utcOffset zone m.

(** The Sunday on which the clocks go forward, and the two days after. *)
Definition hardSunday : Session :=
  mkSession "2026-03-29" bike "Bike VO2" 70 z5 None (Some ["vo2"]).

Definition hardMonday : Session :=
  mkSession "2026-03-30" run "Run Intervals" 55 z4 None None.

Definition hardTuesday : Session :=
  mkSession "2026-03-31" run "Run Hard" 55 z4 None None.

Definition clockChangeWeekend : WeekPlan :=
  {| startDate := "2026-03-29";
     sessions := [ hardSunday; hardMonday ];
     warnings := [];
     appliedRules := [] |}.

Definition clockChangeThreeDays : WeekPlan :=
  {| startDate := "2026-03-29";
     sessions := [ hardSunday; hardMonday; hardTuesday ];
     warnings := [];
     appliedRules := [] |}.

(** A day February does not have, and the day after the day it is read
    as. *)
Definition thirtiethOfFebruary : Session :=
  mkSession "2026-02-30" bike "Bike VO2" 70 z5 None None.

Definition thirdOfMarch : Session :=
  mkSession "2026-03-03" run "Run Intervals" 55 z4 None None.

Definition rolledOver : WeekPlan :=
  {| startDate := "2026-02-23";
     sessions := [ thirtiethOfFebruary; thirdOfMarch ];
     warnings := [];
     appliedRules := [] |}.

(** ** The [forEach] loops in functional form *)

Section ForEachMapAccum.
Context {A St T : Type}.
Context (arrOf : St -> list A) (locals : St -> T).
Context (body : A -> nat -> St -> St) (step : A -> T -> A * T).

Hypothesis body_arr : forall x k st,
  arrOf st !! k = Some x ->
  arrOf (body x k st) = <[ k := fst (step x (locals st)) ]> (arrOf st).
Hypothesis body_locals : forall x k st,
  arrOf st !! k = Some x ->
  locals (body x k st) = snd (step x (locals st)).

Lemma forEachLoop_mapAccum n : forall k st,
  (k + n)%nat = length (arrOf st) ->
  arrOf (JS.forEachLoop arrOf body n k st)
    = (take k (arrOf st)
         ++ fst (mapAccum step (locals st) (drop k (arrOf st))))%list
  /\ locals (JS.forEachLoop arrOf body n k st)
    = snd (mapAccum step (locals st) (drop k (arrOf st))).
Proof.
  induction n as [|n IH]; intros k st Hlen; simpl.
  - assert (Hk : k = length (arrOf st)) by lia.
    rewrite Hk, drop_all, firstn_all. simpl. rewrite app_nil_r. auto.
  - destruct (arrOf st !! k) as [x|] eqn:Hx.
    + specialize (IH (S k) (body x k st)).
      pose proof (body_arr x k st Hx) as Ha.
      pose proof (body_locals x k st Hx) as Hl.
      assert (Hk : (k < length (arrOf st))%nat) by (eapply lookup_lt_Some; eauto).
      destruct IH as [IH1 IH2].
      { rewrite Ha, length_insert. lia. }
      rewrite IH1, IH2, Ha, Hl.
      rewrite (drop_S _ _ _ Hx). simpl.
      destruct (step x (locals st)) as [y t1] eqn:Hs. simpl.
      rewrite drop_insert_lt by lia.
      destruct (mapAccum step t1 (drop (S k) (arrOf st))) as [ys t2] eqn:Hm.
      simpl. split; [|reflexivity].
      rewrite (take_S_r _ _ y).
      * rewrite take_insert_ge by lia. rewrite <- app_assoc. reflexivity.
      * apply list_lookup_insert_eq. exact Hk.
    + apply lookup_ge_None in Hx. lia.
Qed.

Lemma forEach_mapAccum st :
  arrOf (JS.forEach arrOf body st) = fst (mapAccum step (locals st) (arrOf st))
  /\ locals (JS.forEach arrOf body st) = snd (mapAccum step (locals st) (arrOf st)).
Proof.
  unfold JS.forEach.
  destruct (forEachLoop_mapAccum (length (arrOf st)) 0%nat st) as [H1 H2];
    [reflexivity|].
  rewrite drop_0 in H1, H2. simpl in H1. auto.
Qed.
End ForEachMapAccum.

Lemma mapAccum_map {A : Type} (g : A -> A) (c : A -> bool) (l : list A) :
  forall m, mapAccum (fun x m => (g x, m || c x)) m l = (map g l, m || existsb c l).
Proof.
  induction l as [|x l IH]; intros m; simpl.
  - rewrite orb_false_r. reflexivity.
  - rewrite IH, orb_assoc. reflexivity.
Qed.

Lemma mapAccum_unit {A : Type} (g : A -> A) (l : list A) :
  mapAccum (fun x (u : unit) => (g x, u)) tt l = (map g l, tt).
Proof.
  induction l as [|x l IH]; simpl; [reflexivity|].
  rewrite IH. reflexivity.
Qed.

Lemma mapAccum_length {A T : Type} (step : A -> T -> A * T) (l : list A) :
  forall t, length (fst (mapAccum step t l)) = length l.
Proof.
  induction l as [|x l IH]; intros t; simpl; [reflexivity|].
  destruct (step x t) as [y t1]. specialize (IH t1).
  destruct (mapAccum step t1 l) as [ys t2]. simpl in *. lia.
Qed.

(** *** SwimRotation *)

Lemma swimRotation_loop (l : list Session) :
  JS.forEach arr swimRotationBody {| arr := l; modified := false |}
  = {| arr := map swimRewrite l; modified := existsb swimTouched l |}.
Proof.
  destruct (forEach_mapAccum arr modified swimRotationBody swimStep) with
    (st := {| arr := l; modified := false |}) as [H1 H2].
  - intros x k [a m] Hx. simpl in *.
    unfold swimRotationBody, swimStep, swimRewrite. simpl.
    fold (swimWed x). fold (swimFri x).
    destruct (decide (sport x = swim)) as [Hs|Hs].
    + rewrite (bool_decide_eq_true_2 _ Hs).
      destruct (swimWed x), (swimFri x); simpl;
        rewrite ?list_insert_insert_eq; try reflexivity.
      symmetry. apply list_insert_id. exact Hx.
    + rewrite (bool_decide_eq_false_2 _ Hs).
      symmetry. apply list_insert_id. exact Hx.
  - intros x k [a m] Hx. simpl in *.
    unfold swimRotationBody, swimStep, swimTouched. simpl.
    fold (swimWed x). fold (swimFri x).
    destruct (decide (sport x = swim)) as [Hs|Hs].
    + rewrite (bool_decide_eq_true_2 _ Hs).
      destruct (swimWed x), (swimFri x); simpl;
        rewrite ?orb_true_r, ?orb_false_r; reflexivity.
    + rewrite (bool_decide_eq_false_2 _ Hs). simpl.
      rewrite orb_false_r. reflexivity.
  - simpl in H1, H2. unfold swimStep in H1, H2.
    rewrite mapAccum_map in H1, H2. simpl in H1, H2.
    destruct (JS.forEach arr swimRotationBody _) as [a m]. simpl in *.
    subst. reflexivity.
Qed.

Lemma applySwimRotationRule_eq (plan : WeekPlan) :
  applySwimRotationRule plan
  = {| startDate := startDate plan;
       sessions := map swimRewrite (sessions plan);
       warnings := warnings plan;
       appliedRules := if existsb swimTouched (sessions plan)
                       then JS.push (appliedRules plan) swimRotationEntry
                       else appliedRules plan |}.
Proof.
  unfold applySwimRotationRule. rewrite swimRotation_loop. reflexivity.
Qed.

(** *** ReadinessDownshift *)

Lemma readiness_loop (todayStr : string) (r : Z) (l : list Session) :
  JS.forEach arr (readinessBody todayStr r) {| arr := l; modified := false |}
  = {| arr := map (readinessRewrite todayStr r) l;
       modified := existsb (readinessTouched todayStr) l |}.
Proof.
  destruct (forEach_mapAccum arr modified (readinessBody todayStr r)
              (readinessStep todayStr r)) with
    (st := {| arr := l; modified := false |}) as [H1 H2].
  - intros x k [a m] Hx. simpl in *.
    unfold readinessBody, readinessStep, readinessRewrite. simpl.
    fold (readinessTouched todayStr x).
    destruct (readinessTouched todayStr x); simpl; [reflexivity|].
    symmetry. apply list_insert_id. exact Hx.
  - intros x k [a m] Hx. simpl in *.
    unfold readinessBody, readinessStep. simpl.
    fold (readinessTouched todayStr x).
    destruct (readinessTouched todayStr x); simpl;
      rewrite ?orb_true_r, ?orb_false_r; reflexivity.
  - simpl in H1, H2. unfold readinessStep in H1, H2.
    rewrite mapAccum_map in H1, H2. simpl in H1, H2.
    destruct (JS.forEach arr (readinessBody todayStr r) _) as [a m]. simpl in *.
    subst. reflexivity.
Qed.

Lemma applyReadinessDownshiftRule_eq (plan : WeekPlan) (context : RulesContext)
    (fatigue : Fatigue) :
  todayFatigue context = Some fatigue ->
  readiness fatigue <= 2 ->
  applyReadinessDownshiftRule plan context
  = {| startDate := startDate plan;
       sessions := map (readinessRewrite (startDate plan) (readiness fatigue))
                       (sessions plan);
       warnings := if existsb (readinessTouched (startDate plan)) (sessions plan)
                   then JS.push (warnings plan) (readinessWarning (readiness fatigue))
                   else warnings plan;
       appliedRules := if existsb (readinessTouched (startDate plan)) (sessions plan)
                       then JS.push (appliedRules plan) readinessEntry
                       else appliedRules plan |}.
Proof.
  intros Hf Hr. unfold applyReadinessDownshiftRule. rewrite Hf.
  destruct (readiness fatigue >? 2) eqn:Hgt; [lia|].
  rewrite readiness_loop. reflexivity.
Qed.

(** *** NoHardHard *)

Lemma noHardHard_loop `{zone : JS.TimeZone} (l : list Session) :
  let st := JS.forEach wSessions noHardHardBody
              {| wSessions := l; wModified := false;
                 previousWasHard := false; previousDate := None |} in
  let r := mapAccum noHardHardStep (false, false, None) l in
  wSessions st = fst r /\ wModified st = fst (fst (snd r)).
Proof.
  destruct (forEach_mapAccum wSessions
              (fun st => (wModified st, previousWasHard st, previousDate st))
              noHardHardBody noHardHardStep) with
    (st := {| wSessions := l; wModified := false;
              previousWasHard := false; previousDate := None |}) as [H1 H2].
  - intros x k [a m ph pd] Hx. simpl in *.
    unfold noHardHardBody, noHardHardStep. simpl.
    destruct (isConsecutive pd (date x) && ph && isHardSession x); simpl;
      [reflexivity|].
    symmetry. apply list_insert_id. exact Hx.
  - intros x k [a m ph pd] Hx. simpl in *.
    unfold noHardHardBody, noHardHardStep. simpl.
    destruct (isConsecutive pd (date x) && ph && isHardSession x); reflexivity.
  - simpl in H1, H2. split; [exact H1|].
    destruct (mapAccum noHardHardStep (false, false, None) l) as [ys [[m ph] pd]].
    simpl in *. congruence.
Qed.

Lemma applyNoHardHardRule_eq `{zone : JS.TimeZone} (plan : WeekPlan) :
  let r := mapAccum noHardHardStep (false, false, None)
             (JS.sort byDateAsc (sessions plan)) in
  applyNoHardHardRule plan
  = {| startDate := startDate plan;
       sessions := fst r;
       warnings := if fst (fst (snd r))
                   then JS.push (warnings plan) noHardHardWarning
                   else warnings plan;
       appliedRules := if fst (fst (snd r))
                       then JS.push (appliedRules plan) noHardHardEntry
                       else appliedRules plan |}.
Proof.
  intros r. unfold applyNoHardHardRule.
  destruct (noHardHard_loop (JS.sort byDateAsc (sessions plan))) as [H1 H2].
  rewrite H1, H2. reflexivity.
Qed.

(** *** WeeklyLoadCap *)

Lemma loadCap_loop (scaleFactor : Q) (l : list Session) :
  JS.forEach id (loadCapBody scaleFactor) l = map (loadCapRewrite scaleFactor) l.
Proof.
  destruct (forEach_mapAccum id (fun _ => tt) (loadCapBody scaleFactor)
              (loadCapStep scaleFactor)) with (st := l) as [H1 _].
  - intros x k st Hx. unfold id in *.
    unfold loadCapBody, loadCapStep, loadCapRewrite. simpl.
    destruct (negb (bool_decide (sport x = rest)) && (durationMin x >? 0));
      [|symmetry; apply list_insert_id; exact Hx].
    destruct (negb (scaledDuration scaleFactor (durationMin x) =? durationMin x));
      [reflexivity|].
    symmetry. apply list_insert_id. exact Hx.
  - reflexivity.
  - unfold loadCapStep in H1. rewrite mapAccum_unit in H1. exact H1.
Qed.

Lemma applyWeeklyLoadCapRule_fires (plan : WeekPlan) (context : RulesContext) :
  loadCapFires plan context = true ->
  applyWeeklyLoadCapRule plan context
  = {| startDate := startDate plan;
       sessions := map (loadCapRewrite (scaleFactorOf plan context)) (sessions plan);
       warnings := JS.push (warnings plan)
                     (loadCapWarning (totalMinutes (last7dStats context))
                        (maxAllowedOf (totalMinutes (last7dStats context))));
       appliedRules := JS.push (appliedRules plan)
                         (loadCapEntry (plannedMinutesOf (sessions plan))
                            (maxAllowedOf (totalMinutes (last7dStats context)))) |}.
Proof.
  unfold loadCapFires, applyWeeklyLoadCapRule, scaleFactorOf.
  intros H. apply andb_true_iff in H as [H1 H2].
  apply negb_true_iff in H1, H2. rewrite H1, H2, loadCap_loop. reflexivity.
Qed.

Lemma applyWeeklyLoadCapRule_idle (plan : WeekPlan) (context : RulesContext) :
  loadCapFires plan context = false ->
  applyWeeklyLoadCapRule plan context = plan.
Proof.
  unfold loadCapFires, applyWeeklyLoadCapRule.
  intros H. apply andb_false_iff in H as [H|H]; apply negb_false_iff in H.
  - rewrite H. reflexivity.
  - rewrite H. destruct (_ =? 0); reflexivity.
Qed.

(** ** Frame properties of the four rules *)

Lemma insertSorted_length {A : Type} (cmp : A -> A -> Z) (x : A) (l : list A) :
  length (JS.insertSorted cmp x l) = S (length l).
Proof.
  induction l as [|y l IH]; simpl; [reflexivity|].
  destruct (cmp x y <=? 0); simpl; [reflexivity|].
  rewrite IH. reflexivity.
Qed.

Lemma sort_length {A : Type} (cmp : A -> A -> Z) (l : list A) :
  length (JS.sort cmp l) = length l.
Proof.
  induction l as [|x l IH]; simpl; [reflexivity|].
  rewrite insertSorted_length, IH. reflexivity.
Qed.

Lemma applySwimRotationRule_frame (plan : WeekPlan) :
  startDate (applySwimRotationRule plan) = startDate plan
  /\ length (sessions (applySwimRotationRule plan)) = length (sessions plan).
Proof.
  rewrite applySwimRotationRule_eq. simpl. rewrite length_map. auto.
Qed.

Lemma applyReadinessDownshiftRule_frame (plan : WeekPlan) (context : RulesContext) :
  startDate (applyReadinessDownshiftRule plan context) = startDate plan
  /\ length (sessions (applyReadinessDownshiftRule plan context))
     = length (sessions plan).
Proof.
  destruct (todayFatigue context) as [f|] eqn:Hf.
  - destruct (Z_le_gt_dec (readiness f) 2) as [Hr|Hr].
    + rewrite (applyReadinessDownshiftRule_eq plan context f Hf Hr). simpl.
      rewrite length_map. auto.
    + unfold applyReadinessDownshiftRule. rewrite Hf.
      destruct (readiness f >? 2) eqn:E; [auto|lia].
  - unfold applyReadinessDownshiftRule. rewrite Hf. auto.
Qed.

Lemma applyNoHardHardRule_frame `{zone : JS.TimeZone} (plan : WeekPlan) :
  startDate (applyNoHardHardRule plan) = startDate plan
  /\ length (sessions (applyNoHardHardRule plan)) = length (sessions plan).
Proof.
  rewrite applyNoHardHardRule_eq. simpl.
  rewrite mapAccum_length, sort_length. auto.
Qed.

Lemma applyWeeklyLoadCapRule_frame (plan : WeekPlan) (context : RulesContext) :
  startDate (applyWeeklyLoadCapRule plan context) = startDate plan
  /\ length (sessions (applyWeeklyLoadCapRule plan context))
     = length (sessions plan).
Proof.
  destruct (loadCapFires plan context) eqn:Hf.
  - rewrite (applyWeeklyLoadCapRule_fires _ _ Hf). simpl.
    rewrite length_map. auto.
  - rewrite (applyWeeklyLoadCapRule_idle _ _ Hf). auto.
Qed.

(** C10.  The plan returned by [applyRules] keeps the start date of its
    input and has as many sessions: no rule adds or removes one. *)
Theorem applyRules_frame `{zone : JS.TimeZone}
    (plan : WeekPlan) (context : RulesContext) :
  startDate (applyRules plan context) = startDate plan
  /\ length (sessions (applyRules plan context)) = length (sessions plan).
Proof.
  unfold applyRules.
  set (p0 := {| startDate := startDate plan; sessions := sessions plan;
                warnings := []; appliedRules := [] |}).
  destruct (applySwimRotationRule_frame p0) as [A1 A2].
  destruct (applyReadinessDownshiftRule_frame (applySwimRotationRule p0) context)
    as [B1 B2].
  destruct (applyNoHardHardRule_frame
              (applyReadinessDownshiftRule (applySwimRotationRule p0) context))
    as [C1 C2].
  destruct (applyWeeklyLoadCapRule_frame
              (applyNoHardHardRule
                 (applyReadinessDownshiftRule (applySwimRotationRule p0) context))
              context) as [D1 D2].
  split.
  - rewrite D1, C1, B1, A1. reflexivity.
  - rewrite D2, C2, B2, A2. reflexivity.
Qed.

(** ** The pipeline *)

(** C3.  [applyRules] is the sequential composition: the annotations of the
    input are reset, then SwimRotation, ReadinessDownshift, NoHardHard and
    WeeklyLoadCap run in this order, each on the plan the previous one
    returned. *)
Theorem applyRules_sequential `{zone : JS.TimeZone}
    (plan : WeekPlan) (context : RulesContext) :
  applyRules plan context = applyRulesSequential plan context
  /\ applyRulesSequential plan context
     = applyWeeklyLoadCapRule
         (applyNoHardHardRule
            (applyReadinessDownshiftRule
               (applySwimRotationRule (resetAnnotations plan)) context))
         context
  /\ warnings (resetAnnotations plan) = []
  /\ appliedRules (resetAnnotations plan) = []
  /\ sessions (resetAnnotations plan) = sessions plan
  /\ startDate (resetAnnotations plan) = startDate plan.
Proof.
  repeat split.
Qed.

(** ** No-op paths *)

(** C8.  Without [todayFatigue], or with a readiness above 2,
    ReadinessDownshift returns its plan; with no minutes in the last seven
    days WeeklyLoadCap returns its plan. *)
Theorem absent_context_noop (plan : WeekPlan) (context : RulesContext) :
  (todayFatigue context = None
   \/ (exists f, todayFatigue context = Some f /\ readiness f > 2) ->
   applyReadinessDownshiftRule plan context = plan)
  /\ (totalMinutes (last7dStats context) = 0 ->
      applyWeeklyLoadCapRule plan context = plan).
Proof.
  split.
  - intros [H|[f [H Hr]]]; unfold applyReadinessDownshiftRule; rewrite H.
    + reflexivity.
    + destruct (readiness f >? 2) eqn:E; [reflexivity|lia].
  - intros H. unfold applyWeeklyLoadCapRule. rewrite H. reflexivity.
Qed.

(** ** ReadinessDownshift touches only the start date *)

(** C7.  A session dated on another day than [startDate] is returned by
    ReadinessDownshift as it was, at the same position, whatever the
    context. *)
Theorem readinessDownshift_local (plan : WeekPlan) (context : RulesContext)
    (i : nat) (s : Session) :
  sessions plan !! i = Some s ->
  date s <> startDate plan ->
  sessions (applyReadinessDownshiftRule plan context) !! i = Some s.
Proof.
  intros Hi Hd.
  destruct (todayFatigue context) as [f|] eqn:Hf.
  - destruct (Z_le_gt_dec (readiness f) 2) as [Hr|Hr].
    + rewrite (applyReadinessDownshiftRule_eq plan context f Hf Hr). simpl.
      rewrite list_lookup_fmap, Hi. simpl. f_equal.
      unfold readinessRewrite, readinessTouched.
      apply String.eqb_neq in Hd. rewrite Hd. reflexivity.
    + unfold applyReadinessDownshiftRule. rewrite Hf.
      destruct (readiness f >? 2) eqn:E; [exact Hi|lia].
  - unfold applyReadinessDownshiftRule. rewrite Hf. exact Hi.
Qed.

(** ** SwimRotation is idempotent *)

Lemma isDay_unique (dn : option string) (a b : string) :
  isDay dn a = true -> isDay dn b = true -> a = b.
Proof.
  destruct dn as [n|]; simpl; [|discriminate].
  intros Ha Hb. apply String.eqb_eq in Ha, Hb. congruence.
Qed.

Lemma swimRewrite_settled (x : Session) :
  swimTouched (swimRewrite x) = false.
Proof.
  unfold swimRewrite, swimTouched.
  destruct (bool_decide (sport x = swim)) eqn:Hs.
  - destruct (swimFri x) eqn:Hfri.
    + unfold swimWed, swimFri in *. simpl. rewrite Hs. simpl.
      apply andb_true_iff in Hfri as [Hd _].
      destruct (isDay (dayNameOf (date x)) "Wed") eqn:Hw.
      * pose proof (isDay_unique _ _ _ Hw Hd). discriminate.
      * rewrite andb_false_r. reflexivity.
    + destruct (swimWed x) eqn:Hwed.
      * unfold swimWed, swimFri in *. simpl. rewrite Hs. simpl.
        apply andb_true_iff in Hwed as [Hd _].
        destruct (isDay (dayNameOf (date x)) "Fri") eqn:Hf.
        -- pose proof (isDay_unique _ _ _ Hf Hd). discriminate.
        -- rewrite andb_false_r. reflexivity.
      * rewrite Hs, Hfri, Hwed. reflexivity.
  - rewrite Hs. reflexivity.
Qed.

Lemma swimRewrite_untouched (x : Session) :
  swimTouched x = false -> swimRewrite x = x.
Proof.
  unfold swimTouched, swimRewrite.
  destruct (bool_decide (sport x = swim)); [|reflexivity].
  simpl. intros H. apply orb_false_iff in H as [-> ->]. reflexivity.
Qed.

Lemma existsb_map_false {A : Type} (c : A -> bool) (g : A -> A) (l : list A) :
  (forall x, c (g x) = false) -> existsb c (map g l) = false.
Proof.
  intros H. induction l as [|x l IH]; simpl; [reflexivity|].
  rewrite H, IH. reflexivity.
Qed.

(** C6.  Running SwimRotation on its own output returns that output: no
    session is edited again and no second entry is appended. *)
Theorem swimRotation_idempotent (plan : WeekPlan) :
  applySwimRotationRule (applySwimRotationRule plan) = applySwimRotationRule plan.
Proof.
  rewrite (applySwimRotationRule_eq (applySwimRotationRule plan)).
  rewrite (applySwimRotationRule_eq plan). simpl.
  rewrite (existsb_map_false _ _ _ swimRewrite_settled).
  rewrite map_map.
  rewrite (map_ext _ swimRewrite);
    [|intros x; apply swimRewrite_untouched, swimRewrite_settled].
  reflexivity.
Qed.

(** ** Calendar dates: the string order is the day order *)

Lemma isLeap_cases (y : Z) :
  (JS.isLeap y = true /\ (y mod 4 = 0 /\ y mod 100 <> 0 \/ y mod 400 = 0))
  \/ (JS.isLeap y = false /\ (y mod 4 <> 0 \/ y mod 100 = 0) /\ y mod 400 <> 0).
Proof.
  unfold JS.isLeap.
  destruct (Z.eqb_spec (y mod 4) 0), (Z.eqb_spec (y mod 100) 0),
    (Z.eqb_spec (y mod 400) 0); simpl; tauto.
Qed.

Lemma daysBeforeYear_succ (y : Z) :
  0 <= y -> JS.daysBeforeYear (y + 1) = JS.daysBeforeYear y + yearLength y.
Proof.
  intros Hy. unfold JS.daysBeforeYear, yearLength.
  destruct (isLeap_cases y) as [[-> H]|[-> H]];
    Z.div_mod_to_equations; lia.
Qed.

Lemma daysBeforeYear_mono (y y' : Z) :
  0 <= y <= y' -> JS.daysBeforeYear y <= JS.daysBeforeYear y'.
Proof.
  intros H. unfold JS.daysBeforeYear. Z.div_mod_to_equations. lia.
Qed.

Lemma validYMD_inv (y m d : Z) :
  JS.validYMD y m d = true -> 1 <= m <= 12 /\ 1 <= d <= JS.daysInMonth y m.
Proof.
  unfold JS.validYMD. intros H.
  repeat (apply andb_true_iff in H as [H ?]). lia.
Qed.

Ltac month_cases m :=
  let H := fresh "Hm" in
  assert (H : m = 1 \/ m = 2 \/ m = 3 \/ m = 4 \/ m = 5 \/ m = 6 \/ m = 7
              \/ m = 8 \/ m = 9 \/ m = 10 \/ m = 11 \/ m = 12) by lia;
  repeat (destruct H as [H|H]); subst m.

Lemma dayOfYear_bounds (y m d : Z) :
  JS.validYMD y m d = true ->
  0 <= JS.daysBeforeMonth y m + (d - 1) < yearLength y.
Proof.
  intros H. apply validYMD_inv in H as [Hm Hd].
  unfold yearLength, JS.daysBeforeMonth, JS.daysInMonth in *.
  month_cases m; simpl in *; destruct (JS.isLeap y); lia.
Qed.

Lemma daysBeforeMonth_next (y m m' : Z) :
  1 <= m -> m < m' -> m' <= 12 ->
  JS.daysBeforeMonth y m + JS.daysInMonth y m <= JS.daysBeforeMonth y m'.
Proof.
  intros H1 H2 H3.
  unfold JS.daysBeforeMonth, JS.daysInMonth.
  month_cases m; month_cases m'; try lia; simpl; destruct (JS.isLeap y); lia.
Qed.

Lemma dayNumber_mono (y m d y' m' d' : Z) :
  0 <= y -> 0 <= y' ->
  JS.validYMD y m d = true -> JS.validYMD y' m' d' = true ->
  lexLe (y, m, d) (y', m', d') ->
  JS.dayNumber y m d <= JS.dayNumber y' m' d'.
Proof.
  intros Hy Hy' Hv Hv' Hle. unfold JS.dayNumber.
  pose proof (dayOfYear_bounds _ _ _ Hv) as B.
  pose proof (dayOfYear_bounds _ _ _ Hv') as B'.
  simpl in Hle. destruct Hle as [Hlt|[-> [Hlt|[-> Hd]]]].
  - pose proof (daysBeforeYear_succ y Hy).
    pose proof (daysBeforeYear_mono (y + 1) y'). lia.
  - apply validYMD_inv in Hv as [Hm Hd], Hv' as [Hm' Hd'].
    pose proof (daysBeforeMonth_next y' m m'). lia.
  - lia.
Qed.

Lemma digit_inv (c : ascii) (v : Z) :
  JS.digit c = Some v -> v = Z.of_N (N_of_ascii c) - 48 /\ 0 <= v <= 9.
Proof.
  unfold JS.digit. unfold nat_of_ascii. rewrite N_nat_Z.
  destruct (_ && _) eqn:E; [|discriminate].
  intros [= <-]. apply andb_true_iff in E as [E1 E2]. lia.
Qed.

Lemma digit_compare (c c' : ascii) (v v' : Z) :
  JS.digit c = Some v -> JS.digit c' = Some v' ->
  Ascii.compare c c' = Z.compare v v'.
Proof.
  intros H H'. apply digit_inv in H as [-> _], H' as [-> _].
  unfold Ascii.compare. rewrite <- N2Z.inj_compare.
  rewrite (Z.compare_sub (Z.of_N _ - 48)), (Z.compare_sub (Z.of_N (N_of_ascii c))).
  f_equal. lia.
Qed.

Lemma isHyphen_inv (c : ascii) : JS.isHyphen c = true -> c = "-"%char.
Proof.
  unfold JS.isHyphen. intros H. apply Nat.eqb_eq in H.
  rewrite <- (ascii_nat_embedding c), H. reflexivity.
Qed.

Lemma readYMD_inv (s : string) (y m d : Z) :
  JS.readYMD s = Some (y, m, d) ->
  exists c1 c2 c3 c4 c5 c6 c7 c8 v1 v2 v3 v4 v5 v6 v7 v8,
    s = String c1 (String c2 (String c3 (String c4 (String "-"
          (String c5 (String c6 (String "-"
          (String c7 (String c8 EmptyString)))))))))
    /\ JS.digit c1 = Some v1 /\ JS.digit c2 = Some v2
    /\ JS.digit c3 = Some v3 /\ JS.digit c4 = Some v4
    /\ JS.digit c5 = Some v5 /\ JS.digit c6 = Some v6
    /\ JS.digit c7 = Some v7 /\ JS.digit c8 = Some v8
    /\ y = 1000 * v1 + 100 * v2 + 10 * v3 + v4
    /\ m = 10 * v5 + v6 /\ d = 10 * v7 + v8.
Proof.
  destruct s as [|c1 [|c2 [|c3 [|c4 [|h1 [|c5 [|c6 [|h2 [|c7 [|c8 [|? ?]]]]]]]]]]];
    try discriminate.
  unfold JS.readYMD.
  destruct (JS.digit c1) as [v1|] eqn:E1; [|discriminate].
  destruct (JS.digit c2) as [v2|] eqn:E2; [|discriminate].
  destruct (JS.digit c3) as [v3|] eqn:E3; [|discriminate].
  destruct (JS.digit c4) as [v4|] eqn:E4; [|discriminate].
  destruct (JS.digit c5) as [v5|] eqn:E5; [|discriminate].
  destruct (JS.digit c6) as [v6|] eqn:E6; [|discriminate].
  destruct (JS.digit c7) as [v7|] eqn:E7; [|discriminate].
  destruct (JS.digit c8) as [v8|] eqn:E8; [|discriminate].
  destruct (JS.isHyphen h1) eqn:H1; [|discriminate].
  destruct (JS.isHyphen h2) eqn:H2; [|discriminate].
  simpl. intros [= <- <- <-].
  apply isHyphen_inv in H1, H2. subst h1 h2.
  exists c1, c2, c3, c4, c5, c6, c7, c8, v1, v2, v3, v4, v5, v6, v7, v8.
  repeat split; assumption.
Qed.

Lemma parseDay_inv (s : string) (n : Z) :
  JS.parseDay s = Some n ->
  exists y m d, JS.readYMD s = Some (y, m, d)
    /\ JS.validYMD y m d = true /\ n = JS.dayNumber y m d.
Proof.
  unfold JS.parseDay.
  destruct (JS.readYMD s) as [[[y m] d]|]; [|discriminate].
  destruct (JS.validYMD y m d) eqn:E; [|discriminate].
  intros [= <-]. exists y, m, d. auto.
Qed.

(** The order of the character codes on two well-formed dates is the
    order of the days they denote. *)
Lemma parseDay_lt_compare (a b : string) (n n' : Z) :
  JS.parseDay a = Some n -> JS.parseDay b = Some n' -> n < n' ->
  String.compare a b = Lt.
Proof.
  intros Ha Hb Hlt.
  apply parseDay_inv in Ha as (y & m & d & Ra & Va & ->).
  apply parseDay_inv in Hb as (y' & m' & d' & Rb & Vb & ->).
  apply readYMD_inv in Ra
    as (c1 & c2 & c3 & c4 & c5 & c6 & c7 & c8 & v1 & v2 & v3 & v4 & v5 & v6 & v7 & v8
        & -> & D1 & D2 & D3 & D4 & D5 & D6 & D7 & D8 & Ey & Em & Ed).
  apply readYMD_inv in Rb
    as (e1 & e2 & e3 & e4 & e5 & e6 & e7 & e8 & w1 & w2 & w3 & w4 & w5 & w6 & w7 & w8
        & -> & F1 & F2 & F3 & F4 & F5 & F6 & F7 & F8 & Ey' & Em' & Ed').
  assert (Hnle : ~ lexLe (y', m', d') (y, m, d)).
  { intros Hle.
    pose proof (digit_inv _ _ D1). pose proof (digit_inv _ _ D2).
    pose proof (digit_inv _ _ D3). pose proof (digit_inv _ _ D4).
    pose proof (digit_inv _ _ F1). pose proof (digit_inv _ _ F2).
    pose proof (digit_inv _ _ F3). pose proof (digit_inv _ _ F4).
    assert (JS.dayNumber y' m' d' <= JS.dayNumber y m d)
      by (apply dayNumber_mono; try assumption; lia).
    lia. }
  simpl in Hnle.
  pose proof (digit_inv _ _ D1) as [_ B1]. pose proof (digit_inv _ _ D2) as [_ B2].
  pose proof (digit_inv _ _ D3) as [_ B3]. pose proof (digit_inv _ _ D4) as [_ B4].
  pose proof (digit_inv _ _ D5) as [_ B5]. pose proof (digit_inv _ _ D6) as [_ B6].
  pose proof (digit_inv _ _ D7) as [_ B7]. pose proof (digit_inv _ _ D8) as [_ B8].
  pose proof (digit_inv _ _ F1) as [_ G1]. pose proof (digit_inv _ _ F2) as [_ G2].
  pose proof (digit_inv _ _ F3) as [_ G3]. pose proof (digit_inv _ _ F4) as [_ G4].
  pose proof (digit_inv _ _ F5) as [_ G5]. pose proof (digit_inv _ _ F6) as [_ G6].
  pose proof (digit_inv _ _ F7) as [_ G7]. pose proof (digit_inv _ _ F8) as [_ G8].
  cbn [String.compare].
  rewrite (digit_compare _ _ _ _ D1 F1), (digit_compare _ _ _ _ D2 F2),
    (digit_compare _ _ _ _ D3 F3), (digit_compare _ _ _ _ D4 F4),
    (digit_compare _ _ _ _ D5 F5), (digit_compare _ _ _ _ D6 F6),
    (digit_compare _ _ _ _ D7 F7), (digit_compare _ _ _ _ D8 F8).
  change (Ascii.compare "-" "-") with Eq.
  subst y m d y' m' d'.
  destruct (Z.compare_spec v1 w1); [|reflexivity|exfalso; lia].
  destruct (Z.compare_spec v2 w2); [|reflexivity|exfalso; lia].
  destruct (Z.compare_spec v3 w3); [|reflexivity|exfalso; lia].
  destruct (Z.compare_spec v4 w4); [|reflexivity|exfalso; lia].
  destruct (Z.compare_spec v5 w5); [|reflexivity|exfalso; lia].
  destruct (Z.compare_spec v6 w6); [|reflexivity|exfalso; lia].
  destruct (Z.compare_spec v7 w7); [|reflexivity|exfalso; lia].
  destruct (Z.compare_spec v8 w8); [|reflexivity|exfalso; lia].
  exfalso; lia.
Qed.

(** ** NoHardHard: no two hard sessions on successive days *)

Lemma daysInMonth_le_31 (y m : Z) : JS.daysInMonth y m <= 31.
Proof.
  unfold JS.daysInMonth.
  destruct (m =? 2); [destruct (JS.isLeap y); lia|].
  destruct (_ || _); lia.
Qed.

(** A day of the calendar is read by the [Date] constructor as itself. *)
Lemma parseDay_localDay (s : string) (n : Z) :
  JS.parseDay s = Some n -> JS.localDay s = Some n.
Proof.
  unfold JS.parseDay, JS.localDay.
  destruct (JS.readYMD s) as [[[y m] d]|]; [|discriminate].
  destruct (JS.validYMD y m d) eqn:E; [|discriminate].
  apply validYMD_inv in E as [Hm Hd].
  pose proof (daysInMonth_le_31 y m).
  unfold JS.looseYMD.
  destruct (Z.leb_spec 1 m); [|lia]. destruct (Z.leb_spec m 12); [|lia].
  destruct (Z.leb_spec 1 d); [|lia]. destruct (Z.leb_spec d 31); [|lia].
  cbn [andb]. auto.
Qed.

(** [isNextDay] is the test of two local midnights: the days the two
    strings are read as, each with the offset of its own midnight. *)
Lemma isNextDay_localDay `{zone : JS.TimeZone} (d1 d2 : string) :
  isNextDay d1 d2 = true <->
  exists n1 n2,
    JS.localDay d1 = Some n1 /\ JS.localDay d2 = Some n2
    /\ (n2 * JS.dayInMs - JS.utcOffset n2) - (n1 * JS.dayInMs - JS.utcOffset n1)
       = JS.dayInMs.
Proof.
  unfold isNextDay, JS.midnightTime. split.
  - destruct (JS.localDay d1) as [n1|]; [|discriminate].
    destruct (JS.localDay d2) as [n2|]; [|discriminate].
    intros H. apply Z.eqb_eq in H. eauto.
  - intros (n1 & n2 & -> & -> & H). apply Z.eqb_eq. exact H.
Qed.

(** In a zone that keeps one offset, the day after a day of the calendar
    passes the test. *)
Lemma dayAfter_isNextDay `{zone : JS.TimeZone} (d1 d2 : string) :
  fixedOffset zone -> dayAfter d1 d2 -> isNextDay d1 d2 = true.
Proof.
  intros Hz (n & P1 & P2). apply isNextDay_localDay.
  exists n, (n + 1). rewrite (parseDay_localDay _ _ P1), (parseDay_localDay _ _ P2).
  split; [reflexivity|]. split; [reflexivity|].
  rewrite (Hz (n + 1) n). lia.
Qed.

Lemma isConsecutive_Some `{zone : JS.TimeZone} (p d : string) :
  isConsecutive (Some p) d = isNextDay p d.
Proof.
  unfold isConsecutive. destruct (String.eqb_spec p EmptyString); [|reflexivity].
  subst p. reflexivity.
Qed.

Lemma has_HARD_INTENSITIES_z2 : has HARD_INTENSITIES z2 = false.
Proof. reflexivity. Qed.

Lemma existsb_filter_negb {A : Type} (c : A -> bool) (l : list A) :
  existsb c (List.filter (fun x => negb (c x)) l) = false.
Proof.
  induction l as [|x l IH]; simpl; [reflexivity|].
  destruct (c x) eqn:E; simpl; [exact IH|].
  rewrite E, IH. reflexivity.
Qed.

Lemma downgradeToEasy_not_hard (s : Session) (reason : string) :
  isHardSession (downgradeToEasy s reason) = false.
Proof.
  unfold isHardSession, downgradeToEasy. simpl.
  rewrite has_HARD_INTENSITIES_z2.
  destruct (tags s) as [ts|]; [|reflexivity].
  rewrite (existsb_filter_negb (fun tag => has HARD_TAGS tag)). reflexivity.
Qed.

Lemma noHardHardStep_spec `{zone : JS.TimeZone}
    (x : Session) (m ph : bool) (pd : option string) :
  exists y m',
    noHardHardStep x (m, ph, pd) = (y, (m', isHardSession y, Some (date y)))
    /\ date y = date x
    /\ isConsecutive pd (date x) && ph && isHardSession y = false.
Proof.
  unfold noHardHardStep.
  destruct (isConsecutive pd (date x) && ph && isHardSession x) eqn:E.
  - exists (downgradeToEasy x "No back-to-back hard sessions allowed"), true.
    rewrite downgradeToEasy_not_hard. simpl.
    rewrite andb_false_r. auto.
  - exists x, m. auto.
Qed.

Lemma noHardHard_walk_safe `{zone : JS.TimeZone} (l : list Session) :
  forall m ph pd,
    let out := fst (mapAccum noHardHardStep (m, ph, pd) l) in
    adjacentSafe out = true
    /\ match out with
       | y :: _ => isConsecutive pd (date y) && ph && isHardSession y = false
       | [] => True
       end.
Proof.
  induction l as [|x l IH]; intros m ph pd; cbn zeta; cbn [mapAccum];
    [simpl; auto|].
  destruct (noHardHardStep_spec x m ph pd) as (y & m' & Hs & Hd & Hc).
  rewrite Hs.
  specialize (IH m' (isHardSession y) (Some (date y))). cbn zeta in IH.
  destruct (mapAccum noHardHardStep (m', isHardSession y, Some (date y)) l)
    as [ys t2].
  cbn [fst] in *. destruct IH as [IH1 IH2]. split.
  - destruct ys as [|y' ys]; [reflexivity|].
    rewrite isConsecutive_Some in IH2.
    cbn [adjacentSafe]. rewrite IH2. exact IH1.
  - rewrite Hd. exact Hc.
Qed.

Lemma mapAccum_noHardHard_dates `{zone : JS.TimeZone} (l : list Session) :
  forall t, map date (fst (mapAccum noHardHardStep t l)) = map date l.
Proof.
  induction l as [|x l IH]; intros [[m ph] pd]; cbn [mapAccum];
    [reflexivity|].
  destruct (noHardHardStep_spec x m ph pd) as (y & m' & Hs & Hd & _).
  rewrite Hs. specialize (IH (m', isHardSession y, Some (date y))).
  destruct (mapAccum noHardHardStep _ l) as [ys t2]. simpl in *.
  rewrite Hd, IH. reflexivity.
Qed.

Lemma adjacentSafe_lookup `{zone : JS.TimeZone} (l : list Session) :
  adjacentSafe l = true ->
  forall i a b, l !! i = Some a -> l !! S i = Some b ->
    isNextDay (date a) (date b) && isHardSession a && isHardSession b = false.
Proof.
  induction l as [|x l IH]; intros Hs i a b Ha Hb; [discriminate|].
  destruct l as [|y l]; [destruct i; discriminate|].
  simpl in Hs. apply andb_true_iff in Hs as [H1 H2].
  destruct i as [|i].
  - simpl in Ha, Hb. injection Ha as <-. injection Hb as <-.
    apply negb_true_iff in H1. exact H1.
  - apply (IH H2 i a b); assumption.
Qed.

Lemma adjacentSafe_map `{zone : JS.TimeZone}
    (g : Session -> Session) (l : list Session) :
  (forall x, date (g x) = date x) ->
  (forall x, isHardSession (g x) = isHardSession x) ->
  adjacentSafe (map g l) = adjacentSafe l.
Proof.
  intros Hd Hh. induction l as [|x l IH]; [reflexivity|].
  destruct l as [|y l]; [reflexivity|].
  change (adjacentSafe (map g (x :: y :: l)))
    with (negb (isNextDay (date (g x)) (date (g y))
                && isHardSession (g x) && isHardSession (g y))
          && adjacentSafe (map g (y :: l))).
  rewrite IH, !Hd, !Hh. reflexivity.
Qed.

Lemma loadCapRewrite_date (sf : Q) (x : Session) :
  date (loadCapRewrite sf x) = date x.
Proof.
  unfold loadCapRewrite.
  destruct (_ && _); [|reflexivity]. destruct (negb _); reflexivity.
Qed.

Lemma loadCapRewrite_hard (sf : Q) (x : Session) :
  isHardSession (loadCapRewrite sf x) = isHardSession x.
Proof.
  unfold loadCapRewrite.
  destruct (_ && _); [|reflexivity]. destruct (negb _); reflexivity.
Qed.

(** *** The result is in date order *)

Lemma localeCompare_total (a b : string) :
  JS.localeCompare a b <= 0 \/ JS.localeCompare b a <= 0.
Proof.
  unfold JS.localeCompare. rewrite (String.compare_antisym a b).
  destruct (String.compare b a); simpl; lia.
Qed.

Lemma insertSorted_ordered (x : Session) (l : list Session) :
  dateOrderedFrom l -> dateOrderedFrom (JS.insertSorted byDateAsc x l).
Proof.
  unfold dateOrderedFrom.
  induction l as [|y l IH]; intros Hs; simpl.
  - repeat constructor.
  - destruct (Z.leb_spec (byDateAsc x y) 0) as [Hle|Hgt].
    + constructor; [exact Hs|]. constructor. exact Hle.
    + inversion Hs as [|? ? Hs' Hhd]; subst.
      constructor; [apply IH; exact Hs'|].
      assert (Hyx : byDateAsc y x <= 0).
      { unfold byDateAsc in *.
        destruct (localeCompare_total (date x) (date y)); [lia|assumption]. }
      destruct l as [|z l]; simpl.
      * constructor. exact Hyx.
      * destruct (byDateAsc x z <=? 0); constructor; [exact Hyx|].
        inversion Hhd; assumption.
Qed.

Lemma sort_ordered (l : list Session) :
  dateOrderedFrom (JS.sort byDateAsc l).
Proof.
  induction l as [|x l IH]; simpl.
  - constructor.
  - apply insertSorted_ordered. exact IH.
Qed.

Lemma dateOrderedFrom_lookup (l : list Session) :
  dateOrderedFrom l -> dateOrdered l.
Proof.
  unfold dateOrderedFrom, dateOrdered.
  induction l as [|x l IH]; intros Hs i a b Ha Hb; [discriminate|].
  inversion Hs as [|? ? Hs' Hhd]; subst.
  destruct i as [|i].
  - simpl in Ha. injection Ha as <-.
    destruct l as [|y l]; [discriminate|].
    simpl in Hb. injection Hb as <-. inversion Hhd; assumption.
  - apply (IH Hs' i a b); assumption.
Qed.

Lemma dateOrdered_dates (l1 l2 : list Session) :
  map date l1 = map date l2 -> dateOrdered l1 -> dateOrdered l2.
Proof.
  intros Hm H i a b Ha Hb.
  assert (Hda : map date l2 !! i = Some (date a))
    by (rewrite list_lookup_fmap, Ha; reflexivity).
  assert (Hdb : map date l2 !! S i = Some (date b))
    by (rewrite list_lookup_fmap, Hb; reflexivity).
  rewrite <- Hm in Hda, Hdb. rewrite list_lookup_fmap in Hda, Hdb.
  destruct (l1 !! i) as [a'|] eqn:Ea; [|discriminate].
  destruct (l1 !! S i) as [b'|] eqn:Eb; [|discriminate].
  simpl in Hda, Hdb. injection Hda as Hda. injection Hdb as Hdb.
  pose proof (H i a' b' Ea Eb) as Hle.
  unfold byDateAsc in *. rewrite <- Hda, <- Hdb. exact Hle.
Qed.

Lemma applyNoHardHardRule_safe `{zone : JS.TimeZone} (plan : WeekPlan) :
  adjacentSafe (sessions (applyNoHardHardRule plan)) = true
  /\ dateOrdered (sessions (applyNoHardHardRule plan)).
Proof.
  rewrite applyNoHardHardRule_eq. simpl. split.
  - apply (noHardHard_walk_safe _ false false None).
  - eapply dateOrdered_dates.
    + symmetry. apply mapAccum_noHardHard_dates.
    + apply dateOrderedFrom_lookup, sort_ordered.
Qed.

Lemma applyWeeklyLoadCapRule_safe `{zone : JS.TimeZone}
    (plan : WeekPlan) (context : RulesContext) :
  adjacentSafe (sessions plan) = true /\ dateOrdered (sessions plan) ->
  adjacentSafe (sessions (applyWeeklyLoadCapRule plan context)) = true
  /\ dateOrdered (sessions (applyWeeklyLoadCapRule plan context)).
Proof.
  intros [Hs Ho].
  destruct (loadCapFires plan context) eqn:Hf.
  - rewrite (applyWeeklyLoadCapRule_fires _ _ Hf). simpl. split.
    + rewrite adjacentSafe_map; auto using loadCapRewrite_date, loadCapRewrite_hard.
    + eapply dateOrdered_dates; [|exact Ho].
      rewrite map_map. apply map_ext. intros x.
      symmetry. apply loadCapRewrite_date.
  - rewrite (applyWeeklyLoadCapRule_idle _ _ Hf). auto.
Qed.

(** C1.  In a zone where the clocks change, the invariant is broken at
    the change: with the offsets of central Europe, a hard session on
    Sunday 29 March 2026 and a hard session on the Monday after it come
    back from [applyRules] as they were, both hard and one calendar day
    apart.  The two local midnights are 23 hours apart and [isNextDay]
    asks for 24. *)
Theorem applyRules_clock_change_both_hard :
  sessions (applyRules (zone := centralEurope2026) clockChangeWeekend noHistory)
    = [hardSunday; hardMonday]
  /\ oneDayApart (date hardSunday) (date hardMonday)
  /\ isHardSession hardSunday = true
  /\ isHardSession hardMonday = true
  /\ isNextDay (zone := centralEurope2026) (date hardSunday) (date hardMonday)
     = false.
Proof.
  split; [reflexivity|]. split.
  - left. exists 20541. split; reflexivity.
  - repeat split.
Qed.

(** X27.  In a zone that keeps one offset from UTC, the sessions
    [applyRules] returns are in date order, and no two neighbours in that
    order whose dates are one calendar day apart are both hard. *)
Theorem applyRules_no_hard_hard_fixed_offset `{zone : JS.TimeZone}
    (plan : WeekPlan) (context : RulesContext) :
  fixedOffset zone ->
  dateOrdered (sessions (applyRules plan context))
  /\ forall i a b,
       sessions (applyRules plan context) !! i = Some a ->
       sessions (applyRules plan context) !! S i = Some b ->
       oneDayApart (date a) (date b) ->
       ~ (isHardSession a = true /\ isHardSession b = true).
Proof.
  intros Hz. unfold applyRules.
  match goal with
  | |- context [applyWeeklyLoadCapRule (applyNoHardHardRule ?p) _] =>
      destruct (applyWeeklyLoadCapRule_safe (applyNoHardHardRule p) context
                  (applyNoHardHardRule_safe p)) as [Hs Ho]
  end.
  split; [exact Ho|].
  intros i a b Ha Hb Hday [Hha Hhb].
  pose proof (adjacentSafe_lookup _ Hs i a b Ha Hb) as Hsafe.
  rewrite Hha, Hhb, !andb_true_r in Hsafe.
  destruct Hday as [Hnext|Hprev].
  - apply (dayAfter_isNextDay _ _ Hz) in Hnext. congruence.
  - destruct Hprev as (n & Hb' & Ha').
    pose proof (Ho i a b Ha Hb) as Hle.
    assert (Hlt : String.compare (date b) (date a) = Lt)
      by (apply (parseDay_lt_compare _ _ n (n + 1)); auto; lia).
    unfold byDateAsc, JS.localeCompare in Hle.
    rewrite String.compare_antisym, Hlt in Hle. simpl in Hle. lia.
Qed.

(** ** Three hard days in a row *)

Lemma byDateAsc_lt (a b : Session) :
  String.compare (date a) (date b) = Lt ->
  (byDateAsc a b <=? 0) = true /\ (byDateAsc b a <=? 0) = false.
Proof.
  intros H. unfold byDateAsc, JS.localeCompare.
  rewrite (String.compare_antisym (date b) (date a)), H. auto.
Qed.

Lemma byDateAsc_refl (a : Session) : (byDateAsc a a <=? 0) = true.
Proof.
  unfold byDateAsc, JS.localeCompare.
  pose proof (String.compare_antisym (date a) (date a)) as H.
  destruct (String.compare (date a) (date a)); try reflexivity.
  discriminate.
Qed.

Lemma sort_three (l : list Session) (s1 s2 s3 : Session) :
  Permutation l [s1; s2; s3] ->
  String.compare (date s1) (date s2) = Lt ->
  String.compare (date s2) (date s3) = Lt ->
  String.compare (date s1) (date s3) = Lt ->
  JS.sort byDateAsc l = [s1; s2; s3].
Proof.
  intros Hp H12 H23 H13.
  destruct (byDateAsc_lt _ _ H12) as [A12 A21].
  destruct (byDateAsc_lt _ _ H23) as [A23 A32].
  destruct (byDateAsc_lt _ _ H13) as [A13 A31].
  assert (Hnd : NoDup [s1; s2; s3]).
  { assert (s1 <> s2) by (intros ->; rewrite byDateAsc_refl in A21; discriminate).
    assert (s2 <> s3) by (intros ->; rewrite byDateAsc_refl in A32; discriminate).
    assert (s1 <> s3) by (intros ->; rewrite byDateAsc_refl in A31; discriminate).
    repeat constructor; rewrite ?elem_of_cons, ?elem_of_nil; tauto. }
  pose proof (Permutation_length Hp) as Hlen.
  destruct l as [|a [|b [|c [|? ?]]]]; try discriminate.
  assert (Hnd' : NoDup [a; b; c]) by (rewrite Hp; exact Hnd).
  assert (Ha : a ∈ [s1; s2; s3]) by (rewrite <- Hp; repeat constructor).
  assert (Hb : b ∈ [s1; s2; s3]) by (rewrite <- Hp; repeat constructor).
  assert (Hc : c ∈ [s1; s2; s3]) by (rewrite <- Hp; repeat constructor).
  apply NoDup_cons in Hnd' as [Hab Hnd'].
  apply NoDup_cons in Hnd' as [Hbc _].
  repeat rewrite elem_of_cons in Ha. repeat rewrite elem_of_cons in Hb.
  repeat rewrite elem_of_cons in Hc. repeat rewrite elem_of_cons in Hab.
  repeat rewrite elem_of_cons in Hbc.
  rewrite elem_of_nil in Ha, Hb, Hc.
  destruct Ha as [->|[->|[->|[]]]], Hb as [->|[->|[->|[]]]],
    Hc as [->|[->|[->|[]]]]; try tauto;
    simpl; rewrite ?A12, ?A21, ?A23, ?A32, ?A13, ?A31; simpl;
    rewrite ?A12, ?A21, ?A23, ?A32, ?A13, ?A31; reflexivity.
Qed.

(** C5.  In a zone where the clocks change, three hard days in a row
    around the change are not treated as the scenario says: with the
    offsets of central Europe and hard sessions on 29, 30 and 31 March
    2026, NoHardHard leaves the second day hard, because its midnight is
    23 hours after the first, and downgrades the third. *)
Theorem noHardHard_clock_change_three_days :
  sessions (applyNoHardHardRule (zone := centralEurope2026)
              clockChangeThreeDays)
    = [ hardSunday; hardMonday;
        downgradeToEasy hardTuesday "No back-to-back hard sessions allowed" ]
  /\ dayAfter (date hardSunday) (date hardMonday)
  /\ dayAfter (date hardMonday) (date hardTuesday)
  /\ isHardSession hardSunday = true
  /\ isHardSession hardMonday = true
  /\ isHardSession hardTuesday = true
  /\ intensity (downgradeToEasy hardTuesday
                  "No back-to-back hard sessions allowed") = z2.
Proof.
  split; [reflexivity|].
  split; [exists 20541; split; reflexivity|].
  split; [exists 20542; split; reflexivity|].
  repeat split.
Qed.

(** X28.  In a zone that keeps one offset from UTC, when the sessions of a
    plan are three hard sessions on three successive days, NoHardHard
    returns the first as it was, the second downgraded to z2 and no longer
    hard, and the third as it was. *)
Theorem noHardHard_three_in_a_row_fixed_offset `{zone : JS.TimeZone}
    (plan : WeekPlan) (s1 s2 s3 : Session) :
  fixedOffset zone ->
  Permutation (sessions plan) [s1; s2; s3] ->
  dayAfter (date s1) (date s2) ->
  dayAfter (date s2) (date s3) ->
  isHardSession s1 = true ->
  isHardSession s2 = true ->
  isHardSession s3 = true ->
  let s2' := downgradeToEasy s2 "No back-to-back hard sessions allowed" in
  sessions (applyNoHardHardRule plan) = [s1; s2'; s3]
  /\ intensity s2' = z2
  /\ isHardSession s2' = false.
Proof.
  intros Hz Hp D12 D23 H1 H2 H3 s2'.
  split; [|split; [reflexivity|apply downgradeToEasy_not_hard]].
  pose proof D12 as (n & P1 & P2). pose proof D23 as (n' & P2' & P3).
  assert (n' = n + 1) by congruence. subst n'.
  assert (C12 : String.compare (date s1) (date s2) = Lt)
    by (apply (parseDay_lt_compare _ _ _ _ P1 P2); lia).
  assert (C23 : String.compare (date s2) (date s3) = Lt)
    by (apply (parseDay_lt_compare _ _ _ _ P2 P3); lia).
  assert (C13 : String.compare (date s1) (date s3) = Lt)
    by (apply (parseDay_lt_compare _ _ _ _ P1 P3); lia).
  rewrite applyNoHardHardRule_eq. cbn [sessions].
  rewrite (sort_three _ _ _ _ Hp C12 C23 C13).
  apply (dayAfter_isNextDay _ _ Hz) in D12, D23.
  cbn [mapAccum]. unfold noHardHardStep at 1. cbn [isConsecutive andb].
  unfold noHardHardStep at 1. rewrite isConsecutive_Some, D12, H1, H2.
  cbn [andb]. unfold noHardHardStep at 1.
  rewrite isConsecutive_Some, D23. cbn [andb fst]. reflexivity.
Qed.

(** ** WeeklyLoadCap: the arithmetic *)

Lemma Math_round_frac (a : Z) (p : positive) :
  JS.Math_round (a # p) = (2 * a + Z.pos p) / (2 * Z.pos p).
Proof.
  unfold JS.Math_round, Qplus, Qfloor. simpl.
  f_equal; lia.
Qed.

Lemma maxAllowedOf_eq (t : Z) : maxAllowedOf t = (11 * t + 5) / 10.
Proof.
  unfold maxAllowedOf, Qmult, inject_Z. simpl.
  rewrite Math_round_frac. Z.div_mod_to_equations. lia.
Qed.

Lemma scaled_round (d c p : Z) :
  0 < p ->
  JS.Math_round (inject_Z d * (inject_Z c / inject_Z p)) = (2 * d * c + p) / (2 * p).
Proof.
  intros Hp. destruct p as [|pp|pp]; try lia.
  unfold Qdiv, Qinv, Qmult, inject_Z. simpl.
  rewrite Math_round_frac. f_equal; lia.
Qed.

Lemma scaledDuration_eq (d c p : Z) :
  0 < p ->
  scaledDuration (inject_Z c / inject_Z p) d = Z.max 30 ((2 * d * c + p) / (2 * p)).
Proof.
  intros Hp. unfold scaledDuration. rewrite scaled_round by exact Hp. reflexivity.
Qed.

Lemma loadCapRewrite_sport (sf : Q) (x : Session) :
  sport (loadCapRewrite sf x) = sport x.
Proof.
  unfold loadCapRewrite.
  destruct (_ && _); [|reflexivity]. destruct (negb _); reflexivity.
Qed.

Lemma loadCapRewrite_duration (sf : Q) (x : Session) :
  sport x <> rest -> durationMin x > 0 ->
  durationMin (loadCapRewrite sf x) = scaledDuration sf (durationMin x).
Proof.
  intros Hs Hd. unfold loadCapRewrite.
  rewrite (bool_decide_eq_false_2 _ Hs). simpl.
  destruct (Z.gtb_spec (durationMin x) 0); [|lia].
  destruct (Z.eqb_spec (scaledDuration sf (durationMin x)) (durationMin x));
    simpl; congruence.
Qed.

Lemma loadCapRewrite_idle (sf : Q) (x : Session) :
  sport x = rest \/ durationMin x <= 0 -> loadCapRewrite sf x = x.
Proof.
  intros H. unfold loadCapRewrite.
  destruct H as [H|H].
  - rewrite (bool_decide_eq_true_2 _ H). reflexivity.
  - destruct (Z.gtb_spec (durationMin x) 0); [lia|].
    rewrite andb_false_r. reflexivity.
Qed.

Lemma loadCapFires_intro (plan : WeekPlan) (context : RulesContext) :
  totalMinutes (last7dStats context) > 0 ->
  plannedMinutesOf (sessions plan) > maxAllowedOf (totalMinutes (last7dStats context)) ->
  loadCapFires plan context = true
  /\ 0 <= maxAllowedOf (totalMinutes (last7dStats context))
       < plannedMinutesOf (sessions plan).
Proof.
  intros Ht Hp. unfold loadCapFires.
  rewrite maxAllowedOf_eq in *.
  destruct (Z.eqb_spec (totalMinutes (last7dStats context)) 0); [lia|].
  destruct (Z.leb_spec (plannedMinutesOf (sessions plan))
              ((11 * totalMinutes (last7dStats context) + 5) / 10)); [lia|].
  split; [reflexivity|].
  split; [|lia]. apply Z.div_pos; lia.
Qed.

(** C9.  When WeeklyLoadCap fires, a non-rest session of positive duration
    ends with at least 30 minutes; one that had fewer than 30 ends with
    exactly 30, more than it had. *)
Theorem loadCap_floor (plan : WeekPlan) (context : RulesContext)
    (i : nat) (s : Session) :
  totalMinutes (last7dStats context) > 0 ->
  plannedMinutesOf (sessions plan) > maxAllowedOf (totalMinutes (last7dStats context)) ->
  sessions plan !! i = Some s ->
  sport s <> rest ->
  durationMin s > 0 ->
  exists s',
    sessions (applyWeeklyLoadCapRule plan context) !! i = Some s'
    /\ 30 <= durationMin s'
    /\ (durationMin s < 30 ->
        durationMin s' = 30 /\ durationMin s < durationMin s').
Proof.
  intros Ht Hp Hi Hs Hd.
  destruct (loadCapFires_intro plan context Ht Hp) as [Hf [Hc0 Hcp]].
  rewrite (applyWeeklyLoadCapRule_fires _ _ Hf). cbn [sessions].
  exists (loadCapRewrite (scaleFactorOf plan context) s).
  rewrite list_lookup_fmap, Hi. split; [reflexivity|].
  rewrite (loadCapRewrite_duration _ _ Hs Hd).
  unfold scaleFactorOf. rewrite scaledDuration_eq by lia.
  split; [lia|]. intros Hlt.
  set (c := maxAllowedOf (totalMinutes (last7dStats context))) in *.
  set (p := plannedMinutesOf (sessions plan)) in *.
  assert (Hr : (2 * durationMin s * c + p) / (2 * p) < 31).
  { apply Z.div_lt_upper_bound; [lia|]. nia. }
  lia.
Qed.

(** ** WeeklyLoadCap: the bound on the capped minutes *)

Lemma fold_left_duration (l : list Session) :
  forall acc, fold_left (fun sum s => sum + durationMin s) l acc
              = acc + totalDuration l.
Proof.
  induction l as [|x l IH]; intros acc; simpl; [lia|].
  rewrite IH. unfold totalDuration. simpl. lia.
Qed.

Lemma plannedMinutesOf_total (l : list Session) :
  plannedMinutesOf l = totalDuration l.
Proof.
  unfold plannedMinutesOf. rewrite fold_left_duration. lia.
Qed.

Lemma nonRest_map_loadCap (sf : Q) (l : list Session) :
  nonRest (map (loadCapRewrite sf) l) = map (loadCapRewrite sf) (nonRest l).
Proof.
  unfold nonRest. induction l as [|x l IH]; simpl; [reflexivity|].
  rewrite loadCapRewrite_sport, IH.
  destruct (negb (bool_decide (sport x = rest))); reflexivity.
Qed.

Lemma nonRest_total_le (l : list Session) :
  (forall s, s ∈ l -> 0 <= durationMin s) ->
  totalDuration (nonRest l) <= totalDuration l.
Proof.
  unfold nonRest, totalDuration.
  induction l as [|x l IH]; intros Hnn; simpl; [lia|].
  assert (0 <= durationMin x) by (apply Hnn; left).
  assert (IH' : foldr (fun s acc => durationMin s + acc) 0
                  (List.filter (fun s => negb (bool_decide (sport s = rest))) l)
                <= foldr (fun s acc => durationMin s + acc) 0 l)
    by (apply IH; intros s Hs; apply Hnn; right; exact Hs).
  destruct (negb (bool_decide (sport x = rest))); simpl; lia.
Qed.

Lemma nonRest_sport (l : list Session) (s : Session) :
  s ∈ nonRest l -> s ∈ l /\ sport s <> rest.
Proof.
  unfold nonRest. rewrite !list_elem_of_In, filter_In, negb_true_iff.
  intros [H1 H2]. split; [exact H1|].
  apply bool_decide_eq_false in H2. exact H2.
Qed.

(** One session: its capped minutes, scaled back by the planned total, are
    within thirty planned totals of its share of the cap. *)
Lemma loadCapRewrite_share (c p : Z) (x : Session) :
  0 <= c -> 0 < p -> sport x <> rest -> 0 <= durationMin x ->
  p * durationMin (loadCapRewrite (inject_Z c / inject_Z p) x)
    <= c * durationMin x + 30 * p.
Proof.
  intros Hc Hp Hs Hd.
  destruct (Z.eq_dec (durationMin x) 0) as [H0|H0].
  - rewrite loadCapRewrite_idle by (right; lia). nia.
  - rewrite loadCapRewrite_duration by (auto; lia).
    rewrite scaledDuration_eq by exact Hp.
    pose proof (Z.mul_div_le (2 * durationMin x * c + p) (2 * p)) as Hr.
    destruct (Z.max_spec 30 ((2 * durationMin x * c + p) / (2 * p)))
      as [[_ ->]|[_ ->]]; nia.
Qed.

Lemma loadCap_shares (c p : Z) (l : list Session) :
  0 <= c -> 0 < p ->
  (forall s, s ∈ l -> sport s <> rest /\ 0 <= durationMin s) ->
  p * totalDuration (map (loadCapRewrite (inject_Z c / inject_Z p)) l)
    <= c * totalDuration l + 30 * p * Z.of_nat (length l).
Proof.
  intros Hc Hp. unfold totalDuration.
  induction l as [|x l IH]; intros Hl; [simpl; lia|].
  destruct (Hl x) as [Hs Hd]; [left|].
  pose proof (loadCapRewrite_share c p x Hc Hp Hs Hd) as Hx.
  assert (IH' : p * foldr (fun s acc => durationMin s + acc) 0
                      (map (loadCapRewrite (inject_Z c / inject_Z p)) l)
                <= c * foldr (fun s acc => durationMin s + acc) 0 l
                   + 30 * p * Z.of_nat (length l))
    by (apply IH; intros s Hin; apply Hl; right; exact Hin).
  cbn [map foldr length]. rewrite Nat2Z.inj_succ. nia.
Qed.

(** C2, as the engine has it.  When WeeklyLoadCap fires on a plan whose
    durations are not negative, the minutes of the non-rest sessions are
    at most the cap plus thirty minutes for each non-rest session. *)
Theorem loadCap_bound (plan : WeekPlan) (context : RulesContext) :
  let lastWeekMinutes := totalMinutes (last7dStats context) in
  let out := nonRest (sessions (applyWeeklyLoadCapRule plan context)) in
  lastWeekMinutes > 0 ->
  plannedMinutesOf (sessions plan) > maxAllowedOf lastWeekMinutes ->
  (forall s, s ∈ sessions plan -> 0 <= durationMin s) ->
  totalDuration out
    <= maxAllowedOf lastWeekMinutes + 30 * Z.of_nat (length out).
Proof.
  intros t out Ht Hp Hnn. subst t out.
  destruct (loadCapFires_intro plan context Ht Hp) as [Hf [Hc0 Hcp]].
  rewrite (applyWeeklyLoadCapRule_fires _ _ Hf). cbn [sessions].
  rewrite nonRest_map_loadCap, length_map. unfold scaleFactorOf.
  set (c := maxAllowedOf (totalMinutes (last7dStats context))) in *.
  set (p := plannedMinutesOf (sessions plan)) in *.
  assert (Hsh : p * totalDuration
                      (map (loadCapRewrite (inject_Z c / inject_Z p))
                         (nonRest (sessions plan)))
                <= c * totalDuration (nonRest (sessions plan))
                   + 30 * p * Z.of_nat (length (nonRest (sessions plan)))).
  { apply loadCap_shares; [lia|lia|].
    intros s Hs. apply nonRest_sport in Hs as [Hin Hsp]. auto. }
  pose proof (nonRest_total_le _ Hnn) as Hle.
  assert (Hpt : totalDuration (sessions plan) = p)
    by (symmetry; apply plannedMinutesOf_total).
  rewrite Hpt in Hle. nia.
Qed.

(** C2, as stated.  The bound with the maximum in place of the sum does
    not hold: a 40-minute and a 960-minute session against 50 minutes of history are
    capped to 30 and 53 minutes, which is more than both 55 and 60. *)
Lemma loadCap_max_bound_fails : ~ loadCapMaxBound shortAndLong lowHistory.
Proof.
  unfold loadCapMaxBound. vm_compute. intros H.
  apply H; reflexivity.
Qed.

Example shortAndLong_capped :
  map durationMin (sessions (applyWeeklyLoadCapRule shortAndLong lowHistory))
    = [30; 53]
  /\ maxAllowedOf (totalMinutes (last7dStats lowHistory)) = 55.
Proof. split; reflexivity. Qed.

(** ** The audit trail *)

Lemma push_neq {A : Type} (l : list A) (x : A) : JS.push l x <> l.
Proof.
  unfold JS.push. intros H. apply (f_equal (@length A)) in H.
  rewrite length_app in H. simpl in H. lia.
Qed.

Lemma logsEntry_push (before after : WeekPlan) (entry : string) :
  appliedRules after = JS.push (appliedRules before) entry ->
  logsEntry before after.
Proof. intros H. exists entry. exact H. Qed.

Lemma logsEntry_same (before after : WeekPlan) :
  appliedRules after = appliedRules before -> ~ logsEntry before after.
Proof.
  intros H [entry He]. rewrite H in He. symmetry in He.
  exact (push_neq _ _ He).
Qed.

Lemma map_changed_iff (g : Session -> Session) (c : Session -> bool)
    (l : list Session) :
  (forall x, c x = true -> g x <> x) ->
  (forall x, c x = false -> g x = x) ->
  existsb c l = true <-> map g l <> l.
Proof.
  intros Hc Hn. induction l as [|x l IH]; simpl.
  - split; [discriminate|congruence].
  - destruct (c x) eqn:E; simpl.
    + split; [|reflexivity]. intros _ H. injection H as H _.
      exact (Hc x E H).
    + rewrite (Hn x E), IH. split.
      * intros H H'. injection H' as H'. exact (H H').
      * intros H H'. apply H. rewrite H'. reflexivity.
Qed.

Lemma swimRewrite_touched (x : Session) :
  swimTouched x = true -> swimRewrite x <> x.
Proof.
  intros Ht He. pose proof (swimRewrite_settled x) as Hs.
  rewrite He in Hs. congruence.
Qed.

Lemma readinessRewrite_touched (todayStr : string) (r : Z) (x : Session) :
  readinessTouched todayStr x = true -> readinessRewrite todayStr r x <> x.
Proof.
  intros Ht He. unfold readinessRewrite in He. rewrite Ht in He.
  unfold readinessTouched in Ht. apply andb_true_iff in Ht as [_ Hh].
  pose proof (downgradeToEasy_not_hard x
                ("Low readiness (" ++ JS.numToString r ++ "/5)")) as Hd.
  rewrite He in Hd. congruence.
Qed.

Lemma readinessRewrite_untouched (todayStr : string) (r : Z) (x : Session) :
  readinessTouched todayStr x = false -> readinessRewrite todayStr r x = x.
Proof.
  intros Ht. unfold readinessRewrite. rewrite Ht. reflexivity.
Qed.

Lemma noHardHard_modified_iff `{zone : JS.TimeZone} (l : list Session) :
  forall m ph pd,
    let r := mapAccum noHardHardStep (m, ph, pd) l in
    fst (fst (snd r)) = true <-> (m = true \/ fst r <> l).
Proof.
  induction l as [|x l IH]; intros m ph pd; cbn zeta; cbn [mapAccum].
  - simpl. split; [auto|]. intros [H|H]; [exact H|congruence].
  - destruct (isConsecutive pd (date x) && ph && isHardSession x) eqn:E.
    + assert (Hstep : noHardHardStep x (m, ph, pd)
                      = (downgradeToEasy x "No back-to-back hard sessions allowed",
                         (true, false, Some (date x))))
        by (unfold noHardHardStep; rewrite E; reflexivity).
      rewrite Hstep.
      specialize (IH true false (Some (date x))). cbn zeta in IH.
      destruct (mapAccum noHardHardStep (true, false, Some (date x)) l)
        as [ys [[m2 ph2] pd2]].
      cbn [fst snd] in *. split.
      * intros _. right. intros H. injection H as H _.
        apply andb_true_iff in E as [_ Hh].
        pose proof (downgradeToEasy_not_hard x
                      "No back-to-back hard sessions allowed") as Hd.
        rewrite H in Hd. congruence.
      * intros _. apply IH. left. reflexivity.
    + assert (Hstep : noHardHardStep x (m, ph, pd)
                      = (x, (m, isHardSession x, Some (date x))))
        by (unfold noHardHardStep; rewrite E; reflexivity).
      rewrite Hstep.
      specialize (IH m (isHardSession x) (Some (date x))). cbn zeta in IH.
      destruct (mapAccum noHardHardStep (m, isHardSession x, Some (date x)) l)
        as [ys [[m2 ph2] pd2]].
      cbn [fst snd] in *. rewrite IH. split.
      * intros [H|H]; [left; exact H|]. right. intros H'.
        injection H' as H'. exact (H H').
      * intros [H|H]; [left; exact H|]. right. intros H'.
        apply H. rewrite H'. reflexivity.
Qed.

(** C4, as the engine has it.  SwimRotation, ReadinessDownshift and
    NoHardHard append an entry to [appliedRules] exactly when they changed
    a session (for NoHardHard, compared with the sessions sorted by date),
    and leave [appliedRules] alone otherwise.  WeeklyLoadCap appends its
    entry exactly when it fires, that is with history present and the
    planned minutes above the cap; a session it changed implies that it
    fired. *)
Theorem appliedRules_entries `{zone : JS.TimeZone}
    (plan : WeekPlan) (context : RulesContext) :
  entryIffChanged plan (applySwimRotationRule plan) (sessions plan)
  /\ entryIffChanged plan (applyReadinessDownshiftRule plan context) (sessions plan)
  /\ entryIffChanged plan (applyNoHardHardRule plan)
       (JS.sort byDateAsc (sessions plan))
  /\ (logsEntry plan (applyWeeklyLoadCapRule plan context)
      <-> loadCapFires plan context = true)
  /\ (sessions (applyWeeklyLoadCapRule plan context) <> sessions plan ->
      logsEntry plan (applyWeeklyLoadCapRule plan context))
  /\ (~ logsEntry plan (applySwimRotationRule plan) ->
      appliedRules (applySwimRotationRule plan) = appliedRules plan)
  /\ (~ logsEntry plan (applyReadinessDownshiftRule plan context) ->
      appliedRules (applyReadinessDownshiftRule plan context) = appliedRules plan)
  /\ (~ logsEntry plan (applyNoHardHardRule plan) ->
      appliedRules (applyNoHardHardRule plan) = appliedRules plan)
  /\ (~ logsEntry plan (applyWeeklyLoadCapRule plan context) ->
      appliedRules (applyWeeklyLoadCapRule plan context) = appliedRules plan).
Proof.
  assert (Swim : entryIffChanged plan (applySwimRotationRule plan) (sessions plan)
                 /\ (~ logsEntry plan (applySwimRotationRule plan) ->
                     appliedRules (applySwimRotationRule plan) = appliedRules plan)).
  { unfold entryIffChanged. rewrite applySwimRotationRule_eq.
    pose proof (map_changed_iff swimRewrite swimTouched (sessions plan)
                  swimRewrite_touched swimRewrite_untouched) as Hiff.
    destruct (existsb swimTouched (sessions plan)) eqn:E.
    - split; [|intros H; exfalso; apply H; eapply logsEntry_push; reflexivity].
      split; [intros _; apply Hiff; reflexivity|].
      intros _. eapply logsEntry_push. reflexivity.
    - split; [|reflexivity]. split.
      + intros H. exfalso. revert H. apply logsEntry_same. reflexivity.
      + intros H. apply Hiff in H. discriminate. }
  assert (Ready : entryIffChanged plan (applyReadinessDownshiftRule plan context)
                    (sessions plan)
                  /\ (~ logsEntry plan (applyReadinessDownshiftRule plan context) ->
                      appliedRules (applyReadinessDownshiftRule plan context)
                      = appliedRules plan)).
  { assert (Hidle : applyReadinessDownshiftRule plan context = plan ->
                    entryIffChanged plan (applyReadinessDownshiftRule plan context)
                      (sessions plan)
                    /\ (~ logsEntry plan (applyReadinessDownshiftRule plan context) ->
                        appliedRules (applyReadinessDownshiftRule plan context)
                        = appliedRules plan)).
    { intros ->. split; [|reflexivity]. split.
      - intros H. exfalso. revert H. apply logsEntry_same. reflexivity.
      - intros H. congruence. }
    destruct (todayFatigue context) as [f|] eqn:Hf;
      [|apply Hidle; unfold applyReadinessDownshiftRule; rewrite Hf; reflexivity].
    destruct (Z_le_gt_dec (readiness f) 2) as [Hr|Hr];
      [|apply Hidle; unfold applyReadinessDownshiftRule; rewrite Hf;
        destruct (readiness f >? 2) eqn:E; [reflexivity|lia]].
    unfold entryIffChanged.
    rewrite (applyReadinessDownshiftRule_eq plan context f Hf Hr).
    pose proof (map_changed_iff (readinessRewrite (startDate plan) (readiness f))
                  (readinessTouched (startDate plan)) (sessions plan)
                  (readinessRewrite_touched _ _) (readinessRewrite_untouched _ _))
      as Hiff.
    destruct (existsb (readinessTouched (startDate plan)) (sessions plan)) eqn:E.
    - split; [|intros H; exfalso; apply H; eapply logsEntry_push; reflexivity].
      split; [intros _; apply Hiff; reflexivity|].
      intros _. eapply logsEntry_push. reflexivity.
    - split; [|reflexivity]. split.
      + intros H. exfalso. revert H. apply logsEntry_same. reflexivity.
      + intros H. apply Hiff in H. discriminate. }
  assert (Hard : entryIffChanged plan (applyNoHardHardRule plan)
                   (JS.sort byDateAsc (sessions plan))
                 /\ (~ logsEntry plan (applyNoHardHardRule plan) ->
                     appliedRules (applyNoHardHardRule plan) = appliedRules plan)).
  { unfold entryIffChanged. rewrite applyNoHardHardRule_eq. cbn zeta.
    pose proof (noHardHard_modified_iff (JS.sort byDateAsc (sessions plan))
                  false false None) as Hiff. cbn zeta in Hiff.
    destruct (mapAccum noHardHardStep (false, false, None)
                (JS.sort byDateAsc (sessions plan))) as [ys [[m ph] pd]].
    cbn [fst snd sessions appliedRules] in *.
    destruct m.
    - split; [|intros H; exfalso; apply H; eapply logsEntry_push; reflexivity].
      split.
      + intros _. destruct Hiff as [Hiff _].
        destruct (Hiff eq_refl) as [H|H]; [discriminate|exact H].
      + intros _. eapply logsEntry_push. reflexivity.
    - split; [|reflexivity]. split.
      + intros H. exfalso. revert H. apply logsEntry_same. reflexivity.
      + intros H. destruct Hiff as [_ Hiff].
        assert (false = true) by (apply Hiff; right; exact H). discriminate. }
  assert (Cap : (logsEntry plan (applyWeeklyLoadCapRule plan context)
                 <-> loadCapFires plan context = true)
                /\ (sessions (applyWeeklyLoadCapRule plan context) <> sessions plan ->
                    logsEntry plan (applyWeeklyLoadCapRule plan context))
                /\ (~ logsEntry plan (applyWeeklyLoadCapRule plan context) ->
                    appliedRules (applyWeeklyLoadCapRule plan context)
                    = appliedRules plan)).
  { destruct (loadCapFires plan context) eqn:Hf.
    - rewrite (applyWeeklyLoadCapRule_fires _ _ Hf).
      assert (L : logsEntry plan
                    {| startDate := startDate plan;
                       sessions := map (loadCapRewrite (scaleFactorOf plan context))
                                     (sessions plan);
                       warnings := JS.push (warnings plan)
                         (loadCapWarning (totalMinutes (last7dStats context))
                            (maxAllowedOf (totalMinutes (last7dStats context))));
                       appliedRules := JS.push (appliedRules plan)
                         (loadCapEntry (plannedMinutesOf (sessions plan))
                            (maxAllowedOf (totalMinutes (last7dStats context)))) |})
        by (eapply logsEntry_push; reflexivity).
      split; [tauto|]. split; [auto|]. intros H. exfalso. exact (H L).
    - rewrite (applyWeeklyLoadCapRule_idle _ _ Hf).
      split; [|split; [congruence|reflexivity]].
      split; [|discriminate].
      intros H. exfalso. revert H. apply logsEntry_same. reflexivity. }
  tauto.
Qed.

(** C4, as stated.  The entry of WeeklyLoadCap is not tied to a change: a
    single 30-minute
    session against 10 minutes of history exceeds the cap of 11, stays at
    30 minutes, and the entry is appended all the same. *)
Lemma loadCap_entry_without_change :
  ~ entryIffChanged singleHalfHour
      (applyWeeklyLoadCapRule singleHalfHour tinyHistory)
      (sessions singleHalfHour).
Proof.
  unfold entryIffChanged. intros [H _].
  apply H; [|reflexivity].
  eapply logsEntry_push. reflexivity.
Qed.

(** ** The theorems at sample plans *)

(** A Wednesday swim tagged for intervals and a Friday swim tagged for
    technique are both rewritten, under one entry. *)
Example swappedSwims_applied :
  map (fun s => (title s, tags s, intensity s))
      (sessions (applyRules (zone := utc) swappedSwims noHistory))
    = [ ("Swim Technique", Some ["technique"], z4);
        ("Swim Intervals", Some ["intervals"], z4) ]
  /\ appliedRules (applyRules (zone := utc) swappedSwims noHistory)
     = [swimRotationEntry].
Proof. split; reflexivity. Qed.

(** Three sessions of 100 minutes against 200 minutes of history: the cap
    is 220 and each session becomes 73 minutes. *)
Example threeHundred_applied :
  map durationMin
      (sessions (applyRules (zone := utc) threeHundred twoHundredLastWeek))
    = [73; 73; 73]
  /\ maxAllowedOf 200 = 220
  /\ length (warnings
               (applyRules (zone := utc) threeHundred twoHundredLastWeek))
     = 1%nat
  /\ length (appliedRules
               (applyRules (zone := utc) threeHundred twoHundredLastWeek))
     = 1%nat.
Proof. repeat split. Qed.

(** The walk compares list neighbours only.  With two hard sessions on the
    day after a hard day, the first is downgraded; the second is compared
    with the first, which lies on the same day, and stays hard. *)
Example doubleWednesday_applied :
  map isHardSession
      (sessions (applyRules (zone := utc) doubleWednesday noHistory))
    = [true; false; true]
  /\ map date (sessions (applyRules (zone := utc) doubleWednesday noHistory))
    = ["2026-02-10"; "2026-02-11"; "2026-02-11"].
Proof. split; reflexivity. Qed.

Example backToBack_applied :
  map intensity (sessions (applyRules (zone := utc) backToBack noHistory))
    = [z5; z2]
  /\ warnings (applyRules (zone := utc) backToBack noHistory)
     = [noHardHardWarning]
  /\ appliedRules (applyRules (zone := utc) backToBack noHistory)
     = [noHardHardEntry].
Proof. repeat split. Qed.

Lemma applyRules_no_hard_hard_fixed_offset_witness :
  fixedOffset utc
  /\ sessions (applyRules (zone := utc) backToBack noHistory) !! 0%nat
     = Some vo2Tuesday
  /\ oneDayApart (date vo2Tuesday) (date intervalsWednesday)
  /\ ~ (isHardSession vo2Tuesday = true
        /\ isHardSession
             (downgradeToEasy intervalsWednesday
                "No back-to-back hard sessions allowed") = true).
Proof.
  split; [intros n m; reflexivity|].
  split; [reflexivity|]. split.
  - left. exists 20494. split; reflexivity.
  - apply (proj2 (applyRules_no_hard_hard_fixed_offset (zone := utc)
                    backToBack noHistory (fun n m => eq_refl)) 0%nat).
    + reflexivity.
    + reflexivity.
    + left. exists 20494. split; reflexivity.
Defined.

Lemma loadCap_bound_witness :
  totalMinutes (last7dStats lowHistory) > 0
  /\ plannedMinutesOf (sessions shortAndLong)
     > maxAllowedOf (totalMinutes (last7dStats lowHistory))
  /\ totalDuration (nonRest (sessions (applyWeeklyLoadCapRule shortAndLong lowHistory)))
     <= maxAllowedOf (totalMinutes (last7dStats lowHistory))
        + 30 * Z.of_nat (length (nonRest (sessions
                           (applyWeeklyLoadCapRule shortAndLong lowHistory)))).
Proof.
  split; [reflexivity|]. split; [reflexivity|].
  apply (loadCap_bound shortAndLong lowHistory).
  - reflexivity.
  - reflexivity.
  - intros s Hs. cbn [sessions shortAndLong] in Hs.
    repeat (apply elem_of_cons in Hs as [->|Hs]); [simpl; lia|simpl; lia|].
    apply elem_of_nil in Hs. destruct Hs.
Defined.

Lemma appliedRules_entries_witness :
  sessions (applyNoHardHardRule (zone := utc) backToBack)
    <> JS.sort byDateAsc (sessions backToBack)
  /\ logsEntry backToBack (applyNoHardHardRule (zone := utc) backToBack).
Proof.
  assert (H : sessions (applyNoHardHardRule (zone := utc) backToBack)
              <> JS.sort byDateAsc (sessions backToBack))
    by (vm_compute; discriminate).
  split; [exact H|].
  destruct (appliedRules_entries (zone := utc) backToBack noHistory)
    as (_ & _ & Hard & _).
  apply Hard. exact H.
Defined.

Lemma noHardHard_three_in_a_row_fixed_offset_witness :
  sessions (applyNoHardHardRule (zone := utc) threeHard)
    = [ vo2Tuesday;
        downgradeToEasy intervalsWednesday "No back-to-back hard sessions allowed";
        hardThursday ]
  /\ intensity (downgradeToEasy intervalsWednesday
                  "No back-to-back hard sessions allowed") = z2
  /\ isHardSession (downgradeToEasy intervalsWednesday
                      "No back-to-back hard sessions allowed") = false.
Proof.
  apply (noHardHard_three_in_a_row_fixed_offset (zone := utc) threeHard
           vo2Tuesday intervalsWednesday hardThursday).
  - intros n m. reflexivity.
  - apply perm_swap.
  - exists 20494. split; reflexivity.
  - exists 20495. split; reflexivity.
  - reflexivity.
  - reflexivity.
  - reflexivity.
Defined.

Lemma readinessDownshift_local_witness :
  sessions backToBack !! 1%nat = Some intervalsWednesday
  /\ date intervalsWednesday <> startDate backToBack
  /\ isHardSession intervalsWednesday = true
  /\ sessions (applyReadinessDownshiftRule backToBack exhausted) !! 1%nat
     = Some intervalsWednesday.
Proof.
  split; [reflexivity|]. split; [discriminate|]. split; [reflexivity|].
  apply (readinessDownshift_local backToBack exhausted 1%nat intervalsWednesday).
  - reflexivity.
  - discriminate.
Defined.

Lemma absent_context_noop_witness :
  todayFatigue noHistory = None
  /\ totalMinutes (last7dStats noHistory) = 0
  /\ applyReadinessDownshiftRule backToBack noHistory = backToBack
  /\ applyWeeklyLoadCapRule backToBack noHistory = backToBack.
Proof.
  split; [reflexivity|]. split; [reflexivity|].
  destruct (absent_context_noop backToBack noHistory) as [Hr Hc].
  split.
  - apply Hr. left. reflexivity.
  - apply Hc. reflexivity.
Defined.

Lemma loadCap_floor_witness :
  exists s',
    sessions (applyWeeklyLoadCapRule briefAndLong lowHistory) !! 0%nat = Some s'
    /\ 30 <= durationMin s'
    /\ (20 < 30 -> durationMin s' = 30 /\ 20 < durationMin s').
Proof.
  apply (loadCap_floor briefAndLong lowHistory 0%nat
           (mkSession "2026-02-10" bike "Bike" 20 z2 None None)).
  - reflexivity.
  - reflexivity.
  - reflexivity.
  - discriminate.
  - reflexivity.
Defined.

(** ** Further properties of the session helpers and of the rules *)

(** X1.  A downgraded session is never hard: its intensity is z2, its tags
    are the tags it had except [vo2] and [threshold], and its date, sport
    and duration are those it had. *)
Theorem downgradeToEasy_post (s : Session) (reason : string) :
  let s' := downgradeToEasy s reason in
  isHardSession s' = false
  /\ intensity s' = z2
  /\ date s' = date s /\ sport s' = sport s /\ durationMin s' = durationMin s
  /\ (forall tag, tag ∈ tagList s'
        <-> tag ∈ tagList s /\ tag <> "vo2" /\ tag <> "threshold")
  /\ (tags s' = None <-> tags s = None).
Proof.
  intros s'. subst s'.
  split; [apply downgradeToEasy_not_hard|].
  repeat (split; [reflexivity|]).
  unfold tagList, downgradeToEasy. cbn [tags]. split.
  - intros tag. destruct (tags s) as [ts|].
    + rewrite !list_elem_of_In, filter_In, negb_true_iff.
      unfold has, HARD_TAGS. rewrite bool_decide_eq_false.
      rewrite elem_of_union, !elem_of_singleton. tauto.
    + rewrite elem_of_nil. tauto.
  - destruct (tags s); split; congruence.
Qed.

Lemma prefix_push {A : Type} (l : list A) (x : A) : l `prefix_of` JS.push l x.
Proof. exists [x]. reflexivity. Qed.

Lemma prefix_if_push {A : Type} (b : bool) (l : list A) (x : A) :
  l `prefix_of` (if b then JS.push l x else l).
Proof. destruct b; [apply prefix_push|reflexivity]. Qed.

Lemma applyReadinessDownshiftRule_cases (plan : WeekPlan) (context : RulesContext) :
  applyReadinessDownshiftRule plan context = plan
  \/ exists f, todayFatigue context = Some f /\ readiness f <= 2.
Proof.
  unfold applyReadinessDownshiftRule.
  destruct (todayFatigue context) as [f|]; [|left; reflexivity].
  destruct (readiness f >? 2) eqn:E; [left; reflexivity|].
  right. exists f. split; [reflexivity|lia].
Qed.

(** X2.  Each rule only appends to [warnings] and to [appliedRules]: what
    the plan carried on entry is a prefix of what it carries on exit. *)
Theorem rules_append_only `{zone : JS.TimeZone}
    (plan : WeekPlan) (context : RulesContext) :
  (warnings plan `prefix_of` warnings (applySwimRotationRule plan)
   /\ appliedRules plan `prefix_of` appliedRules (applySwimRotationRule plan))
  /\ (warnings plan `prefix_of` warnings (applyReadinessDownshiftRule plan context)
      /\ appliedRules plan
           `prefix_of` appliedRules (applyReadinessDownshiftRule plan context))
  /\ (warnings plan `prefix_of` warnings (applyNoHardHardRule plan)
      /\ appliedRules plan `prefix_of` appliedRules (applyNoHardHardRule plan))
  /\ (warnings plan `prefix_of` warnings (applyWeeklyLoadCapRule plan context)
      /\ appliedRules plan
           `prefix_of` appliedRules (applyWeeklyLoadCapRule plan context)).
Proof.
  split; [|split; [|split]].
  - rewrite applySwimRotationRule_eq. cbn [warnings appliedRules].
    split; [reflexivity|apply prefix_if_push].
  - destruct (applyReadinessDownshiftRule_cases plan context)
      as [->|(f & Hf & Hr)]; [split; reflexivity|].
    rewrite (applyReadinessDownshiftRule_eq plan context f Hf Hr).
    cbn [warnings appliedRules]. split; apply prefix_if_push.
  - rewrite applyNoHardHardRule_eq. cbn [warnings appliedRules].
    split; apply prefix_if_push.
  - destruct (loadCapFires plan context) eqn:Hf.
    + rewrite (applyWeeklyLoadCapRule_fires _ _ Hf). cbn [warnings appliedRules].
      split; apply prefix_push.
    + rewrite (applyWeeklyLoadCapRule_idle _ _ Hf). split; reflexivity.
Qed.

Lemma annotationGrowth_same (plan : WeekPlan) : annotationGrowth plan plan.
Proof. exists 0%nat, 0%nat. repeat split; lia. Qed.

Lemma annotationGrowth_if (before after : WeekPlan) (bw br : bool) (w r : string) :
  (bw = true -> br = true) ->
  warnings after = (if bw then JS.push (warnings before) w else warnings before) ->
  appliedRules after
    = (if br then JS.push (appliedRules before) r else appliedRules before) ->
  annotationGrowth before after.
Proof.
  intros Hb Hw Hr. exists (if bw then 1 else 0)%nat, (if br then 1 else 0)%nat.
  rewrite Hw, Hr. unfold JS.push.
  destruct bw, br; rewrite ?length_app; simpl;
    try (specialize (Hb eq_refl); discriminate); repeat split; lia.
Qed.

Lemma rules_annotationGrowth `{zone : JS.TimeZone}
    (plan : WeekPlan) (context : RulesContext) :
  annotationGrowth plan (applySwimRotationRule plan)
  /\ annotationGrowth plan (applyReadinessDownshiftRule plan context)
  /\ annotationGrowth plan (applyNoHardHardRule plan)
  /\ annotationGrowth plan (applyWeeklyLoadCapRule plan context).
Proof.
  split; [|split; [|split]].
  - rewrite applySwimRotationRule_eq.
    eapply (annotationGrowth_if _ _ false _ EmptyString);
      [discriminate|reflexivity|reflexivity].
  - destruct (applyReadinessDownshiftRule_cases plan context)
      as [->|(f & Hf & Hr)]; [apply annotationGrowth_same|].
    rewrite (applyReadinessDownshiftRule_eq plan context f Hf Hr).
    eapply annotationGrowth_if; [|reflexivity|reflexivity]. auto.
  - rewrite applyNoHardHardRule_eq.
    eapply annotationGrowth_if; [|reflexivity|reflexivity]. auto.
  - destruct (loadCapFires plan context) eqn:Hf.
    + rewrite (applyWeeklyLoadCapRule_fires _ _ Hf).
      eapply (annotationGrowth_if _ _ true true); [auto|reflexivity|reflexivity].
    + rewrite (applyWeeklyLoadCapRule_idle _ _ Hf). apply annotationGrowth_same.
Qed.

(** X3.  Whatever annotations the input carries, the plan [applyRules]
    returns has at most four applied rules and no more warnings than
    applied rules. *)
Theorem applyRules_annotation_count `{zone : JS.TimeZone}
    (plan : WeekPlan) (context : RulesContext) :
  (length (warnings (applyRules plan context))
     <= length (appliedRules (applyRules plan context)) <= 4)%nat.
Proof.
  unfold applyRules.
  set (p0 := {| startDate := startDate plan; sessions := sessions plan;
                warnings := []; appliedRules := [] |}).
  destruct (rules_annotationGrowth p0 context) as ((a1 & b1 & H1 & W1 & R1) & _).
  set (p1 := applySwimRotationRule p0) in *.
  destruct (rules_annotationGrowth p1 context)
    as (_ & (a2 & b2 & H2 & W2 & R2) & _).
  set (p2 := applyReadinessDownshiftRule p1 context) in *.
  destruct (rules_annotationGrowth p2 context)
    as (_ & _ & (a3 & b3 & H3 & W3 & R3) & _).
  set (p3 := applyNoHardHardRule p2) in *.
  destruct (rules_annotationGrowth p3 context)
    as (_ & _ & _ & (a4 & b4 & H4 & W4 & R4)).
  assert (W0 : length (warnings p0) = 0%nat) by reflexivity.
  assert (R0 : length (appliedRules p0) = 0%nat) by reflexivity.
  lia.
Qed.

(** *** SwimRotation *)

Lemma isDay_Some (dn : option string) (name : string) :
  isDay dn name = true <-> dn = Some name.
Proof.
  destruct dn as [n|]; simpl.
  - rewrite String.eqb_eq. split; congruence.
  - split; discriminate.
Qed.

Lemma swimRewrite_frame (x : Session) :
  date (swimRewrite x) = date x
  /\ sport (swimRewrite x) = sport x
  /\ durationMin (swimRewrite x) = durationMin x.
Proof.
  unfold swimRewrite.
  destruct (bool_decide (sport x = swim)); [|auto].
  destruct (swimFri x); [auto|]. destruct (swimWed x); auto.
Qed.

(** X4.  After SwimRotation every swim session that falls on a Wednesday
    carries the tag [technique], and every swim session that falls on a
    Friday carries the tag [intervals]. *)
Theorem swimRotation_post (plan : WeekPlan) (i : nat) (s' : Session) :
  sessions (applySwimRotationRule plan) !! i = Some s' ->
  sport s' = swim ->
  (dayNameOf (date s') = Some "Wed" -> includes (tags s') "technique" = true)
  /\ (dayNameOf (date s') = Some "Fri" -> includes (tags s') "intervals" = true).
Proof.
  rewrite applySwimRotationRule_eq. cbn [sessions].
  rewrite list_lookup_fmap. intros Hl Hs.
  destruct (sessions plan !! i) as [x|]; [|discriminate].
  injection Hl as <-.
  pose proof (swimRewrite_settled x) as Hset.
  unfold swimTouched in Hset.
  rewrite (bool_decide_eq_true_2 _ Hs) in Hset. cbn [andb] in Hset.
  apply orb_false_iff in Hset as [Hw Hf].
  unfold swimWed in Hw. unfold swimFri in Hf. split; intros Hd.
  - apply isDay_Some in Hd. rewrite Hd in Hw. cbn [andb] in Hw.
    apply negb_false_iff in Hw. exact Hw.
  - apply isDay_Some in Hd. rewrite Hd in Hf. cbn [andb] in Hf.
    apply negb_false_iff in Hf. exact Hf.
Qed.

Lemma swimRotation_post_witness :
  exists s',
    sessions (applySwimRotationRule swappedSwims) !! 0%nat = Some s'
    /\ sport s' = swim
    /\ dayNameOf (date s') = Some "Wed"
    /\ includes (tags s') "technique" = true.
Proof.
  eexists. split; [reflexivity|]. split; [reflexivity|]. split; [reflexivity|].
  eapply (swimRotation_post swappedSwims 0%nat); reflexivity.
Defined.

(** X5.  SwimRotation keeps every session in its slot with its date, sport
    and duration, adds no warning, and returns a session as it was when it
    is not a swim, when its day is neither Wednesday nor Friday, or when it
    already carries the tag of its day. *)
Theorem swimRotation_frame (plan : WeekPlan) (i : nat) (s : Session) :
  sessions plan !! i = Some s ->
  warnings (applySwimRotationRule plan) = warnings plan
  /\ exists s',
      sessions (applySwimRotationRule plan) !! i = Some s'
      /\ date s' = date s /\ sport s' = sport s
      /\ durationMin s' = durationMin s
      /\ (sport s <> swim
          \/ (dayNameOf (date s) <> Some "Wed" /\ dayNameOf (date s) <> Some "Fri")
          \/ (dayNameOf (date s) = Some "Wed"
              /\ includes (tags s) "technique" = true)
          \/ (dayNameOf (date s) = Some "Fri"
              /\ includes (tags s) "intervals" = true) ->
          s' = s).
Proof.
  intros Hi. rewrite applySwimRotationRule_eq. cbn [sessions warnings].
  split; [reflexivity|].
  exists (swimRewrite s). rewrite list_lookup_fmap, Hi.
  split; [reflexivity|].
  destruct (swimRewrite_frame s) as (Hd & Hs & Hm).
  repeat (split; [assumption|]).
  intros H. apply swimRewrite_untouched. unfold swimTouched, swimWed, swimFri.
  destruct H as [H|[[Hw Hf]|[[Hw Ht]|[Hf Ht]]]].
  - rewrite (bool_decide_eq_false_2 _ H). reflexivity.
  - destruct (isDay (dayNameOf (date s)) "Wed") eqn:Ew;
      [apply isDay_Some in Ew; contradiction|].
    destruct (isDay (dayNameOf (date s)) "Fri") eqn:Ef;
      [apply isDay_Some in Ef; contradiction|].
    rewrite andb_false_r. reflexivity.
  - rewrite Hw, Ht. cbn. rewrite andb_false_r. reflexivity.
  - rewrite Hf, Ht. cbn. rewrite andb_false_r. reflexivity.
Qed.

Lemma swimRotation_frame_witness :
  warnings (applySwimRotationRule backToBack) = warnings backToBack
  /\ exists s',
      sessions (applySwimRotationRule backToBack) !! 1%nat = Some s'
      /\ date s' = date intervalsWednesday /\ sport s' = sport intervalsWednesday
      /\ durationMin s' = durationMin intervalsWednesday
      /\ (sport intervalsWednesday <> swim
          \/ (dayNameOf (date intervalsWednesday) <> Some "Wed"
              /\ dayNameOf (date intervalsWednesday) <> Some "Fri")
          \/ (dayNameOf (date intervalsWednesday) = Some "Wed"
              /\ includes (tags intervalsWednesday) "technique" = true)
          \/ (dayNameOf (date intervalsWednesday) = Some "Fri"
              /\ includes (tags intervalsWednesday) "intervals" = true) ->
          s' = intervalsWednesday).
Proof.
  apply (swimRotation_frame backToBack 1%nat intervalsWednesday). reflexivity.
Defined.

(** *** ReadinessDownshift *)

Lemma readinessRewrite_settled (todayStr : string) (r : Z) (x : Session) :
  readinessTouched todayStr (readinessRewrite todayStr r x) = false.
Proof.
  unfold readinessRewrite.
  destruct (readinessTouched todayStr x) eqn:E; [|exact E].
  unfold readinessTouched. rewrite downgradeToEasy_not_hard.
  apply andb_false_r.
Qed.

(** X6.  With a readiness of 2 or less, no session dated on the start date
    is hard after ReadinessDownshift. *)
Theorem readinessDownshift_post (plan : WeekPlan) (context : RulesContext)
    (f : Fatigue) (i : nat) (s' : Session) :
  todayFatigue context = Some f ->
  readiness f <= 2 ->
  sessions (applyReadinessDownshiftRule plan context) !! i = Some s' ->
  date s' = startDate plan ->
  isHardSession s' = false.
Proof.
  intros Hf Hr. rewrite (applyReadinessDownshiftRule_eq plan context f Hf Hr).
  cbn [sessions]. rewrite list_lookup_fmap. intros Hl Hd.
  destruct (sessions plan !! i) as [x|]; [|discriminate].
  injection Hl as <-.
  pose proof (readinessRewrite_settled (startDate plan) (readiness f) x) as Hs.
  unfold readinessTouched in Hs. rewrite Hd, String.eqb_refl in Hs.
  exact Hs.
Qed.

Lemma readinessDownshift_post_witness :
  todayFatigue exhausted = Some {| readiness := 1; sleepScore := None |}
  /\ 1 <= 2
  /\ isHardSession vo2Tuesday = true
  /\ sessions (applyReadinessDownshiftRule backToBack exhausted) !! 0%nat
     = Some (downgradeToEasy vo2Tuesday "Low readiness (1/5)")
  /\ isHardSession (downgradeToEasy vo2Tuesday "Low readiness (1/5)") = false.
Proof.
  split; [reflexivity|]. split; [lia|]. split; [reflexivity|].
  split; [reflexivity|].
  apply (readinessDownshift_post backToBack exhausted
           {| readiness := 1; sleepScore := None |} 0%nat).
  - reflexivity.
  - simpl. lia.
  - reflexivity.
  - reflexivity.
Defined.

(** X7.  ReadinessDownshift is idempotent: run on its own output with the
    same context it returns that output, with no second warning. *)
Theorem readinessDownshift_idempotent (plan : WeekPlan) (context : RulesContext) :
  applyReadinessDownshiftRule (applyReadinessDownshiftRule plan context) context
  = applyReadinessDownshiftRule plan context.
Proof.
  destruct (applyReadinessDownshiftRule_cases plan context)
    as [H|(f & Hf & Hr)]; [rewrite !H; reflexivity|].
  rewrite (applyReadinessDownshiftRule_eq _ context f Hf Hr).
  rewrite (applyReadinessDownshiftRule_eq plan context f Hf Hr).
  cbn [startDate sessions warnings appliedRules].
  rewrite (existsb_map_false _ _ _ (readinessRewrite_settled _ _)).
  rewrite map_map.
  rewrite (map_ext _ (readinessRewrite (startDate plan) (readiness f)));
    [reflexivity|].
  intros x. apply readinessRewrite_untouched, readinessRewrite_settled.
Qed.

(** *** NoHardHard *)

Lemma sort_ordered_id (l : list Session) :
  dateOrderedFrom l -> JS.sort byDateAsc l = l.
Proof.
  unfold dateOrderedFrom.
  induction l as [|x l IH]; intros Hs; [reflexivity|].
  inversion Hs as [|? ? Hs' Hhd]; subst.
  cbn [JS.sort]. rewrite (IH Hs').
  destruct l as [|y l]; [reflexivity|].
  inversion Hhd as [|? ? Hxy]; subst.
  cbn [JS.insertSorted].
  destruct (Z.leb_spec (byDateAsc x y) 0); [reflexivity|lia].
Qed.

Lemma dateOrdered_from (l : list Session) :
  dateOrdered l -> dateOrderedFrom l.
Proof.
  unfold dateOrdered, dateOrderedFrom.
  induction l as [|x l IH]; intros H; [constructor|].
  constructor.
  - apply IH. intros i a b Ha Hb. exact (H (S i) a b Ha Hb).
  - destruct l as [|y l]; constructor.
    exact (H 0%nat x y eq_refl eq_refl).
Qed.

Lemma adjacentSafe_intro `{zone : JS.TimeZone} (l : list Session) :
  (forall i a b, l !! i = Some a -> l !! S i = Some b ->
     isNextDay (date a) (date b) = true ->
     ~ (isHardSession a = true /\ isHardSession b = true)) ->
  adjacentSafe l = true.
Proof.
  induction l as [|x l IH]; intros H; [reflexivity|].
  destruct l as [|y l]; [reflexivity|].
  cbn [adjacentSafe]. apply andb_true_iff. split.
  - apply negb_true_iff.
    destruct (isNextDay (date x) (date y)) eqn:En; [|reflexivity].
    destruct (isHardSession x) eqn:Hx; [|reflexivity].
    destruct (isHardSession y) eqn:Hy; [|reflexivity].
    exfalso. apply (H 0%nat x y eq_refl eq_refl).
    + exact En.
    + auto.
  - apply IH. intros i a b Ha Hb. exact (H (S i) a b Ha Hb).
Qed.

Lemma noHardHard_walk_idle `{zone : JS.TimeZone} (l : list Session) :
  forall m ph pd,
    adjacentSafe l = true ->
    match l with
    | x :: _ => isConsecutive pd (date x) && ph && isHardSession x = false
    | [] => True
    end ->
    exists ph' pd', mapAccum noHardHardStep (m, ph, pd) l = (l, (m, ph', pd')).
Proof.
  induction l as [|x l IH]; intros m ph pd Hs Hh; cbn [mapAccum].
  - eauto.
  - assert (Hstep : noHardHardStep x (m, ph, pd)
                    = (x, (m, isHardSession x, Some (date x))))
      by (unfold noHardHardStep; rewrite Hh; reflexivity).
    rewrite Hstep.
    destruct (IH m (isHardSession x) (Some (date x))) as (ph' & pd' & Hr).
    + destruct l as [|y l]; [reflexivity|].
      cbn [adjacentSafe] in Hs. apply andb_true_iff in Hs as [_ Hs]. exact Hs.
    + destruct l as [|y l]; [exact I|].
      cbn [adjacentSafe] in Hs. apply andb_true_iff in Hs as [Hs _].
      apply negb_true_iff in Hs. rewrite isConsecutive_Some. exact Hs.
    + rewrite Hr. eauto.
Qed.

Lemma applyNoHardHardRule_fixed `{zone : JS.TimeZone} (plan : WeekPlan) :
  dateOrdered (sessions plan) ->
  adjacentSafe (sessions plan) = true ->
  applyNoHardHardRule plan = plan.
Proof.
  intros Ho Hs. rewrite applyNoHardHardRule_eq. cbn zeta.
  rewrite (sort_ordered_id _ (dateOrdered_from _ Ho)).
  destruct (noHardHard_walk_idle (sessions plan) false false None Hs)
    as (ph' & pd' & Hr).
  { destruct (sessions plan); [exact I|reflexivity]. }
  rewrite Hr. cbn [fst snd]. destruct plan; reflexivity.
Qed.

(** X8.  A plan whose sessions are in date order and in which no two
    neighbours that pass the rule's own next-day test, [isNextDay], are
    both hard is returned by NoHardHard as it is: no session, warning or
    applied rule changes. *)
Theorem noHardHard_noop_on_safe `{zone : JS.TimeZone} (plan : WeekPlan) :
  dateOrdered (sessions plan) ->
  (forall i a b,
     sessions plan !! i = Some a -> sessions plan !! S i = Some b ->
     isNextDay (date a) (date b) = true ->
     ~ (isHardSession a = true /\ isHardSession b = true)) ->
  applyNoHardHardRule plan = plan.
Proof.
  intros Ho Hs. apply applyNoHardHardRule_fixed; [exact Ho|].
  apply adjacentSafe_intro. exact Hs.
Qed.

Lemma noHardHard_noop_on_safe_witness :
  applyNoHardHardRule (zone := utc) threeHundred = threeHundred.
Proof.
  apply (noHardHard_noop_on_safe (zone := utc) threeHundred).
  - intros i a b Ha Hb.
    destruct i as [|[|[|i]]]; try discriminate;
      cbn in Ha, Hb; injection Ha as <-; injection Hb as <-;
      vm_compute; discriminate.
  - intros i a b Ha Hb _ [Hha Hhb].
    destruct i as [|[|[|i]]]; try discriminate;
      cbn in Ha, Hb; injection Ha as <-; injection Hb as <-;
      vm_compute in Hha, Hhb; discriminate.
Defined.

(** X9.  NoHardHard is idempotent: a second run sorts nothing, downgrades
    nothing and appends nothing. *)
Theorem noHardHard_idempotent `{zone : JS.TimeZone} (plan : WeekPlan) :
  applyNoHardHardRule (applyNoHardHardRule plan) = applyNoHardHardRule plan.
Proof.
  destruct (applyNoHardHardRule_safe plan) as [Hs Ho].
  apply applyNoHardHardRule_fixed; assumption.
Qed.

Lemma noHardHard_walk_kept `{zone : JS.TimeZone} (l : list Session) :
  forall t, Forall2 keptOrDowngraded l (fst (mapAccum noHardHardStep t l)).
Proof.
  induction l as [|x l IH]; intros [[m ph] pd]; cbn [mapAccum]; [constructor|].
  destruct (isConsecutive pd (date x) && ph && isHardSession x) eqn:E.
  - assert (Hstep : noHardHardStep x (m, ph, pd)
                    = (downgradeToEasy x "No back-to-back hard sessions allowed",
                       (true, false, Some (date x))))
      by (unfold noHardHardStep; rewrite E; reflexivity).
    rewrite Hstep. specialize (IH (true, false, Some (date x))).
    destruct (mapAccum noHardHardStep _ l) as [ys t2]. cbn [fst] in *.
    constructor; [|exact IH]. right.
    apply andb_true_iff in E as [_ E]. auto.
  - assert (Hstep : noHardHardStep x (m, ph, pd)
                    = (x, (m, isHardSession x, Some (date x))))
      by (unfold noHardHardStep; rewrite E; reflexivity).
    rewrite Hstep. specialize (IH (m, isHardSession x, Some (date x))).
    destruct (mapAccum noHardHardStep _ l) as [ys t2]. cbn [fst] in *.
    constructor; [|exact IH]. left. reflexivity.
Qed.

(** X10.  NoHardHard writes into each slot of the date-sorted sessions
    either the session that was there or, if that session was hard, its
    downgrade; a session that is not hard is never touched, and neither is
    the first session of the sorted list. *)
Theorem noHardHard_pointwise `{zone : JS.TimeZone}
    (plan : WeekPlan) (i : nat) (s : Session) :
  JS.sort byDateAsc (sessions plan) !! i = Some s ->
  exists s',
    sessions (applyNoHardHardRule plan) !! i = Some s'
    /\ keptOrDowngraded s s'
    /\ (isHardSession s = false \/ i = 0%nat -> s' = s).
Proof.
  intros Hi. rewrite applyNoHardHardRule_eq. cbn [sessions].
  pose proof (noHardHard_walk_kept (JS.sort byDateAsc (sessions plan))
                (false, false, None)) as Hall.
  destruct (Forall2_lookup_l _ _ _ _ _ Hall Hi) as (s' & Hs' & Hk).
  exists s'. split; [exact Hs'|]. split; [exact Hk|].
  intros [Hn|Hz].
  - destruct Hk as [Hk|[Hh _]]; [exact Hk|congruence].
  - subst i. destruct (JS.sort byDateAsc (sessions plan)) as [|x l]; [discriminate|].
    cbn in Hi. injection Hi as ->.
    cbn [mapAccum] in Hs'.
    assert (Hstep : noHardHardStep s (false, false, None)
                    = (s, (false, isHardSession s, Some (date s))))
      by reflexivity.
    rewrite Hstep in Hs'.
    destruct (mapAccum noHardHardStep _ l) as [ys t2].
    cbn in Hs'. congruence.
Qed.

Lemma noHardHard_pointwise_witness :
  exists s',
    sessions (applyNoHardHardRule (zone := utc) threeHard) !! 0%nat = Some s'
    /\ keptOrDowngraded vo2Tuesday s'
    /\ (isHardSession vo2Tuesday = false \/ 0%nat = 0%nat -> s' = vo2Tuesday).
Proof.
  apply (noHardHard_pointwise (zone := utc) threeHard 0%nat vo2Tuesday).
  reflexivity.
Defined.

(** *** The pipeline as a whole *)

Lemma insertSorted_perm {A : Type} (cmp : A -> A -> Z) (x : A) (l : list A) :
  Permutation (x :: l) (JS.insertSorted cmp x l).
Proof.
  induction l as [|y l IH]; cbn [JS.insertSorted]; [reflexivity|].
  destruct (cmp x y <=? 0); [reflexivity|].
  rewrite perm_swap. constructor. exact IH.
Qed.

Lemma sort_perm {A : Type} (cmp : A -> A -> Z) (l : list A) :
  Permutation l (JS.sort cmp l).
Proof.
  induction l as [|x l IH]; cbn [JS.sort]; [reflexivity|].
  rewrite <- insertSorted_perm. constructor. exact IH.
Qed.

Lemma keptOrDowngraded_key (s s' : Session) :
  keptOrDowngraded s s' -> sessionKey s' = sessionKey s.
Proof. intros [->|[_ ->]]; reflexivity. Qed.

Lemma Forall2_map_key (l l' : list Session) :
  Forall2 keptOrDowngraded l l' -> map sessionKey l' = map sessionKey l.
Proof.
  induction 1 as [|x y l l' Hxy _ IH]; [reflexivity|].
  cbn [map]. rewrite IH, (keptOrDowngraded_key _ _ Hxy). reflexivity.
Qed.

Lemma applySwimRotationRule_keys (plan : WeekPlan) :
  map sessionKey (sessions (applySwimRotationRule plan))
  = map sessionKey (sessions plan).
Proof.
  rewrite applySwimRotationRule_eq. cbn [sessions]. rewrite map_map.
  apply map_ext. intros x. unfold sessionKey.
  destruct (swimRewrite_frame x) as (-> & -> & _). reflexivity.
Qed.

Lemma applyReadinessDownshiftRule_keys (plan : WeekPlan) (context : RulesContext) :
  map sessionKey (sessions (applyReadinessDownshiftRule plan context))
  = map sessionKey (sessions plan).
Proof.
  destruct (applyReadinessDownshiftRule_cases plan context)
    as [->|(f & Hf & Hr)]; [reflexivity|].
  rewrite (applyReadinessDownshiftRule_eq plan context f Hf Hr).
  cbn [sessions]. rewrite map_map. apply map_ext. intros x.
  unfold readinessRewrite. destruct (readinessTouched _ x); reflexivity.
Qed.

Lemma applyNoHardHardRule_keys `{zone : JS.TimeZone} (plan : WeekPlan) :
  Permutation (map sessionKey (sessions plan))
    (map sessionKey (sessions (applyNoHardHardRule plan))).
Proof.
  rewrite applyNoHardHardRule_eq. cbn [sessions].
  rewrite (Forall2_map_key _ _ (noHardHard_walk_kept _ _)).
  apply Permutation_map, sort_perm.
Qed.

Lemma applyWeeklyLoadCapRule_keys (plan : WeekPlan) (context : RulesContext) :
  map sessionKey (sessions (applyWeeklyLoadCapRule plan context))
  = map sessionKey (sessions plan).
Proof.
  destruct (loadCapFires plan context) eqn:Hf.
  - rewrite (applyWeeklyLoadCapRule_fires _ _ Hf). cbn [sessions].
    rewrite map_map. apply map_ext. intros x. unfold sessionKey.
    rewrite loadCapRewrite_date, loadCapRewrite_sport. reflexivity.
  - rewrite (applyWeeklyLoadCapRule_idle _ _ Hf). reflexivity.
Qed.

(** X11.  [applyRules] moves sessions but never changes the day or the
    sport of one: the (date, sport) pairs of the result are a permutation
    of those of the input. *)
Theorem applyRules_keeps_days_and_sports `{zone : JS.TimeZone}
    (plan : WeekPlan) (context : RulesContext) :
  Permutation (map sessionKey (sessions plan))
    (map sessionKey (sessions (applyRules plan context))).
Proof.
  unfold applyRules.
  rewrite applyWeeklyLoadCapRule_keys, <- applyNoHardHardRule_keys,
    applyReadinessDownshiftRule_keys, applySwimRotationRule_keys.
  reflexivity.
Qed.

(** X12.  In the plan [applyRules] returns, a session with a valid date is
    never followed by a session with an earlier valid date: the order of
    the date strings is the order of the days. *)
Theorem applyRules_chronological `{zone : JS.TimeZone}
    (plan : WeekPlan) (context : RulesContext)
    (i : nat) (a b : Session) (na nb : Z) :
  sessions (applyRules plan context) !! i = Some a ->
  sessions (applyRules plan context) !! S i = Some b ->
  JS.parseDay (date a) = Some na ->
  JS.parseDay (date b) = Some nb ->
  na <= nb.
Proof.
  unfold applyRules.
  match goal with
  | |- context [applyWeeklyLoadCapRule (applyNoHardHardRule ?p) _] =>
      destruct (applyWeeklyLoadCapRule_safe (applyNoHardHardRule p) context
                  (applyNoHardHardRule_safe p)) as [_ Ho]
  end.
  intros Ha Hb Pa Pb.
  destruct (Z_le_gt_dec na nb) as [Hle|Hgt]; [exact Hle|].
  pose proof (Ho i a b Ha Hb) as Hord.
  assert (Hlt : String.compare (date b) (date a) = Lt)
    by (apply (parseDay_lt_compare _ _ nb na); auto; lia).
  unfold byDateAsc, JS.localeCompare in Hord.
  rewrite String.compare_antisym, Hlt in Hord. simpl in Hord. lia.
Qed.

Lemma applyRules_chronological_witness :
  sessions (applyRules (zone := utc) threeHard noHistory) !! 0%nat
    = Some vo2Tuesday
  /\ JS.parseDay (date vo2Tuesday) = Some 20494
  /\ JS.parseDay (date intervalsWednesday) = Some 20495
  /\ 20494 <= 20495.
Proof.
  split; [reflexivity|]. split; [reflexivity|]. split; [reflexivity|].
  apply (applyRules_chronological (zone := utc) threeHard noHistory 0%nat
           vo2Tuesday
           (downgradeToEasy intervalsWednesday
              "No back-to-back hard sessions allowed")); reflexivity.
Defined.

(** *** WeeklyLoadCap *)

(** X13.  WeeklyLoadCap keeps every session in its slot with its date,
    sport, title, intensity and tags; a rest session and a session without
    positive duration are returned as they were. *)
Theorem loadCap_frame (plan : WeekPlan) (context : RulesContext)
    (i : nat) (s : Session) :
  sessions plan !! i = Some s ->
  exists s',
    sessions (applyWeeklyLoadCapRule plan context) !! i = Some s'
    /\ date s' = date s /\ sport s' = sport s /\ title s' = title s
    /\ intensity s' = intensity s /\ tags s' = tags s
    /\ (sport s = rest \/ durationMin s <= 0 -> s' = s).
Proof.
  intros Hi.
  destruct (loadCapFires plan context) eqn:Hf.
  - rewrite (applyWeeklyLoadCapRule_fires _ _ Hf). cbn [sessions].
    exists (loadCapRewrite (scaleFactorOf plan context) s).
    rewrite list_lookup_fmap, Hi. split; [reflexivity|].
    split; [apply loadCapRewrite_date|].
    split; [apply loadCapRewrite_sport|].
    assert (Hrest : title (loadCapRewrite (scaleFactorOf plan context) s) = title s
                    /\ intensity (loadCapRewrite (scaleFactorOf plan context) s)
                       = intensity s
                    /\ tags (loadCapRewrite (scaleFactorOf plan context) s) = tags s).
    { unfold loadCapRewrite.
      destruct (_ && _); [|auto]. destruct (negb _); auto. }
    destruct Hrest as (Ht & Hn & Hg).
    repeat (split; [assumption|]).
    apply loadCapRewrite_idle.
  - rewrite (applyWeeklyLoadCapRule_idle _ _ Hf). exists s. auto 10.
Qed.

Lemma loadCap_frame_witness :
  exists s',
    sessions (applyWeeklyLoadCapRule shortAndLong lowHistory) !! 1%nat = Some s'
    /\ date s' = "2026-02-11" /\ sport s' = run /\ title s' = "Run"
    /\ intensity s' = z2 /\ tags s' = None
    /\ (run = rest \/ 960 <= 0 ->
        s' = mkSession "2026-02-11" run "Run" 960 z2 None None).
Proof.
  apply (loadCap_frame shortAndLong lowHistory 1%nat
           (mkSession "2026-02-11" run "Run" 960 z2 None None)).
  reflexivity.
Defined.

(** X14.  When WeeklyLoadCap fires, a non-rest session of 30 minutes or
    more is never lengthened: it ends between 30 minutes and what it
    had. *)
Theorem loadCap_never_lengthens (plan : WeekPlan) (context : RulesContext)
    (i : nat) (s : Session) :
  totalMinutes (last7dStats context) > 0 ->
  plannedMinutesOf (sessions plan) > maxAllowedOf (totalMinutes (last7dStats context)) ->
  sessions plan !! i = Some s ->
  sport s <> rest ->
  30 <= durationMin s ->
  exists s',
    sessions (applyWeeklyLoadCapRule plan context) !! i = Some s'
    /\ 30 <= durationMin s' <= durationMin s.
Proof.
  intros Ht Hp Hi Hs Hd.
  destruct (loadCapFires_intro plan context Ht Hp) as [Hf [Hc0 Hcp]].
  rewrite (applyWeeklyLoadCapRule_fires _ _ Hf). cbn [sessions].
  exists (loadCapRewrite (scaleFactorOf plan context) s).
  rewrite list_lookup_fmap, Hi. split; [reflexivity|].
  rewrite (loadCapRewrite_duration _ _ Hs) by lia.
  unfold scaleFactorOf. rewrite scaledDuration_eq by lia.
  set (c := maxAllowedOf (totalMinutes (last7dStats context))) in *.
  set (p := plannedMinutesOf (sessions plan)) in *.
  assert (Hr : (2 * durationMin s * c + p) / (2 * p) < durationMin s + 1).
  { apply Z.div_lt_upper_bound; [lia|]. nia. }
  lia.
Qed.

Lemma loadCap_never_lengthens_witness :
  exists s',
    sessions (applyWeeklyLoadCapRule shortAndLong lowHistory) !! 1%nat = Some s'
    /\ 30 <= durationMin s' <= 960.
Proof.
  apply (loadCap_never_lengthens shortAndLong lowHistory 1%nat
           (mkSession "2026-02-11" run "Run" 960 z2 None None)).
  - reflexivity.
  - reflexivity.
  - reflexivity.
  - discriminate.
  - simpl. lia.
Defined.

Lemma loadCapRewrite_round_share (c p : Z) (x : Session) :
  0 <= c -> 0 < p -> sport x <> rest -> 0 <= durationMin x ->
  durationMin (loadCapRewrite (inject_Z c / inject_Z p) x) = 0
  \/ durationMin (loadCapRewrite (inject_Z c / inject_Z p) x) > 30 ->
  2 * p * durationMin (loadCapRewrite (inject_Z c / inject_Z p) x)
    <= 2 * c * durationMin x + p.
Proof.
  intros Hc Hp Hs Hd.
  destruct (Z.eq_dec (durationMin x) 0) as [H0|H0].
  - rewrite loadCapRewrite_idle by (right; lia). nia.
  - rewrite loadCapRewrite_duration by (auto; lia).
    rewrite scaledDuration_eq by exact Hp.
    pose proof (Z.mul_div_le (2 * durationMin x * c + p) (2 * p)) as Hr.
    intros Hout.
    destruct (Z.max_spec 30 ((2 * durationMin x * c + p) / (2 * p)))
      as [[_ E]|[_ E]]; rewrite E in *; nia.
Qed.

Lemma loadCap_round_shares (c p : Z) (l : list Session) :
  0 <= c -> 0 < p ->
  (forall s, s ∈ l -> sport s <> rest /\ 0 <= durationMin s) ->
  (forall s, s ∈ map (loadCapRewrite (inject_Z c / inject_Z p)) l ->
     durationMin s = 0 \/ durationMin s > 30) ->
  2 * p * totalDuration (map (loadCapRewrite (inject_Z c / inject_Z p)) l)
    <= 2 * c * totalDuration l + p * Z.of_nat (length l).
Proof.
  intros Hc Hp. unfold totalDuration.
  induction l as [|x l IH]; intros Hl Hout; [simpl; lia|].
  destruct (Hl x) as [Hs Hd]; [left|].
  assert (Hx : 2 * p * durationMin (loadCapRewrite (inject_Z c / inject_Z p) x)
               <= 2 * c * durationMin x + p).
  { apply loadCapRewrite_round_share; auto. apply Hout. left. }
  assert (IH' : 2 * p * foldr (fun s acc => durationMin s + acc) 0
                          (map (loadCapRewrite (inject_Z c / inject_Z p)) l)
                <= 2 * c * foldr (fun s acc => durationMin s + acc) 0 l
                   + p * Z.of_nat (length l)).
  { apply IH.
    - intros s Hin. apply Hl. right. exact Hin.
    - intros s Hin. apply Hout. right. exact Hin. }
  cbn [map foldr length]. rewrite Nat2Z.inj_succ. nia.
Qed.

(** X15.  When WeeklyLoadCap fires on non-negative durations and the
    30-minute floor decides no session (every non-rest session ends at 0
    or above 30 minutes), the non-rest minutes exceed the cap by at most
    half a minute per non-rest session, the rounding of each one. *)
Theorem loadCap_rounding_bound (plan : WeekPlan) (context : RulesContext) :
  let lastWeekMinutes := totalMinutes (last7dStats context) in
  let out := nonRest (sessions (applyWeeklyLoadCapRule plan context)) in
  lastWeekMinutes > 0 ->
  plannedMinutesOf (sessions plan) > maxAllowedOf lastWeekMinutes ->
  (forall s, s ∈ sessions plan -> 0 <= durationMin s) ->
  (forall s, s ∈ out -> durationMin s = 0 \/ durationMin s > 30) ->
  2 * totalDuration out
    <= 2 * maxAllowedOf lastWeekMinutes + Z.of_nat (length out).
Proof.
  intros t out Ht Hp Hnn. subst t out.
  destruct (loadCapFires_intro plan context Ht Hp) as [Hf [Hc0 Hcp]].
  rewrite (applyWeeklyLoadCapRule_fires _ _ Hf). cbn [sessions].
  rewrite nonRest_map_loadCap, length_map. unfold scaleFactorOf.
  set (c := maxAllowedOf (totalMinutes (last7dStats context))) in *.
  set (p := plannedMinutesOf (sessions plan)) in *.
  intros Hout.
  assert (Hsh : 2 * p * totalDuration
                          (map (loadCapRewrite (inject_Z c / inject_Z p))
                             (nonRest (sessions plan)))
                <= 2 * c * totalDuration (nonRest (sessions plan))
                   + p * Z.of_nat (length (nonRest (sessions plan)))).
  { apply loadCap_round_shares; [lia|lia| |exact Hout].
    intros s Hs. apply nonRest_sport in Hs as [Hin Hsp]. auto. }
  pose proof (nonRest_total_le _ Hnn) as Hle.
  assert (Hpt : totalDuration (sessions plan) = p)
    by (symmetry; apply plannedMinutesOf_total).
  rewrite Hpt in Hle. nia.
Qed.

Lemma loadCap_rounding_bound_witness :
  totalDuration (nonRest (sessions
     (applyWeeklyLoadCapRule threeHundred twoHundredLastWeek))) = 219
  /\ 2 * totalDuration (nonRest (sessions
           (applyWeeklyLoadCapRule threeHundred twoHundredLastWeek)))
     <= 2 * maxAllowedOf (totalMinutes (last7dStats twoHundredLastWeek))
        + Z.of_nat (length (nonRest (sessions
             (applyWeeklyLoadCapRule threeHundred twoHundredLastWeek)))).
Proof.
  split; [reflexivity|].
  apply (loadCap_rounding_bound threeHundred twoHundredLastWeek).
  - reflexivity.
  - reflexivity.
  - intros s Hs. cbn [sessions threeHundred] in Hs.
    repeat (apply elem_of_cons in Hs as [->|Hs]); try (simpl; lia).
    apply elem_of_nil in Hs. destruct Hs.
  - intros s Hs. vm_compute in Hs.
    repeat (apply elem_of_cons in Hs as [->|Hs]); try (right; reflexivity).
    apply elem_of_nil in Hs. destruct Hs.
Defined.

(** ** The command parser *)

Lemma trimEnd_cons_clean (c : ascii) (s : string) :
  JS.isWhite c = false -> JS.trimEnd (String c s) = String c (JS.trimEnd s).
Proof.
  intros Hc. cbn [JS.trimEnd]. rewrite Hc.
  destruct (JS.trimEnd s); reflexivity.
Qed.

Lemma trimEnd_endsClean (s : string) : endsClean (JS.trimEnd s) = true.
Proof.
  induction s as [|c s IH]; [reflexivity|].
  cbn [JS.trimEnd]. destruct (JS.trimEnd s) as [|c' t] eqn:E.
  - destruct (JS.isWhite c) eqn:Hc; [reflexivity|].
    cbn. rewrite Hc. reflexivity.
  - cbn [endsClean]. exact IH.
Qed.

Lemma trimEnd_id (s : string) : endsClean s = true -> JS.trimEnd s = s.
Proof.
  induction s as [|c s IH]; [reflexivity|].
  cbn [endsClean JS.trimEnd]. destruct s as [|c' s'].
  - intros Hc. apply negb_true_iff in Hc. cbn. rewrite Hc. reflexivity.
  - intros Hs. rewrite (IH Hs). reflexivity.
Qed.

Lemma trimStart_head (s : string) : JSText.startsWhite (JS.trimStart s) = false.
Proof.
  induction s as [|c s IH]; [reflexivity|].
  cbn [JS.trimStart]. destruct (JS.isWhite c) eqn:Hc; [exact IH|].
  cbn. exact Hc.
Qed.

(** The trimmed text of a command: a slash followed by text that does not
    end in white space. *)
Lemma trim_slash (text : string) :
  JSText.startsWithSlash (JS.trim text) = true ->
  exists body, JS.trim text = String "/" body /\ endsClean body = true.
Proof.
  unfold JS.trim. pose proof (trimStart_head text) as Hh.
  destruct (JS.trimStart text) as [|c r]; [discriminate|].
  cbn in Hh. rewrite (trimEnd_cons_clean _ _ Hh). cbn.
  intros Hc. apply Ascii.eqb_eq in Hc. subst c.
  exists (JS.trimEnd r). split; [reflexivity|apply trimEnd_endsClean].
Qed.

Lemma splitWs_nonempty (s : string) : JSText.splitWs s <> [].
Proof.
  induction s as [|c s IH]; [discriminate|].
  cbn [JSText.splitWs]. destruct (JS.isWhite c).
  - destruct (JSText.startsWhite s); [exact IH|discriminate].
  - destruct (JSText.splitWs s); discriminate.
Qed.

Lemma splitWs_noWhite (s : string) :
  Forall (fun piece => noWhite piece = true) (JSText.splitWs s).
Proof.
  induction s as [|c s IH]; [repeat constructor|].
  cbn [JSText.splitWs]. destruct (JS.isWhite c) eqn:Hc.
  - destruct (JSText.startsWhite s); [exact IH|].
    constructor; [reflexivity|exact IH].
  - destruct (JSText.splitWs s) as [|p ps].
    + repeat constructor. cbn. rewrite Hc. reflexivity.
    + inversion IH; subst. constructor; [|assumption].
      cbn. rewrite Hc. cbn. assumption.
Qed.

(** When the text does not end in white space, only the first piece can
    be empty, and it is not when the text starts with a character that is
    not white. *)
Lemma splitWs_pieces (s : string) :
  endsClean s = true ->
  Forall (fun piece => piece <> EmptyString) (tl (JSText.splitWs s))
  /\ (s <> EmptyString -> JSText.startsWhite s = false ->
      hd EmptyString (JSText.splitWs s) <> EmptyString).
Proof.
  induction s as [|c s IH]; intros He; [split; [constructor|congruence]|].
  assert (Hs : endsClean s = true).
  { destruct s; [reflexivity|exact He]. }
  destruct (IH Hs) as [IHt IHh].
  cbn [JSText.splitWs]. destruct (JS.isWhite c) eqn:Hc.
  - destruct s as [|c' s'].
    + cbn in He. rewrite Hc in He. discriminate.
    + split; [|cbn; congruence].
      destruct (JSText.startsWhite (String c' s')) eqn:Hw; [exact IHt|].
      cbn [tl].
      pose proof (splitWs_nonempty (String c' s')) as Hne.
      destruct (JSText.splitWs (String c' s')) as [|p ps]; [congruence|].
      constructor; [|exact IHt].
      apply IHh; [discriminate|reflexivity].
  - destruct (JSText.splitWs s) as [|p ps].
    + split; [constructor|discriminate].
    + split; [exact IHt|discriminate].
Qed.

Lemma toLowerCase_noWhite (s : string) :
  noWhite s = true -> noWhite (JSText.toLowerCase s) = true.
Proof.
  unfold noWhite. induction s as [|c s IH]; [reflexivity|].
  cbn [allChars JSText.toLowerCase]. intros H.
  apply andb_true_iff in H as [Hc Hs]. rewrite (IH Hs), andb_true_r.
  unfold JSText.lowerChar.
  destruct ((65 <=? nat_of_ascii c)%nat && (nat_of_ascii c <=? 90)%nat) eqn:E;
    [|exact Hc].
  apply andb_true_iff in E as [E1 E2].
  apply Nat.leb_le in E1, E2.
  unfold JS.isWhite. rewrite nat_ascii_embedding by lia.
  destruct (Nat.leb_spec (nat_of_ascii c + 32) 13); [lia|].
  rewrite andb_false_r. cbn [orb negb].
  destruct (Nat.eqb_spec (nat_of_ascii c + 32) 32); [lia|reflexivity].
Qed.

Lemma toLowerCase_noCapital (s : string) :
  noCapital (JSText.toLowerCase s) = true.
Proof.
  unfold noCapital. induction s as [|c s IH]; [reflexivity|].
  cbn [allChars JSText.toLowerCase]. rewrite IH, andb_true_r.
  unfold JSText.lowerChar.
  destruct ((65 <=? nat_of_ascii c)%nat && (nat_of_ascii c <=? 90)%nat) eqn:E.
  - apply andb_true_iff in E as [E1 E2]. apply Nat.leb_le in E1, E2.
    rewrite nat_ascii_embedding by lia.
    destruct (Nat.leb_spec (nat_of_ascii c + 32) 90); [lia|].
    rewrite andb_false_r. reflexivity.
  - rewrite E. reflexivity.
Qed.

(** X16.  For a text that is a command (a slash first, once trimmed), the
    parser returns a name without white space and without capital letter,
    and arguments none of which is empty or holds white space, however
    the text is spaced. *)
Theorem parseCommand_words (text : string) :
  JSText.startsWithSlash (JS.trim text) = true ->
  noWhite (Parser.commandName (Parser.parseCommand text)) = true
  /\ noCapital (Parser.commandName (Parser.parseCommand text)) = true
  /\ Forall isWord (Parser.args (Parser.parseCommand text)).
Proof.
  intros Hs. unfold Parser.parseCommand. rewrite Hs.
  destruct (trim_slash text Hs) as (body & -> & Hb).
  cbn [JSText.slice1 Parser.commandName Parser.args].
  pose proof (splitWs_noWhite body) as Hw.
  destruct (splitWs_pieces body Hb) as [Ht _].
  destruct (JSText.splitWs body) as [|p ps]; cbn [hd tl] in *.
  - repeat split; constructor.
  - inversion Hw; subst. split; [apply toLowerCase_noWhite; assumption|].
    split; [apply toLowerCase_noCapital|].
    unfold isWord. apply Forall_and. split; assumption.
Qed.

Lemma parseCommand_words_witness :
  Parser.parseCommand "  /Set   FTP 280 "
    = {| Parser.commandName := "set"; Parser.args := ["FTP"; "280"] |}
  /\ noWhite "set" = true /\ noCapital "set" = true
  /\ Forall isWord ["FTP"; "280"].
Proof.
  split; [reflexivity|].
  apply (parseCommand_words "  /Set   FTP 280 "). reflexivity.
Defined.

Lemma append_empty_r (s : string) : s ++ EmptyString = s.
Proof.
  induction s as [|c s IH]; [reflexivity|].
  change (String c s ++ EmptyString) with (String c (s ++ EmptyString)).
  rewrite IH. reflexivity.
Qed.

Lemma append_assoc (a b c : string) : (a ++ b) ++ c = a ++ (b ++ c).
Proof.
  induction a as [|x a IH]; [reflexivity|].
  change ((String x a ++ b) ++ c) with (String x ((a ++ b) ++ c)).
  rewrite IH. reflexivity.
Qed.

Lemma splitWs_word (w rest : string) :
  noWhite w = true ->
  JSText.splitWs (w ++ rest)
  = (w ++ hd EmptyString (JSText.splitWs rest)) :: tl (JSText.splitWs rest).
Proof.
  unfold noWhite. induction w as [|c w IH]; intros Hw.
  - change (EmptyString ++ rest) with rest.
    pose proof (splitWs_nonempty rest).
    destruct (JSText.splitWs rest); [congruence|reflexivity].
  - cbn [allChars] in Hw. apply andb_true_iff in Hw as [Hc Hw].
    apply negb_true_iff in Hc.
    change (String c w ++ rest) with (String c (w ++ rest)).
    cbn [JSText.splitWs]. rewrite Hc, (IH Hw). reflexivity.
Qed.

Lemma isWord_head (w rest : string) :
  isWord w -> JSText.startsWhite (w ++ rest) = false /\ w ++ rest <> EmptyString.
Proof.
  intros [Hne Hw]. destruct w as [|c w]; [congruence|].
  unfold noWhite in Hw. cbn in Hw. apply andb_true_iff in Hw as [Hc _].
  apply negb_true_iff in Hc. split; [exact Hc|discriminate].
Qed.

Lemma splitWs_spaced (words : list string) :
  Forall isWord words ->
  JSText.splitWs (spaced words) = EmptyString :: words.
Proof.
  induction 1 as [|w ws Hw _ IH]; [reflexivity|].
  cbn [spaced].
  change (" " ++ w ++ spaced ws) with (String " " (w ++ spaced ws)).
  cbn [JSText.splitWs].
  change (JS.isWhite " ") with true. cbn match.
  destruct (isWord_head w (spaced ws) Hw) as [-> _].
  rewrite (splitWs_word w (spaced ws) (proj2 Hw)), IH.
  cbn [hd tl]. rewrite append_empty_r. reflexivity.
Qed.

Lemma endsClean_noWhite (s : string) : noWhite s = true -> endsClean s = true.
Proof.
  unfold noWhite. induction s as [|c s IH]; [reflexivity|].
  cbn [allChars endsClean]. intros H. apply andb_true_iff in H as [Hc Hs].
  destruct s; [exact Hc|apply IH; exact Hs].
Qed.

Lemma endsClean_app (a b : string) :
  b <> EmptyString -> endsClean (a ++ b) = endsClean b.
Proof.
  intros Hb. induction a as [|c a IH]; [reflexivity|].
  change (String c a ++ b) with (String c (a ++ b)).
  cbn [endsClean]. destruct (a ++ b) eqn:E; [|exact IH].
  destruct a as [|c' a'].
  - change (b = EmptyString) in E. congruence.
  - change (String c' (a' ++ b) = EmptyString) in E. discriminate.
Qed.

Lemma spaced_nonempty (w : string) (ws : list string) :
  spaced (w :: ws) <> EmptyString.
Proof. discriminate. Qed.

Lemma endsClean_spaced (words : list string) :
  Forall isWord words -> words <> [] -> endsClean (spaced words) = true.
Proof.
  induction 1 as [|w ws Hw Hws IH]; [congruence|]. intros _.
  cbn [spaced].
  destruct (isWord_head w (spaced ws) Hw) as [_ Hne].
  rewrite (endsClean_app " " _ Hne).
  destruct ws as [|w' ws'].
  - cbn [spaced]. rewrite append_empty_r. apply endsClean_noWhite, Hw.
  - rewrite (endsClean_app w _ (spaced_nonempty w' ws')).
    apply IH. discriminate.
Qed.

Lemma noWhite_app (a b : string) :
  noWhite a = true -> noWhite b = true -> noWhite (a ++ b) = true.
Proof.
  unfold noWhite. induction a as [|c a IH]; intros Ha Hb; [exact Hb|].
  cbn [allChars] in *. apply andb_true_iff in Ha as [Hc Ha].
  change (String c a ++ b) with (String c (a ++ b)). cbn [allChars].
  rewrite Hc, (IH Ha Hb). reflexivity.
Qed.

Lemma trim_commandLine (name : string) (words : list string) :
  noWhite name = true -> Forall isWord words ->
  JS.trim (commandLine name words) = commandLine name words.
Proof.
  intros Hn Hw. unfold JS.trim, commandLine.
  change ("/" ++ name ++ spaced words) with (String "/" (name ++ spaced words)).
  cbn [JS.trimStart]. change (JS.isWhite "/") with false. cbn match.
  apply trimEnd_id.
  destruct words as [|w ws].
  - change (spaced []) with EmptyString. rewrite append_empty_r.
    apply endsClean_noWhite.
    change (String "/" name) with ("/" ++ name).
    apply noWhite_app; [reflexivity|exact Hn].
  - change (String "/" (name ++ spaced (w :: ws)))
      with (("/" ++ name) ++ spaced (w :: ws)).
    rewrite (endsClean_app _ _ (spaced_nonempty w ws)).
    apply endsClean_spaced; [exact Hw|discriminate].
Qed.

(** X17.  Parsing a command line gives back what it was written from: for
    a name without white space and arguments that are words,
    [parseCommand] of the slash, the name and the arguments after one
    space each is the name in lower case and the arguments unchanged. *)
Theorem parseCommand_commandLine (name : string) (words : list string) :
  noWhite name = true ->
  Forall isWord words ->
  Parser.parseCommand (commandLine name words)
  = {| Parser.commandName := JSText.toLowerCase name; Parser.args := words |}.
Proof.
  intros Hn Hw. unfold Parser.parseCommand.
  rewrite (trim_commandLine name words Hn Hw). unfold commandLine.
  change ("/" ++ name ++ spaced words) with (String "/" (name ++ spaced words)).
  cbn [JSText.startsWithSlash JSText.slice1].
  change (Ascii.eqb "/" "/") with true. cbn match.
  rewrite (splitWs_word name (spaced words) Hn), (splitWs_spaced words Hw).
  cbn [hd tl]. rewrite append_empty_r. reflexivity.
Qed.

Lemma parseCommand_commandLine_witness :
  commandLine "LOG" ["Swim"; "45"; "z2"] = "/LOG Swim 45 z2"
  /\ Parser.parseCommand (commandLine "LOG" ["Swim"; "45"; "z2"])
     = {| Parser.commandName := "log"; Parser.args := ["Swim"; "45"; "z2"] |}.
Proof.
  split; [reflexivity|].
  apply (parseCommand_commandLine "LOG" ["Swim"; "45"; "z2"]).
  - reflexivity.
  - repeat constructor; discriminate.
Defined.

(** ** The command switch *)

Lemma includesStr_In (l : list string) (s : string) :
  JSText.includesStr l s = true <-> In s l.
Proof.
  unfold JSText.includesStr. rewrite existsb_exists. split.
  - intros (x & Hx & He). apply String.eqb_eq in He. subst. exact Hx.
  - intros H. exists s. split; [exact H|apply String.eqb_refl].
Qed.

Lemma toLowerCase_empty (s : string) :
  JSText.toLowerCase s = EmptyString -> s = EmptyString.
Proof. destruct s; [reflexivity|discriminate]. Qed.

Lemma dispatch_setFtp (name : string) (args : list string) (n : Z) :
  Worker.dispatch name args = Worker.HandleSetFtp n <->
  name = "set" /\ Worker.dispatchSet args = Worker.HandleSetFtp n.
Proof.
  unfold Worker.dispatch.
  destruct (String.eqb_spec name "start"); [subst; split; [|intros [? _]]; discriminate|].
  destruct (String.eqb_spec name "profile"); [subst; split; [|intros [? _]]; discriminate|].
  destruct (String.eqb_spec name "set"); [tauto|].
  destruct (String.eqb_spec name "plan"); [subst; split; [|intros [? _]]; discriminate|].
  destruct (String.eqb_spec name "log").
  - split; [|intros [? _]; congruence].
    unfold Worker.dispatchLog. intros H. exfalso.
    destruct args as [|a0 [|a1 more]]; try discriminate.
    destruct (negb _); [discriminate|].
    destruct (JSText.parseInt10 a1); [|discriminate].
    destruct (_ || _); [discriminate|].
    destruct more; [discriminate|].
    destruct (String.eqb _ _); [discriminate|].
    destruct (negb _); discriminate.
  - split; [discriminate|tauto].
Qed.

Lemma dispatch_log (name : string) (args : list string)
    (s : string) (d : Z) (i : option string) :
  Worker.dispatch name args = Worker.HandleLog s d i <->
  name = "log" /\ Worker.dispatchLog args = Worker.HandleLog s d i.
Proof.
  unfold Worker.dispatch.
  destruct (String.eqb_spec name "start"); [subst; split; [|intros [? _]]; discriminate|].
  destruct (String.eqb_spec name "profile"); [subst; split; [|intros [? _]]; discriminate|].
  destruct (String.eqb_spec name "set").
  - split; [|intros [? _]; congruence].
    unfold Worker.dispatchSet. intros H. exfalso.
    destruct args as [|a0 [|a1 more]]; try discriminate.
    destruct (String.eqb _ _); [|discriminate].
    destruct (JSText.parseInt10 a1); [|discriminate].
    destruct (_ || _); discriminate.
  - destruct (String.eqb_spec name "plan");
      [subst; split; [|intros [? _]]; discriminate|].
    destruct (String.eqb_spec name "log"); [tauto|].
    split; [discriminate|tauto].
Qed.

(** X18.  The switch of the worker calls [handleSetFtp] with a value
    exactly when [validateSetFtpArgs] accepts the same arguments with that
    value. *)
Theorem setFtp_switch_agrees_with_validator (args : list string) (n : Z) :
  Worker.dispatch "set" args = Worker.HandleSetFtp n <->
  Parser.validateSetFtpArgs args
  = {| Parser.ftpValid := true; Parser.ftp := Some n; Parser.ftpError := None |}.
Proof.
  rewrite dispatch_setFtp.
  unfold Worker.dispatchSet, Parser.validateSetFtpArgs.
  destruct args as [|a0 [|a1 more]];
    try (split; [intros [_ H]|intros H]; discriminate).
  destruct (String.eqb (JSText.toLowerCase a0) "ftp"); cbn [negb];
    [|split; [intros [_ H]|intros H]; discriminate].
  destruct (JSText.parseInt10 a1) as [m|];
    [|split; [intros [_ H]|intros H]; discriminate].
  destruct ((m <? 50) || (m >? 600));
    [split; [intros [_ H]|intros H]; discriminate|].
  split.
  - intros [_ H]. congruence.
  - intros H. split; [reflexivity|congruence].
Qed.

Lemma dispatchLog_validate (args : list string)
    (s : string) (d : Z) (i : option string) :
  Forall (fun a => a <> EmptyString) args ->
  Worker.dispatchLog args = Worker.HandleLog s d i <->
  Parser.validateLogArgs args
  = {| Parser.logValid := true; Parser.logSport := Some s;
       Parser.logDurationMin := Some d; Parser.logIntensity := i;
       Parser.logError := None |}.
Proof.
  intros Hne.
  unfold Worker.dispatchLog, Parser.validateLogArgs, Parser.logFailure.
  destruct args as [|a0 [|a1 more]]; try (split; discriminate).
  destruct (negb (JSText.includesStr Parser.validSports (JSText.toLowerCase a0)));
    [split; discriminate|].
  destruct (JSText.parseInt10 a1) as [m|]; [|split; discriminate].
  destruct ((m <? 1) || (m >? 1440)); [split; discriminate|].
  destruct more as [|a2 more]; [split; congruence|].
  assert (Ha2 : a2 <> EmptyString).
  { inversion Hne as [|? ? _ H1]; subst. inversion H1 as [|? ? _ H2]; subst.
    inversion H2; assumption. }
  destruct (String.eqb_spec (JSText.toLowerCase a2) EmptyString) as [E|_];
    [apply toLowerCase_empty in E; contradiction|].
  destruct (negb (JSText.includesStr Parser.validIntensities
                    (JSText.toLowerCase a2)));
    split; try discriminate; congruence.
Qed.

(** X19.  For every message, the worker calls [handleLog] exactly when the
    command is [log] and [validateLogArgs] accepts its arguments, and then
    with the sport, the minutes and the intensity the validator
    returns. *)
Theorem log_switch_agrees_with_validator (text : string)
    (s : string) (d : Z) (i : option string) :
  Worker.handleMessage text = Worker.HandleLog s d i <->
  Parser.commandName (Parser.parseCommand text) = "log"
  /\ Parser.validateLogArgs (Parser.args (Parser.parseCommand text))
     = {| Parser.logValid := true; Parser.logSport := Some s;
          Parser.logDurationMin := Some d; Parser.logIntensity := i;
          Parser.logError := None |}.
Proof.
  unfold Worker.handleMessage. rewrite dispatch_log.
  destruct (JSText.startsWithSlash (JS.trim text)) eqn:Hs.
  - destruct (parseCommand_words text Hs) as (_ & _ & Hw).
    rewrite dispatchLog_validate; [reflexivity|].
    eapply Forall_impl; [exact Hw|]. intros a [Ha _]. exact Ha.
  - unfold Parser.parseCommand. rewrite Hs.
    cbn [Parser.commandName Parser.args].
    split; intros [H _]; discriminate.
Qed.

(** X20.  The switch never calls [handleSetFtp] with a value outside 50 to
    600, whatever the command name and the arguments. *)
Theorem dispatch_setFtp_range (name : string) (args : list string) (n : Z) :
  Worker.dispatch name args = Worker.HandleSetFtp n ->
  50 <= n <= 600.
Proof.
  rewrite dispatch_setFtp. intros [_ H]. unfold Worker.dispatchSet in H.
  destruct args as [|a0 [|a1 more]]; try discriminate.
  destruct (String.eqb _ _); [|discriminate].
  destruct (JSText.parseInt10 a1) as [m|]; [|discriminate].
  destruct ((m <? 50) || (m >? 600)) eqn:E; [discriminate|].
  injection H as <-. apply orb_false_iff in E as [E1 E2]. lia.
Qed.

Lemma dispatch_setFtp_range_witness :
  Worker.dispatch "set" ["FTP"; "280W"] = Worker.HandleSetFtp 280
  /\ 50 <= 280 <= 600.
Proof.
  split; [reflexivity|].
  apply (dispatch_setFtp_range "set" ["FTP"; "280W"]). reflexivity.
Defined.

(** X21.  The switch never calls [handleLog] with a sport other than swim,
    bike or run, with minutes outside 1 to 1440, or with an intensity
    other than z1 to z5 when it passes one. *)
Theorem dispatch_log_valid (name : string) (args : list string)
    (s : string) (d : Z) (i : option string) :
  Worker.dispatch name args = Worker.HandleLog s d i ->
  In s Parser.validSports
  /\ 1 <= d <= 1440
  /\ (i = None \/ exists z, i = Some z /\ In z Parser.validIntensities).
Proof.
  rewrite dispatch_log. intros [_ H]. unfold Worker.dispatchLog in H.
  destruct args as [|a0 [|a1 more]]; try discriminate.
  destruct (JSText.includesStr Parser.validSports (JSText.toLowerCase a0)) eqn:Es;
    [|discriminate].
  cbn [negb] in H. apply includesStr_In in Es.
  destruct (JSText.parseInt10 a1) as [m|]; [|discriminate].
  destruct ((m <? 1) || (m >? 1440)) eqn:E; [discriminate|].
  apply orb_false_iff in E as [E1 E2].
  destruct more as [|a2 more].
  - injection H as <- <- <-. split; [exact Es|]. split; [lia|]. left. reflexivity.
  - destruct (String.eqb _ _).
    + injection H as <- <- <-. split; [exact Es|]. split; [lia|].
      left. reflexivity.
    + destruct (JSText.includesStr Parser.validIntensities
                  (JSText.toLowerCase a2)) eqn:Ei; [|discriminate].
      cbn [negb] in H. injection H as <- <- <-.
      split; [exact Es|]. split; [lia|]. right.
      exists (JSText.toLowerCase a2). split; [reflexivity|].
      apply includesStr_In. exact Ei.
Qed.

Lemma dispatch_log_valid_witness :
  Worker.dispatch "log" ["Swim"; "45"; "Z2"] = Worker.HandleLog "swim" 45 (Some "z2")
  /\ In "swim" Parser.validSports
  /\ 1 <= 45 <= 1440
  /\ (Some "z2" = None
      \/ exists z, Some "z2" = Some z /\ In z Parser.validIntensities).
Proof.
  split; [reflexivity|].
  apply (dispatch_log_valid "log" ["Swim"; "45"; "Z2"]). reflexivity.
Defined.

(** The validator and the switch part on an empty third argument, which
    no parsed message carries: the switch logs without intensity, the
    validator refuses. *)
Example empty_intensity_argument :
  Worker.dispatch "log" ["run"; "60"; EmptyString] = Worker.HandleLog "run" 60 None
  /\ Parser.logValid (Parser.validateLogArgs ["run"; "60"; EmptyString]) = false.
Proof. split; reflexivity. Qed.

(** ** The rule context built from the stored rows *)

Lemma find_date_Some (d : string) (acc : list (string * Z)) :
  (exists x, List.find (fun x => String.eqb (fst x) d) acc = Some x)
  <-> d ∈ map fst acc.
Proof.
  induction acc as [|[d' m'] acc IH]; cbn [List.find map fst].
  - rewrite elem_of_nil. split; [intros [x H]; discriminate|tauto].
  - rewrite elem_of_cons. destruct (String.eqb_spec d' d) as [E|E].
    + split; [auto|eauto].
    + rewrite IH. split; [auto|]. intros [H|H]; [congruence|exact H].
Qed.

Lemma bumpFirst_keys (d : string) (m : Z) (acc : list (string * Z)) :
  map fst (Handlers.bumpFirst d m acc) = map fst acc.
Proof.
  induction acc as [|[d' m'] acc IH]; [reflexivity|].
  cbn [Handlers.bumpFirst]. destruct (String.eqb d' d); [reflexivity|].
  cbn [map fst]. rewrite IH. reflexivity.
Qed.

Lemma bumpFirst_total (d : string) (m : Z) (acc : list (string * Z)) :
  d ∈ map fst acc ->
  tableTotal (Handlers.bumpFirst d m acc) = tableTotal acc + m.
Proof.
  unfold tableTotal.
  induction acc as [|[d' m'] acc IH]; cbn [map fst Handlers.bumpFirst].
  - rewrite elem_of_nil. tauto.
  - rewrite elem_of_cons. intros H.
    destruct (String.eqb_spec d' d) as [E|E]; cbn [foldr snd]; [lia|].
    destruct H as [H|H]; [congruence|]. rewrite (IH H). lia.
Qed.

Lemma bumpFirst_entries (d : string) (m : Z) (acc : list (string * Z))
    (d0 : string) (m0 : Z) :
  NoDup (map fst acc) ->
  (d0, m0) ∈ Handlers.bumpFirst d m acc ->
  (d0 = d /\ (d, m0 - m) ∈ acc) \/ (d0 <> d /\ (d0, m0) ∈ acc).
Proof.
  induction acc as [|[d' m'] acc IH]; cbn [map fst Handlers.bumpFirst].
  - rewrite elem_of_nil. tauto.
  - intros Hnd. apply NoDup_cons in Hnd as [Hnotin Hnd].
    destruct (String.eqb_spec d' d) as [E|E].
    + subst d'. rewrite !elem_of_cons. intros [H|H].
      * injection H as H1 H2. subst d0 m0. left. split; [reflexivity|].
        left. f_equal. lia.
      * right. split; [|right; exact H]. intros ->.
        apply Hnotin. apply list_elem_of_fmap. exists (d, m0). auto.
    + rewrite !elem_of_cons. intros [H|H].
      * injection H as H1 H2. subst d0 m0. right.
        split; [exact E|left; reflexivity].
      * destruct (IH Hnd H) as [[-> Hin]|[Hne Hin]]; [left|right]; auto.
Qed.

Lemma minutesOn_app (d : string) (a b : list Handlers.WorkoutRow) :
  minutesOn d (a ++ b) = minutesOn d a + minutesOn d b.
Proof.
  unfold minutesOn. induction a as [|w a IH]; [cbn; lia|].
  cbn [app foldr]. rewrite IH.
  destruct (String.eqb (Handlers.rowDate w) d); lia.
Qed.

Lemma minutesOn_absent (d : string) (ws : list Handlers.WorkoutRow) :
  d ∉ map Handlers.rowDate ws -> minutesOn d ws = 0.
Proof.
  unfold minutesOn. induction ws as [|w ws IH]; [reflexivity|].
  cbn [map foldr]. rewrite not_elem_of_cons. intros [Hne Hnotin].
  destruct (String.eqb_spec (Handlers.rowDate w) d); [congruence|].
  exact (IH Hnotin).
Qed.

Lemma minutesOn_single (d : string) (w : Handlers.WorkoutRow) :
  minutesOn d [w]
  = if String.eqb (Handlers.rowDate w) d then Handlers.rowDurationMin w else 0.
Proof.
  unfold minutesOn. cbn. destruct (String.eqb _ _); lia.
Qed.

Lemma addWorkout_total (acc : list (string * Z)) (w : Handlers.WorkoutRow) :
  tableTotal (Handlers.addWorkout acc w)
  = tableTotal acc + Handlers.rowDurationMin w.
Proof.
  unfold Handlers.addWorkout.
  destruct (List.find _ acc) as [x|] eqn:E.
  - apply bumpFirst_total. apply find_date_Some. eauto.
  - unfold tableTotal, JS.push. rewrite foldr_app. cbn [foldr snd].
    generalize (Handlers.rowDurationMin w). intros m.
    induction acc as [|y acc IH]; cbn [foldr]; [lia|].
    cbn [List.find] in E. destruct (String.eqb _ _); [discriminate|].
    rewrite (IH E). lia.
Qed.

Lemma addWorkout_table (seen : list Handlers.WorkoutRow)
    (acc : list (string * Z)) (w : Handlers.WorkoutRow) :
  tableOf seen acc -> tableOf (seen ++ [w]) (Handlers.addWorkout acc w).
Proof.
  intros (Hnd & Hkeys & Hval). unfold Handlers.addWorkout.
  destruct (List.find _ acc) as [x|] eqn:E.
  - assert (Hin : Handlers.rowDate w ∈ map fst acc)
      by (apply find_date_Some; eauto).
    split; [rewrite bumpFirst_keys; exact Hnd|]. split.
    + intros d. rewrite bumpFirst_keys, map_app, elem_of_app, Hkeys.
      cbn [map]. rewrite list_elem_of_singleton. split; [auto|].
      intros [H| ->]; [exact H|]. apply Hkeys. exact Hin.
    + intros d m Hm. rewrite minutesOn_app, minutesOn_single.
      destruct (bumpFirst_entries _ _ _ _ _ Hnd Hm) as [[-> Hold]|[Hne Hold]].
      * rewrite String.eqb_refl. rewrite <- (Hval _ _ Hold). lia.
      * destruct (String.eqb_spec (Handlers.rowDate w) d); [congruence|].
        rewrite <- (Hval _ _ Hold). lia.
  - assert (Hnotin : Handlers.rowDate w ∉ map fst acc).
    { intros H. apply find_date_Some in H as [x H]. congruence. }
    unfold JS.push. split; [|split].
    + rewrite map_app. cbn [map fst]. apply NoDup_app. split; [exact Hnd|].
      split; [|apply NoDup_singleton].
      intros d Hd Hd'. apply list_elem_of_singleton in Hd'. subst d.
      contradiction.
    + intros d. rewrite !map_app, !elem_of_app, Hkeys. cbn [map fst].
      reflexivity.
    + intros d m Hm. rewrite minutesOn_app, minutesOn_single.
      apply elem_of_app in Hm as [Hm|Hm].
      * destruct (String.eqb_spec (Handlers.rowDate w) d) as [Ed|Ed].
        -- exfalso. apply Hnotin. subst d.
           apply list_elem_of_fmap. exists (Handlers.rowDate w, m). auto.
        -- rewrite <- (Hval _ _ Hm). lia.
      * apply list_elem_of_singleton in Hm. injection Hm as H1 H2.
        subst d m. rewrite String.eqb_refl, minutesOn_absent; [lia|].
        rewrite <- Hkeys. exact Hnotin.
Qed.

Lemma fold_addWorkout_table (ws : list Handlers.WorkoutRow) :
  forall seen acc,
    tableOf seen acc ->
    tableOf (seen ++ ws) (fold_left Handlers.addWorkout ws acc).
Proof.
  induction ws as [|w ws IH]; intros seen acc H; cbn [fold_left].
  - rewrite app_nil_r. exact H.
  - replace (seen ++ w :: ws)%list with ((seen ++ [w]) ++ ws)%list
      by (rewrite <- app_assoc; reflexivity).
    apply IH, addWorkout_table, H.
Qed.

Lemma fold_addWorkout_total (ws : list Handlers.WorkoutRow) :
  forall acc sum,
    tableTotal acc = sum ->
    tableTotal (fold_left Handlers.addWorkout ws acc)
    = fold_left (fun sum w => sum + Handlers.rowDurationMin w) ws sum.
Proof.
  induction ws as [|w ws IH]; intros acc sum H; cbn [fold_left]; [exact H|].
  apply IH. rewrite addWorkout_total, H. reflexivity.
Qed.

(** X22.  In the context built from the workouts of the last seven days,
    the minutes of the per-date table add up to [totalMinutes]. *)
Theorem getRulesContext_totals (workouts : list Handlers.WorkoutRow)
    (fatigue : option Handlers.FatigueRow) :
  tableTotal (byDate (last7dStats (Handlers.getRulesContext workouts fatigue)))
  = totalMinutes (last7dStats (Handlers.getRulesContext workouts fatigue)).
Proof.
  cbn [Handlers.getRulesContext last7dStats byDate totalMinutes].
  apply fold_addWorkout_total. reflexivity.
Qed.

(** X23.  The per-date table of the context lists every date of the
    workouts once, and with each date the sum of the minutes of the
    workouts of that date, also when the rows of one date are not next to
    each other. *)
Theorem getRulesContext_byDate (workouts : list Handlers.WorkoutRow)
    (fatigue : option Handlers.FatigueRow) :
  tableOf workouts
    (byDate (last7dStats (Handlers.getRulesContext workouts fatigue))).
Proof.
  cbn [Handlers.getRulesContext last7dStats byDate].
  apply (fold_addWorkout_table workouts [] []).
  split; [constructor|]. split.
  - intros d. cbn. reflexivity.
  - intros d m H. apply elem_of_nil in H. destruct H.
Qed.

(** X24.  A stored readiness of 0, or none, counts as 3: with such a
    fatigue row ReadinessDownshift leaves every plan as it is. *)
Theorem getRulesContext_default_readiness (plan : WeekPlan)
    (workouts : list Handlers.WorkoutRow) (row : Handlers.FatigueRow) :
  Handlers.rowReadiness row = None \/ Handlers.rowReadiness row = Some 0 ->
  todayFatigue (Handlers.getRulesContext workouts (Some row))
  = Some {| readiness := 3;
            sleepScore := Handlers.orUndefined (Handlers.rowSleepScore row) |}
  /\ applyReadinessDownshiftRule plan
       (Handlers.getRulesContext workouts (Some row)) = plan.
Proof.
  intros H.
  assert (E : Handlers.orThree (Handlers.rowReadiness row) = 3)
    by (destruct H as [-> | ->]; reflexivity).
  unfold applyReadinessDownshiftRule.
  cbn [Handlers.getRulesContext todayFatigue readiness]. rewrite E.
  split; reflexivity.
Qed.

Lemma getRulesContext_default_readiness_witness :
  Handlers.rowReadiness (Handlers.mkFatigueRow (Some 0) None) = Some 0
  /\ applyReadinessDownshiftRule backToBack
       (Handlers.getRulesContext []
          (Some (Handlers.mkFatigueRow (Some 0) None))) = backToBack.
Proof.
  split; [reflexivity|].
  apply (getRulesContext_default_readiness backToBack []
           (Handlers.mkFatigueRow (Some 0) None)).
  right. reflexivity.
Defined.

(** ** The rules together *)

Lemma applyNoHardHardRule_member `{zone : JS.TimeZone}
    (plan : WeekPlan) (s' : Session) :
  s' ∈ sessions (applyNoHardHardRule plan) ->
  exists s, s ∈ sessions plan /\ keptOrDowngraded s s'.
Proof.
  rewrite applyNoHardHardRule_eq. cbn [sessions]. intros Hin.
  apply list_elem_of_lookup in Hin as [i Hi].
  pose proof (noHardHard_walk_kept (JS.sort byDateAsc (sessions plan))
                (false, false, None)) as Hall.
  destruct (Forall2_lookup_r _ _ _ _ _ Hall Hi) as (s & Hs & Hk).
  exists s. split; [|exact Hk].
  rewrite (sort_perm byDateAsc (sessions plan)).
  apply list_elem_of_lookup. eauto.
Qed.

Lemma applyWeeklyLoadCapRule_member (plan : WeekPlan) (context : RulesContext)
    (s' : Session) :
  s' ∈ sessions (applyWeeklyLoadCapRule plan context) ->
  exists s, s ∈ sessions plan /\ date s' = date s
            /\ isHardSession s' = isHardSession s.
Proof.
  destruct (loadCapFires plan context) eqn:Hf.
  - rewrite (applyWeeklyLoadCapRule_fires _ _ Hf). cbn [sessions].
    intros Hin. apply list_elem_of_fmap in Hin as (s & -> & Hs).
    exists s. split; [exact Hs|].
    split; [apply loadCapRewrite_date|apply loadCapRewrite_hard].
  - rewrite (applyWeeklyLoadCapRule_idle _ _ Hf). intros Hin.
    exists s'. auto.
Qed.

(** X25.  With a readiness of 2 or less, the plan [applyRules] returns has
    no hard session on its start date, whatever SwimRotation wrote there
    before the readiness was looked at and wherever the sort put it. *)
Theorem applyRules_low_readiness `{zone : JS.TimeZone}
    (plan : WeekPlan) (context : RulesContext) (f : Fatigue) (s' : Session) :
  todayFatigue context = Some f ->
  readiness f <= 2 ->
  s' ∈ sessions (applyRules plan context) ->
  date s' = startDate plan ->
  isHardSession s' = false.
Proof.
  intros Hf Hr. unfold applyRules.
  set (p0 := {| startDate := startDate plan; sessions := sessions plan;
                warnings := []; appliedRules := [] |}).
  set (p1 := applySwimRotationRule p0).
  intros Hin Hd.
  apply applyWeeklyLoadCapRule_member in Hin as (s3 & Hin & Hd3 & Hh3).
  apply applyNoHardHardRule_member in Hin as (s2 & Hin & Hk).
  rewrite Hh3. rewrite Hd3 in Hd. clear Hd3 Hh3 s'.
  assert (H2 : date s2 = startDate plan /\
               (isHardSession s2 = false -> isHardSession s3 = false)).
  { destruct Hk as [->|[_ ->]]; [auto|].
    split; [exact Hd|]. intros _. apply downgradeToEasy_not_hard. }
  destruct H2 as [Hd2 Himp]. apply Himp. clear Himp Hk Hd s3.
  rewrite (applyReadinessDownshiftRule_eq p1 context f Hf Hr) in Hin.
  cbn [sessions] in Hin. apply list_elem_of_fmap in Hin as (s1 & -> & _).
  assert (Hs : startDate p1 = startDate plan)
    by (destruct (applySwimRotationRule_frame p0) as [Hs _]; exact Hs).
  rewrite Hs in *.
  pose proof (readinessRewrite_settled (startDate plan) (readiness f) s1) as Hset.
  unfold readinessTouched in Hset. rewrite Hd2, String.eqb_refl in Hset.
  exact Hset.
Qed.

Lemma applyRules_low_readiness_witness :
  downgradeToEasy vo2Tuesday "Low readiness (1/5)"
    ∈ sessions (applyRules (zone := utc) backToBack exhausted)
  /\ isHardSession (downgradeToEasy vo2Tuesday "Low readiness (1/5)") = false.
Proof.
  assert (Hin : downgradeToEasy vo2Tuesday "Low readiness (1/5)"
                  ∈ sessions (applyRules (zone := utc) backToBack exhausted))
    by (vm_compute; left).
  split; [exact Hin|].
  apply (applyRules_low_readiness (zone := utc) backToBack exhausted
           {| readiness := 1; sleepScore := None |}).
  - reflexivity.
  - simpl. lia.
  - exact Hin.
  - reflexivity.
Defined.

Lemma noHardHard_walk_justified `{zone : JS.TimeZone} (l : list Session) :
  forall m ph pd i s s',
    l !! i = Some s ->
    fst (mapAccum noHardHardStep (m, ph, pd) l) !! i = Some s' ->
    s' <> s ->
    isHardSession s = true
    /\ match i with
       | O => ph = true /\ isConsecutive pd (date s) = true
       | S j =>
           exists p,
             fst (mapAccum noHardHardStep (m, ph, pd) l) !! j = Some p
             /\ isHardSession p = true
             /\ isNextDay (date p) (date s) = true
       end.
Proof.
  induction l as [|x l IH]; intros m ph pd i s s' Hi Ho Hne; [discriminate|].
  cbn [mapAccum] in *.
  destruct (noHardHardStep_spec x m ph pd) as (y & m' & Hstep & Hd & Hc).
  rewrite Hstep in *.
  specialize (IH m' (isHardSession y) (Some (date y))).
  destruct (mapAccum noHardHardStep (m', isHardSession y, Some (date y)) l)
    as [ys t2] eqn:Hm.
  cbn [fst] in *. destruct i as [|i].
  - cbn in Hi, Ho. injection Hi as ->. injection Ho as ->.
    unfold noHardHardStep in Hstep.
    destruct (isConsecutive pd (date s) && ph && isHardSession s) eqn:E;
      [|congruence].
    apply andb_true_iff in E as [E E3]. apply andb_true_iff in E as [E1 E2].
    auto.
  - cbn in Hi, Ho.
    destruct (IH i s s' Hi Ho Hne) as [Hh Hprev]. split; [exact Hh|].
    destruct i as [|i].
    + destruct Hprev as [Hy Hcons]. exists y. split; [reflexivity|].
      split; [exact Hy|]. rewrite isConsecutive_Some in Hcons. exact Hcons.
    + destruct Hprev as (p & Hp & Hph & Hpn). exists p. auto.
Qed.

(** X26.  NoHardHard downgrades with cause only: a slot of the date-sorted
    sessions whose session was changed held a hard session, is not the
    first slot, and follows a slot that holds, after the rule, a hard
    session whose date passes the rule's own next-day test, [isNextDay],
    against the date of the changed session. *)
Theorem noHardHard_downgrades_justified `{zone : JS.TimeZone}
    (plan : WeekPlan) (i : nat) (s s' : Session) :
  JS.sort byDateAsc (sessions plan) !! i = Some s ->
  sessions (applyNoHardHardRule plan) !! i = Some s' ->
  s' <> s ->
  isHardSession s = true
  /\ exists j p,
       i = S j
       /\ sessions (applyNoHardHardRule plan) !! j = Some p
       /\ isHardSession p = true
       /\ isNextDay (date p) (date s) = true.
Proof.
  rewrite applyNoHardHardRule_eq. cbn [sessions]. intros Hi Ho Hne.
  destruct (noHardHard_walk_justified _ false false None i s s' Hi Ho Hne)
    as [Hh Hprev].
  split; [exact Hh|]. destruct i as [|j].
  - destruct Hprev as [Hf _]. discriminate.
  - destruct Hprev as (p & Hp & Hph & Hpn). exists j, p.
    split; [reflexivity|]. split; [exact Hp|]. split; [exact Hph|].
    exact Hpn.
Qed.

Lemma noHardHard_downgrades_justified_witness :
  isHardSession intervalsWednesday = true
  /\ exists j p,
       1%nat = S j
       /\ sessions (applyNoHardHardRule (zone := utc) threeHard) !! j = Some p
       /\ isHardSession p = true
       /\ isNextDay (zone := utc) (date p) (date intervalsWednesday) = true.
Proof.
  apply (noHardHard_downgrades_justified (zone := utc) threeHard 1%nat
           intervalsWednesday
           (downgradeToEasy intervalsWednesday
              "No back-to-back hard sessions allowed")).
  - reflexivity.
  - reflexivity.
  - discriminate.
Defined.

(** The [Date] constructor reads the 30th of February 2026 as the second
    of March, a day [parseISO] refuses: a hard session on the third of
    March is downgraded after a hard session dated so, in every zone that
    keeps one offset. *)
Example rolledOver_downgraded `{zone : JS.TimeZone} :
  fixedOffset zone ->
  JS.parseDay (date thirtiethOfFebruary) = None
  /\ JS.localDay (date thirtiethOfFebruary) = JS.parseDay "2026-03-02"
  /\ isNextDay (date thirtiethOfFebruary) (date thirdOfMarch) = true
  /\ sessions (applyNoHardHardRule rolledOver)
     = [ thirtiethOfFebruary;
         downgradeToEasy thirdOfMarch "No back-to-back hard sessions allowed" ].
Proof.
  intros Hz.
  assert (Hn : isNextDay (date thirtiethOfFebruary) (date thirdOfMarch) = true).
  { apply isNextDay_localDay. exists 20514, 20515.
    split; [reflexivity|]. split; [reflexivity|].
    rewrite (Hz 20515 20514). unfold JS.dayInMs. lia. }
  split; [reflexivity|]. split; [reflexivity|]. split; [exact Hn|].
  rewrite applyNoHardHardRule_eq. cbn [sessions rolledOver].
  change (JS.sort byDateAsc [thirtiethOfFebruary; thirdOfMarch])
    with [thirtiethOfFebruary; thirdOfMarch].
  cbn [mapAccum].
  assert (H1 : noHardHardStep thirtiethOfFebruary (false, false, None)
               = (thirtiethOfFebruary,
                  (false, true, Some (date thirtiethOfFebruary))))
    by reflexivity.
  rewrite H1.
  assert (H2 : noHardHardStep thirdOfMarch
                 (false, true, Some (date thirtiethOfFebruary))
               = (downgradeToEasy thirdOfMarch
                    "No back-to-back hard sessions allowed",
                  (true, false, Some (date thirdOfMarch)))).
  { unfold noHardHardStep. rewrite isConsecutive_Some, Hn. reflexivity. }
  rewrite H2. reflexivity.
Qed.

(** When the clocks go back the two midnights are 25 hours apart: a hard
    Sunday 25 October 2026 and a hard Monday after it both stay hard. *)
Example autumn_clock_change :
  isNextDay (zone := centralEurope2026) "2026-10-25" "2026-10-26" = false
  /\ dayAfter "2026-10-25" "2026-10-26"
  /\ JS.midnightTime (zone := centralEurope2026) "2026-10-25"
     = Some 1792879200000
  /\ JS.midnightTime (zone := centralEurope2026) "2026-10-26"
     = Some 1792969200000.
Proof.
  split; [reflexivity|]. split; [exists 20751; split; reflexivity|].
  split; reflexivity.
Qed.

(** The half minute per session is reached: two sessions of 150 minutes
    against a cap of 231 are scaled to 115.5 each and rounded to 116, one
    minute above the cap together. *)
Example twoLong_capped :
  maxAllowedOf (totalMinutes (last7dStats twoTenLastWeek)) = 231
  /\ map durationMin (sessions (applyWeeklyLoadCapRule twoLong twoTenLastWeek))
     = [116; 116].
Proof. split; reflexivity. Qed.
